(** * Flatcar Linux Update Operator: the reboot reconciler

    A shallow embedding of [pkg/operator/operator.go] and of the conflict
    retry helper of [pkg/k8sutil], with the properties of the
    reconciliation pass stated and proved over it.

    Conventions of the embedding:
    - a Go [map[string]string] (labels, annotations) is a [gmap string string];
      the nodes a kubelet registers carry labels and annotations of their
      own, so both maps are allocated and a write to a nil map is not part
      of the model;
    - the node objects held by the API server are a [list Node] in list
      order; node names identify the objects, so the lemmas about whole
      phases and passes assume the names of a store to be pairwise distinct;
    - a Go function that returns [error] and talks to the API server is a
      state-passing function over the store; a run-time panic is a result of
      its own; log lines and events are left out;
    - the server of the reconciler's phases carries out every call of the
      one controller; the retry loop of the node mutator is stated against
      a server that may refuse any call, with a conflict or another error;
    - [time.Now()] is an input: every reading of the clock is a parameter. *)

From Stdlib Require Import ZArith QArith.
From stdpp Require Import base strings gmap list.

Local Open Scope string_scope.
Local Open Scope Z_scope.

(** ** Errors *)

(** [metav1.StatusReason], as far as the operator distinguishes them. *)
Inductive StatusReason := StatusReasonConflict | StatusReasonNotFound | StatusReasonUnknown.

(** Go [error] values: the sentinel [wait.ErrWaitTimeout], status errors of
    the API machinery, and [fmt.Errorf("...: %w", err)] wrappers. *)
Inductive error :=
| ErrWaitTimeout
| StatusError (reason : StatusReason) (message : string)
| Errorf (context : string) (wrapped : error).

#[global] Instance StatusReason_eq_dec : EqDecision StatusReason.
Proof. solve_decision. Defined.
#[global] Instance error_eq_dec : EqDecision error.
Proof. solve_decision. Defined.

(** [errors.IsConflict]: the reason of the (possibly wrapped) status error
    is [StatusReasonConflict]. *)
Fixpoint IsConflict (err : error) : bool :=
  match err with
  | ErrWaitTimeout => false
  | StatusError StatusReasonConflict _ => true
  | StatusError _ _ => false
  | Errorf _ wrapped => IsConflict wrapped
  end.

(** ** Conflict retry (k8sutil) *)

(** [wait.Backoff]; durations in nanoseconds. *)
Record Backoff := {
  Steps : Z;
  Duration : Z;
  Factor : Q;
  Jitter : Q
}.

Definition Millisecond : Z := 1000000.

Definition DefaultRetry : Backoff :=
  {| Steps := 5; Duration := 10 * Millisecond; Factor := 1; Jitter := 1 # 10 |}.

Definition DefaultBackoff : Backoff :=
  {| Steps := 4; Duration := 10 * Millisecond; Factor := 5; Jitter := 1 # 10 |}.

Section Retry.
(** The state the retried function reads and writes. *)
Context {S : Type}.

(** [wait.ConditionFunc], state passing. *)
Definition ConditionFunc := S → (bool * option error) * S.

(** Modelled from the spec: [wait.ExponentialBackoff] belongs to the
    Kubernetes client library and is not among the sources.  It calls
    [condition] up to [Steps] times, sleeping in between; the first call
    that reports done or fails ends the loop with that call's error, and
    running out of steps yields [wait.ErrWaitTimeout].  The sleeps are not
    part of the model. *)
Fixpoint ExponentialBackoff_loop (steps : nat) (condition : ConditionFunc) (s : S)
  : option error * S :=
  match steps with
  | O => (Some ErrWaitTimeout, s)
  | Datatypes.S steps' =>
      match condition s with
      | ((_, Some err), s') => (Some err, s')
      | ((true, None), s') => (None, s')
      | ((false, None), s') => ExponentialBackoff_loop steps' condition s'
      end
  end.

Definition ExponentialBackoff (backoff : Backoff) (condition : ConditionFunc) (s : S)
  : option error * S :=
  ExponentialBackoff_loop (Z.to_nat (Steps backoff)) condition s.

(** The closure handed to [wait.ExponentialBackoff] by [RetryOnConflict];
    the captured variable [lastConflictErr] travels with the state. *)
Definition retryCondition (fn : S → option error * S)
  : S * option error → (bool * option error) * (S * option error) :=
  λ '(s, lastConflictErr),
    match fn s with
    | (None, s') => ((true, None), (s', lastConflictErr))
    | (Some err, s') =>
        if IsConflict err then ((false, None), (s', Some err))
        else ((false, Some err), (s', lastConflictErr))
    end.
End Retry.

Definition RetryOnConflict {S : Type} (backoff : Backoff) (fn : S → option error * S) (s : S)
  : option error * S :=
  let '(err, (s', lastConflictErr)) :=
    ExponentialBackoff backoff (retryCondition fn) (s, None) in
  (if decide (err = Some ErrWaitTimeout) then lastConflictErr else err, s').

(** ** Nodes, labels and annotations *)

Record Node := {
  Name : string;
  Labels : gmap string string;
  Annotations : gmap string string
}.

#[global] Instance Node_eq_dec : EqDecision Node.
Proof. solve_decision. Defined.

(** Modelled from the spec: the package [pkg/constants] is not among the
    sources.  The keys are the names the specification lists; the common
    project prefix of the real keys is left out, which keeps them pairwise
    distinct. *)
Definition True_ : string := "true".
Definition False_ : string := "false".
Definition AnnotationOkToReboot : string := "reboot-ok".
Definition AnnotationRebootNeeded : string := "reboot-needed".
Definition AnnotationRebootInProgress : string := "reboot-in-progress".
Definition AnnotationRebootPaused : string := "reboot-paused".
Definition LabelBeforeReboot : string := "before-reboot".
Definition LabelAfterReboot : string := "after-reboot".

Definition maxRebootingNodes : Z := 1.

(** *** Field selectors over annotations ([k8s.io/apimachinery/pkg/fields]) *)

(** A term [field == value] or [field != value]; a selector is the
    conjunction of its terms. *)
Inductive fieldsTerm :=
| hasTerm (field value : string)
| notHasTerm (field value : string).

Definition fieldsSelector := list fieldsTerm.

(** [fields.Set.Get]: the value of an absent field is the empty string. *)
Definition fields_Get (ls : gmap string string) (field : string) : string :=
  default "" (ls !! field).

Definition fieldsTerm_Matches (ls : gmap string string) (t : fieldsTerm) : bool :=
  match t with
  | hasTerm field value => bool_decide (fields_Get ls field = value)
  | notHasTerm field value => bool_decide (fields_Get ls field ≠ value)
  end.

Definition fields_Matches (sel : fieldsSelector) (ls : gmap string string) : bool :=
  forallb (fieldsTerm_Matches ls) sel.

(** *** Label requirements ([k8s.io/apimachinery/pkg/labels]) *)

Inductive selectionOperator := selection_In | selection_NotIn.

Record labelsRequirement := {
  key : string;
  operator : selectionOperator;
  strValues : list string
}.

(** [labels.Requirement.Matches]: [In] needs the label to be present with
    one of the values; [NotIn] holds when it is absent or has another value. *)
Definition labels_Matches (r : labelsRequirement) (ls : gmap string string) : bool :=
  match operator r, ls !! key r with
  | selection_In, Some v => bool_decide (v ∈ strValues r)
  | selection_In, None => false
  | selection_NotIn, Some v => negb (bool_decide (v ∈ strValues r))
  | selection_NotIn, None => true
  end.

(** *** The operator's selectors *)

Definition justRebootedSelector : fieldsSelector :=
  [ hasTerm AnnotationOkToReboot True_;
    hasTerm AnnotationRebootNeeded False_;
    hasTerm AnnotationRebootInProgress False_ ].

(** [fields.ParseSelector] of the four comma-separated terms; the parse of
    this fixed string does not fail. *)
Definition wantsRebootSelector : fieldsSelector :=
  [ hasTerm AnnotationRebootNeeded True_;
    notHasTerm AnnotationRebootPaused True_;
    notHasTerm AnnotationOkToReboot True_;
    notHasTerm AnnotationRebootInProgress True_ ].

Definition stillRebootingSelector : fieldsSelector :=
  [ hasTerm AnnotationOkToReboot True_;
    hasTerm AnnotationRebootNeeded True_ ].

Definition beforeRebootReq : labelsRequirement :=
  {| key := LabelBeforeReboot; operator := selection_In; strValues := [True_] |}.

Definition afterRebootReq : labelsRequirement :=
  {| key := LabelAfterReboot; operator := selection_In; strValues := [True_] |}.

Definition notBeforeRebootReq : labelsRequirement :=
  {| key := LabelBeforeReboot; operator := selection_NotIn; strValues := [True_] |}.

Definition notAfterRebootReq : labelsRequirement :=
  {| key := LabelAfterReboot; operator := selection_NotIn; strValues := [True_] |}.

(** Modelled from the spec: [k8sutil.FilterNodesByAnnotation] is not among
    the sources.  It keeps, in order, the nodes whose annotations match the
    field selector. *)
Definition FilterNodesByAnnotation (nodes : list Node) (sel : fieldsSelector) : list Node :=
  List.filter (λ n, fields_Matches sel (Annotations n)) nodes.

(** Modelled from the spec: [k8sutil.FilterNodesByRequirement] is not among
    the sources.  It keeps, in order, the nodes whose labels match the
    requirement. *)
Definition FilterNodesByRequirement (nodes : list Node) (req : labelsRequirement) : list Node :=
  List.filter (λ n, labels_Matches req (Labels n)) nodes.

Definition hasAllAnnotations (node : Node) (annotations : list string) : bool :=
  forallb (λ annotation,
             match Annotations node !! annotation with
             | Some value => bool_decide (value = True_)
             | None => false
             end) annotations.

(** ** The API server and the effects of the operator *)

(** What a call leaves behind: a value, an [error], or a run-time panic. *)
Inductive result (A : Type) :=
| Ok (a : A)
| Err (e : error)
| Panic (msg : string).
Arguments Ok {A} a.
Arguments Err {A} e.
Arguments Panic {A} msg.

(** Computations over the node objects of the API server.  The store is
    returned in every case: the updates made before a failure stay. *)
Definition M (A : Type) : Type := list Node → result A * list Node.

Definition ret {A} (a : A) : M A := λ st, (Ok a, st).

Definition bind {A B} (m : M A) (k : A → M B) : M B :=
  λ st, match m st with
        | (Ok a, st') => k a st'
        | (Err e, st') => (Err e, st')
        | (Panic msg, st') => (Panic msg, st')
        end.

Notation "'do' x <- m ;; k" := (bind m (λ x, k))
  (at level 10, x name, m at level 99, k at level 200).

(** A Go call returning [error]; [context] is the text of the
    [fmt.Errorf("context: %w", err)] that wraps a failure. *)
Definition orErrorf (context : string) (call : list Node → option error * list Node) : M unit :=
  λ st, match call st with
        | (None, st') => (Ok tt, st')
        | (Some err, st') => (Err (Errorf context err), st')
        end.

(** [for _, x := range items { if err := body(x); err != nil { return err } }] *)
Fixpoint forEach {A} (items : list A) (body : A → M unit) : M unit :=
  match items with
  | [] => ret tt
  | x :: rest => do _ <- body x ;; forEach rest body
  end.

(** [nc.List]: all node objects, in the order of the store. *)
Definition nc_List : M (list Node) := λ st, (Ok st, st).

(** [nc.Get]: the object of that name. *)
Definition nc_Get (name : string) (st : list Node) : error + Node :=
  match List.find (λ n, bool_decide (Name n = name)) st with
  | Some n => inr n
  | None => inl (StatusError StatusReasonNotFound name)
  end.

(** [nc.Update]: store the object under its name.  One writer at a time:
    the resource version read by [nc.Get] is still current, so the update
    of an existing object does not conflict. *)
Definition nc_Update (node : Node) (st : list Node) : option error * list Node :=
  if bool_decide (Name node ∈ Name <$> st)
  then (None, (λ n, if bool_decide (Name n = Name node) then node else n) <$> st)
  else (Some (StatusError StatusReasonNotFound (Name node)), st).

(** Modelled from the spec: [k8sutil.UpdateNodeRetry] is not among the
    sources.  It re-reads the node, applies the transformation and tries to
    persist the result, retrying on a conflict with the backoff of five
    steps ([DefaultRetry]). *)
Definition UpdateNodeRetry (node : string) (f : Node → Node)
  : list Node → option error * list Node :=
  RetryOnConflict DefaultRetry
    (λ st, match nc_Get node st with
           | inl getErr => (Some (Errorf "getting node" getErr), st)
           | inr n => nc_Update (f n) st
           end).

(** ** The reboot window ([timeutil.Periodic] of locksmith) *)

Definition Time := Z.

Record Period := { Start : Time; End_ : Time }.

(** The library type is used through one method only, [Previous]: the most
    recent occurrence of the recurring window that starts at or before the
    reference time. *)
Record Periodic := { Previous : Time → Period }.

(** [t.After(u)] *)
Definition Time_After (t u : Time) : bool := u <? t.

(** ** The controller *)

Record Kontroller := {
  beforeRebootAnnotations : list string;
  afterRebootAnnotations : list string;
  rebootWindow : option Periodic
}.

(** [for _, annotation := range annotations { delete(m, annotation) }] *)
Definition deleteAll (annotations : list string) (m : gmap string string) : gmap string string :=
  foldl (λ acc annotation, delete annotation acc) m annotations.

(** The closure of [cleanupState]. *)
Definition cleanupState_modifier (k : Kontroller) (node : Node) : Node :=
  if bool_decide (is_Some (Labels node !! LabelBeforeReboot)) then
    if negb (fields_Matches wantsRebootSelector (Annotations node)) then
      {| Name := Name node;
         Labels := delete LabelBeforeReboot (Labels node);
         Annotations := deleteAll (beforeRebootAnnotations k) (Annotations node) |}
    else node
  else node.

Definition cleanupState (k : Kontroller) : M unit :=
  do nodelist <- nc_List ;;
  forEach nodelist (λ n,
    orErrorf "cleaning up node" (UpdateNodeRetry (Name n) (cleanupState_modifier k))).

(** The closure of [checkBeforeReboot]. *)
Definition checkBeforeReboot_modifier (k : Kontroller) (node : Node) : Node :=
  {| Name := Name node;
     Labels := delete LabelBeforeReboot (Labels node);
     Annotations :=
       <[AnnotationOkToReboot := True_]>
         (deleteAll (beforeRebootAnnotations k) (Annotations node)) |}.

(** The loop of [checkBeforeReboot] over the nodes selected at list time. *)
Definition checkBeforeReboot_loop (k : Kontroller) (preRebootNodes : list Node) : M unit :=
  forEach preRebootNodes (λ n,
    if hasAllAnnotations n (beforeRebootAnnotations k)
    then orErrorf "updating node" (UpdateNodeRetry (Name n) (checkBeforeReboot_modifier k))
    else ret tt).

Definition checkBeforeReboot (k : Kontroller) : M unit :=
  do nodelist <- nc_List ;;
  checkBeforeReboot_loop k (FilterNodesByRequirement nodelist beforeRebootReq).

(** The closure of [checkAfterReboot]. *)
Definition checkAfterReboot_modifier (k : Kontroller) (node : Node) : Node :=
  {| Name := Name node;
     Labels := delete LabelAfterReboot (Labels node);
     Annotations :=
       <[AnnotationOkToReboot := False_]>
         (deleteAll (afterRebootAnnotations k) (Annotations node)) |}.

Definition checkAfterReboot_loop (k : Kontroller) (postRebootNodes : list Node) : M unit :=
  forEach postRebootNodes (λ n,
    if hasAllAnnotations n (afterRebootAnnotations k)
    then orErrorf "updating node" (UpdateNodeRetry (Name n) (checkAfterReboot_modifier k))
    else ret tt).

Definition checkAfterReboot (k : Kontroller) : M unit :=
  do nodelist <- nc_List ;;
  checkAfterReboot_loop k (FilterNodesByRequirement nodelist afterRebootReq).

(** [insideRebootWindow]; [now1] and [now2] are the two readings of
    [time.Now()], in the order of the calls. *)
Definition insideRebootWindow (k : Kontroller) (now1 now2 : Time) : bool :=
  match rebootWindow k with
  | None => true
  | Some rw =>
      let period := Previous rw now1 in
      negb (Time_After (End_ period) now2)
  end.

(** The concatenated list [rebootingNodes] of [remainingRebootingCapacity]. *)
Definition rebootingNodes (nodelist : list Node) : list Node :=
  (FilterNodesByAnnotation nodelist stillRebootingSelector
     ++ FilterNodesByRequirement nodelist beforeRebootReq)
    ++ FilterNodesByRequirement nodelist afterRebootReq.

Definition remainingRebootingCapacity (nodelist : list Node) : Z :=
  maxRebootingNodes - Z.of_nat (length (rebootingNodes nodelist)).

Definition nodesRequiringReboot (nodelist : list Node) : list Node :=
  FilterNodesByRequirement
    (FilterNodesByAnnotation nodelist wantsRebootSelector) notBeforeRebootReq.

(** [rebootableNodes].  [make([]*corev1.Node, 0, remainingCapacity)] panics
    when the capacity is negative; otherwise the loop takes the first
    [remainingCapacity] nodes that require a reboot, or all of them. *)
Definition rebootableNodes (nodelist : list Node) : result (list Node) :=
  let remainingCapacity := remainingRebootingCapacity nodelist in
  let nodes := nodesRequiringReboot nodelist in
  if remainingCapacity <? 0 then Panic "makeslice: cap out of range"
  else Ok (take (Z.to_nat remainingCapacity) nodes).

(** The closure of [mark]. *)
Definition mark_modifier (label : string) (annotations : list string) (node : Node) : Node :=
  {| Name := Name node;
     Labels := <[label := True_]> (Labels node);
     Annotations := deleteAll annotations (Annotations node) |}.

Definition mark (nodeName label : string) (annotations : list string) : M unit :=
  orErrorf "setting label" (UpdateNodeRetry nodeName (mark_modifier label annotations)).

(** A failure of [mark] comes back wrapped once more by the caller. *)
Definition wrapErr {A} (context : string) (m : M A) : M A :=
  λ st, match m st with
        | (Err e, st') => (Err (Errorf context e), st')
        | r => r
        end.

Definition markBeforeReboot (k : Kontroller) (now1 now2 : Time) : M unit :=
  do nodelist <- nc_List ;;
  if negb (insideRebootWindow k now1 now2) then ret tt
  else
    do chosen <- (λ st, (rebootableNodes nodelist, st)) ;;
    forEach chosen (λ n,
      wrapErr "labeling node for before reboot checks"
        (mark (Name n) LabelBeforeReboot (beforeRebootAnnotations k))).

Definition markAfterReboot (k : Kontroller) : M unit :=
  do nodelist <- nc_List ;;
  let justRebootedNodes := FilterNodesByAnnotation nodelist justRebootedSelector in
  let justRebootedNodes := FilterNodesByRequirement justRebootedNodes notAfterRebootReq in
  forEach justRebootedNodes (λ n,
    wrapErr "labeling node for after reboot checks"
      (mark (Name n) LabelAfterReboot (afterRebootAnnotations k))).

(** [process]: one reconciliation pass.  The Go function logs a failure and
    returns nothing; here the failure is the result, so that a pass that
    went through can be told from one that stopped early. *)
Definition process (k : Kontroller) (now1 now2 : Time) : M unit :=
  do _ <- cleanupState k ;;
  do _ <- checkAfterReboot k ;;
  do _ <- markAfterReboot k ;;
  do _ <- checkBeforeReboot k ;;
  markBeforeReboot k now1 now2.


(** ** Retry on any error (k8sutil) *)

(** The closure handed to [wait.ExponentialBackoff] by [RetryOnError].  Its
    [lastErr := fn()] declares a variable of its own, local to the closure:
    the [lastErr] of the enclosing function, which travels with the state
    here, is never assigned. *)
Definition retryErrorCondition {S : Type} (fn : S → option error * S)
  : S * option error → (bool * option error) * (S * option error) :=
  λ '(s, lastErr),
    match fn s with
    | (inner, s') => ((bool_decide (inner = None), None), (s', lastErr))
    end.

Definition RetryOnError {S : Type} (backoff : Backoff) (fn : S → option error * S) (s : S)
  : option error * S :=
  let '(err, (s', lastErr)) :=
    ExponentialBackoff backoff (retryErrorCondition fn) (s, None) in
  (if decide (err = Some ErrWaitTimeout) then lastErr else err, s').

(** ** The node mutator and a server that refuses calls *)

(** The API server with its other clients around.  Besides the node
    objects it holds what it will do with the calls to come: carry the call
    out ([None]) or answer with a status error of the given reason, a
    conflict when the object was changed since it was read, any other
    reason for any other failure.  A call uses up the head of [refusals];
    with none left the calls are carried out. *)
Record Server := {
  objects : list Node;
  refusals : list (option StatusReason)
}.

#[global] Instance Server_eq_dec : EqDecision Server.
Proof. solve_decision. Defined.

Definition srv_answer (srv : Server) : option StatusReason * Server :=
  match refusals srv with
  | [] => (None, srv)
  | answer :: rest => (answer, {| objects := objects srv; refusals := rest |})
  end.

(** [nc.Get] against such a server. *)
Definition srv_Get (name : string) (srv : Server) : (error + Node) * Server :=
  match srv_answer srv with
  | (Some reason, srv') => (inl (StatusError reason name), srv')
  | (None, srv') => (nc_Get name (objects srv'), srv')
  end.

(** [nc.Update] against such a server; a refused update changes nothing. *)
Definition srv_Update (node : Node) (srv : Server) : option error * Server :=
  match srv_answer srv with
  | (Some reason, srv') => (Some (StatusError reason (Name node)), srv')
  | (None, srv') =>
      match nc_Update node (objects srv') with
      | (err, st) => (err, {| objects := st; refusals := refusals srv' |})
      end
  end.

(** Modelled from the spec: [k8sutil.UpdateNodeRetry] is not among the
    sources.  This is the function it retries: one attempt re-reads the
    node, applies the transformation and tries to persist the result. *)
Definition updateNodeOnce (node : string) (f : Node → Node) (srv : Server)
  : option error * Server :=
  match srv_Get node srv with
  | (inl getErr, srv') => (Some (Errorf "getting node" getErr), srv')
  | (inr n, srv') => srv_Update (f n) srv'
  end.

(** Modelled from the spec: [k8sutil.UpdateNodeRetry] against a server that
    may refuse, the attempt above under [RetryOnConflict] with the backoff
    of five steps ([DefaultRetry]).  [UpdateNodeRetry] is this mutator with
    a server that refuses nothing. *)
Definition UpdateNodeRetry_on (node : string) (f : Node → Node)
  : Server → option error * Server :=
  RetryOnConflict DefaultRetry (updateNodeOnce node f).

(** ** The agent daemon set (agent management of the operator) *)

(** What the operator uses of [github.com/blang/semver] and of the
    repository's [pkg/version], which is not among the sources: the type of
    semantic versions with [semver.Parse] and [Version.LT], and the version
    of the operator as a string and as a semantic version. *)
Record Build := {
  semver_Version : Type;
  semver_Parse : string → option semver_Version;
  semver_LT : semver_Version → semver_Version → bool;
  version_Version : string;
  version_Semver : semver_Version
}.

(** [metav1.ObjectMeta], as far as set or read. *)
Record ObjectMeta := {
  metaName : string;
  metaLabels : gmap string string;
  metaAnnotations : gmap string string
}.

Record Toleration := { tolerationKey : string; tolerationOperator : string;
                       tolerationEffect : string }.

Record VolumeMount := { mountName : string; mountPath : string }.

(** An environment variable taken from a field of the pod. *)
Record EnvVar := { envName : string; envFieldPath : string }.

Record Container := {
  containerName : string;
  containerImage : string;
  containerCommand : list string;
  containerVolumeMounts : list VolumeMount;
  containerEnv : list EnvVar
}.

(** A volume backed by a path of the host. *)
Record Volume := { volumeName : string; volumeHostPath : string }.

Record PodSpec := {
  podTolerations : list Toleration;
  podContainers : list Container;
  podVolumes : list Volume
}.

Record PodTemplateSpec := { templateMeta : ObjectMeta; templateSpec : PodSpec }.

Record DaemonSet := {
  dsMeta : ObjectMeta;
  dsSelector : gmap string string;
  dsTemplate : PodTemplateSpec
}.

Definition agentDefaultAppName : string := "flatcar-linux-update-agent".
Definition daemonsetName : string := "flatcar-linux-update-agent-ds".

(** Modelled from the spec: [constants.AgentVersion] of [pkg/constants],
    which is not among the sources; the project prefix is left out. *)
Definition AgentVersion : string := "agent-version".

Definition managedByOperatorLabels : gmap string string :=
  <["managed-by" := "flatcar-linux-update-operator"]>
    (<["app" := agentDefaultAppName]> ∅).

Definition agentImageName (b : Build) (repo : string) : string :=
  repo +:+ ":v" +:+ version_Version b.

Definition agentCommand : list string := ["/bin/update-agent"].

Definition agentDaemonsetSpec (b : Build) (repo : string) : DaemonSet :=
  let versionedSelector := <[AgentVersion := version_Version b]> managedByOperatorLabels in
  {| dsMeta := {| metaName := daemonsetName;
                  metaLabels := managedByOperatorLabels;
                  metaAnnotations := <[AgentVersion := version_Version b]> ∅ |};
     dsSelector := versionedSelector;
     dsTemplate :=
       {| templateMeta := {| metaName := agentDefaultAppName;
                             metaLabels := versionedSelector;
                             metaAnnotations := <[AgentVersion := version_Version b]> ∅ |};
          templateSpec :=
            {| podTolerations :=
                 [ {| tolerationKey := "node-role.kubernetes.io/master";
                      tolerationOperator := "Exists";
                      tolerationEffect := "NoSchedule" |} ];
               podContainers :=
                 [ {| containerName := "update-agent";
                      containerImage := agentImageName b repo;
                      containerCommand := agentCommand;
                      containerVolumeMounts :=
                        [ {| mountName := "var-run-dbus"; mountPath := "/var/run/dbus" |};
                          {| mountName := "etc-flatcar"; mountPath := "/etc/flatcar" |};
                          {| mountName := "usr-share-flatcar";
                             mountPath := "/usr/share/flatcar" |};
                          {| mountName := "etc-os-release";
                             mountPath := "/etc/os-release" |} ];
                      containerEnv :=
                        [ {| envName := "UPDATE_AGENT_NODE";
                             envFieldPath := "spec.nodeName" |};
                          {| envName := "POD_NAMESPACE";
                             envFieldPath := "metadata.namespace" |} ] |} ];
               podVolumes :=
                 [ {| volumeName := "var-run-dbus"; volumeHostPath := "/var/run/dbus" |};
                   {| volumeName := "etc-flatcar"; volumeHostPath := "/etc/flatcar" |};
                   {| volumeName := "usr-share-flatcar";
                      volumeHostPath := "/usr/share/flatcar" |};
                   {| volumeName := "etc-os-release";
                      volumeHostPath := "/etc/os-release" |} ] |} |} |}.

(** *** The daemon sets of the operator's namespace *)

(** A label selector made from a set of labels matches the objects that
    carry every label of the set with its value. *)
Definition selectorFromSet_Matches (set labels : gmap string string) : bool :=
  forallb (λ kv, bool_decide (labels !! kv.1 = Some kv.2)) (map_to_list set).

(** [DaemonSets(namespace).List] with a label selector; the API server of
    the model answers every listing. *)
Definition ds_List (selector : gmap string string) (world : list DaemonSet)
  : list DaemonSet :=
  List.filter (λ d, selectorFromSet_Matches selector (metaLabels (dsMeta d))) world.

(** [DaemonSets(namespace).Create]: names are unique in a namespace. *)
Definition ds_Create (d : DaemonSet) (world : list DaemonSet)
  : option error * list DaemonSet :=
  if bool_decide (metaName (dsMeta d) ∈ (λ x, metaName (dsMeta x)) <$> world)
  then (Some (StatusError StatusReasonUnknown "already exists"), world)
  else (None, (world ++ [d])%list).

(** [DaemonSets(namespace).Delete], by name. *)
Definition ds_Delete (name : string) (world : list DaemonSet)
  : option error * list DaemonSet :=
  if bool_decide (name ∈ (λ x, metaName (dsMeta x)) <$> world)
  then (None, List.filter (λ x, negb (bool_decide (metaName (dsMeta x) = name))) world)
  else (Some (StatusError StatusReasonNotFound name), world).

(** The errors [runDaemonsetUpdate] returns: a wrapped error of the API
    server, or one of its own three messages. *)
Inductive agentError :=
| agentErrorf (context : string) (wrapped : error)
| errManyDaemonsets (found : nat)
| errInvalidSemver (name value : string)
| errNoVersionAnnotation.

Definition createAgentDamonset (b : Build) (agentImageRepo : string)
  : list DaemonSet → option error * list DaemonSet :=
  ds_Create (agentDaemonsetSpec b agentImageRepo).

Definition runDaemonsetUpdate (b : Build) (agentImageRepo : string) (world : list DaemonSet)
  : option agentError * list DaemonSet :=
  match ds_List managedByOperatorLabels world with
  | [] =>
      match createAgentDamonset b agentImageRepo world with
      | (Some err, world') => (Some (agentErrorf "creating agent DaemonSet" err), world')
      | (None, world') => (None, world')
      end
  | [agentDS] =>
      match metaAnnotations (dsMeta agentDS) !! AgentVersion with
      | None => (Some errNoVersionAnnotation, world)
      | Some dsVersion =>
          match semver_Parse b dsVersion with
          | None => (Some (errInvalidSemver (metaName (dsMeta agentDS)) dsVersion), world)
          | Some dsSemver =>
              if semver_LT b dsSemver (version_Semver b) then
                match ds_Delete (metaName (dsMeta agentDS)) world with
                | (Some err, world') =>
                    (Some (agentErrorf "deleting old DaemonSet" err), world')
                | (None, world') =>
                    match createAgentDamonset b agentImageRepo world' with
                    | (Some err, world'') =>
                        (Some (agentErrorf "creating agent DaemonSet" err), world'')
                    | (None, world'') => (None, world'')
                    end
                end
              else (None, world)
          end
      end
  | items => (Some (errManyDaemonsets (length items)), world)
  end.

(** ** Setting up the controller *)

(** A Kubernetes client; [None] in [Client] below is the nil interface. *)
Inductive kubernetesInterface := clientset.

Record Config := {
  Client : option kubernetesInterface;
  AutoLabelContainerLinux : bool;
  BeforeRebootAnnotations : list string;
  AfterRebootAnnotations : list string;
  RebootWindowStart : string;
  RebootWindowLength : string;
  ManageAgent : bool;
  AgentImageRepo : string
}.

(** What [New] asks of its surroundings: the in-cluster configuration
    ([rest.InClusterConfig]) and the client made from it
    ([kubernetes.NewForConfig]), each there or failing with an error; the
    process environment ([os.Getenv], "" for an unset variable); and
    [timeutil.ParsePeriodic] of locksmith. *)
Record Environment := {
  rest_InClusterConfig : option error;
  kubernetes_NewForConfig : option error;
  os_Getenv : string → string;
  timeutil_ParsePeriodic : string → string → error + Periodic
}.

(** The fields of the Go [Kontroller] that [New] fills from the
    configuration: those the reconciler reads are the [Kontroller] above,
    the others stand beside it.  Clients and event recorders are left out. *)
Record KontrollerSetup := {
  reconciler : Kontroller;
  namespace : string;
  autoLabelContainerLinux : bool;
  manageAgent : bool;
  agentImageRepo : string
}.

Inductive newError :=
| errNilClient
| errLeaderElectionClientConfig (err : error)
| errLeaderElectionClient (err : error)
| errNoNamespace
| errRebootWindow (err : error).

Definition New (env : Environment) (config : Config) : newError + KontrollerSetup :=
  match Client config with
  | None => inl errNilClient
  | Some _ =>
      match rest_InClusterConfig env with
      | Some err => inl (errLeaderElectionClientConfig err)
      | None =>
          match kubernetes_NewForConfig env with
          | Some err => inl (errLeaderElectionClient err)
          | None =>
              let namespace := os_Getenv env "POD_NAMESPACE" in
              if bool_decide (namespace = "") then inl errNoNamespace
              else
                let window :=
                  if bool_decide (RebootWindowStart config ≠ "")
                     && bool_decide (RebootWindowLength config ≠ "")
                  then match timeutil_ParsePeriodic env (RebootWindowStart config)
                               (RebootWindowLength config) with
                       | inl err => inl (errRebootWindow err)
                       | inr rw => inr (Some rw)
                       end
                  else inr None in
                match window with
                | inl e => inl e
                | inr rebootWindow =>
                    inr {| reconciler :=
                             {| beforeRebootAnnotations := BeforeRebootAnnotations config;
                                afterRebootAnnotations := AfterRebootAnnotations config;
                                rebootWindow := rebootWindow |};
                           namespace := namespace;
                           autoLabelContainerLinux := AutoLabelContainerLinux config;
                           manageAgent := ManageAgent config;
                           agentImageRepo := AgentImageRepo config |}
                end
          end
      end
  end.
(** ** Vocabulary of the properties *)

(** *** Runs of a retried function *)

(** The state after the first [n] calls of [fn], and what call number [n]
    (counted from 0) returns. *)
Fixpoint stateAfter {S : Type} (fn : S → option error * S) (n : nat) (s : S) : S :=
  match n with
  | O => s
  | Datatypes.S n' => stateAfter fn n' (snd (fn s))
  end.

Definition attempt {S : Type} (fn : S → option error * S) (n : nat) (s : S) : option error :=
  fst (fn (stateAfter fn n s)).

(** The first [n] calls of [fn] from [s] all fail with a conflict. *)
Fixpoint conflictsUpTo {S : Type} (fn : S → option error * S) (n : nat) (s : S) : bool :=
  match n with
  | O => true
  | Datatypes.S n' =>
      match fn s with
      | (Some e, s') => IsConflict e && conflictsUpTo fn n' s'
      | (None, _) => false
      end
  end.

(** The last conflict remembered after [n] conflicting calls. *)
Definition lastConflict {S : Type} (fn : S → option error * S) (n : nat) (s : S)
    (before : option error) : option error :=
  match n with
  | O => before
  | Datatypes.S n' => attempt fn n' s
  end.

(** A retried function for the examples: the state counts the calls; the
    first [conflicts] calls fail with a conflict and the next one returns
    [final]. *)
Definition scripted (conflicts : nat) (final : option error) (calls : nat)
  : option error * nat :=
  (if bool_decide (calls < conflicts)%nat
   then Some (StatusError StatusReasonConflict "object has been modified")
   else final,
   Datatypes.S calls).

(** *** Nodes and windows for the examples *)

Definition mkNode (name : string) (labels annotations : list (string * string)) : Node :=
  {| Name := name; Labels := list_to_map labels; Annotations := list_to_map annotations |}.

(** A node as its kubelet registers it: labelled with its host name. *)
Definition registered (name : string) (labels annotations : list (string * string)) : Node :=
  mkNode name (("kubernetes.io/hostname", name) :: labels) annotations.

(** A window that opens every day [start] seconds after midnight for
    [length] seconds; times are seconds.  [Previous] is the occurrence with
    the latest start at or before the reference time. *)
Definition dailyWindow (start length : Z) : Periodic :=
  {| Previous := λ ref,
       let opened := start + 86400 * ((ref - start) `div` 86400) in
       {| Start := opened; End_ := opened + length |} |}.

(** *** Node phases *)

(** The phases of the specification, through the selectors of the source:
    a node between the grant and its reboot matches [stillRebootingSelector],
    pre-check and post-check are the two label requirements. *)
Definition isStillRebooting (n : Node) : bool :=
  fields_Matches stillRebootingSelector (Annotations n).

Definition hasPreLabel (n : Node) : bool := labels_Matches beforeRebootReq (Labels n).

Definition hasPostLabel (n : Node) : bool := labels_Matches afterRebootReq (Labels n).

Definition isInFlight (n : Node) : bool :=
  isStillRebooting n || hasPreLabel n || hasPostLabel n.

(** The in-flight nodes of a list, every node once. *)
Definition inFlight (nodes : list Node) : list Node := List.filter isInFlight nodes.

(** In how many of the three sets a node is. *)
Definition multiplicity (n : Node) : nat :=
  (if isStillRebooting n then 1 else 0)
  + (if hasPreLabel n then 1 else 0)
  + (if hasPostLabel n then 1 else 0).

(** The candidates of the enter-pre-check phase. *)
Definition isWantsReboot (n : Node) : bool :=
  fields_Matches wantsRebootSelector (Annotations n)
  && labels_Matches notBeforeRebootReq (Labels n).

Definition isJustRebooted (n : Node) : bool :=
  fields_Matches justRebootedSelector (Annotations n)
  && labels_Matches notAfterRebootReq (Labels n).

(** Idle: none of the other phases applies. *)
Definition isIdle (n : Node) : bool :=
  negb (isWantsReboot n) && negb (hasPreLabel n) && negb (isStillRebooting n)
  && negb (isJustRebooted n) && negb (hasPostLabel n).

(** *** Stores *)

(** The names of a store identify its objects. *)
Definition distinctNames (st : list Node) : Prop := NoDup (Name <$> st).

(** A modifier edits labels and annotations, never the name. *)
Definition preservesName (f : Node → Node) : Prop := ∀ n, Name (f n) = Name n.

(** [f] applied to the object called [name]. *)
Definition applyAt (name : string) (f : Node → Node) (st : list Node) : list Node :=
  (λ n, if bool_decide (Name n = name) then f n else n) <$> st.

(** [f] applied to the objects that satisfy [Q]. *)
Definition mapIf (Q : Node → bool) (f : Node → Node) (st : list Node) : list Node :=
  (λ n, if Q n then f n else n) <$> st.

(** [f] applied to the objects whose name is among those of [items]. *)
Definition applyAtAll (items : list Node) (f : Node → Node) (st : list Node) : list Node :=
  (λ n, if bool_decide (Name n ∈ Name <$> items) then f n else n) <$> st.

(** *** Selections of the phases *)

(** The nodes [checkBeforeReboot] releases: labelled, with all the
    configured annotations "true"; likewise for [checkAfterReboot]. *)
Definition preCheckDone (k : Kontroller) (n : Node) : bool :=
  labels_Matches beforeRebootReq (Labels n) && hasAllAnnotations n (beforeRebootAnnotations k).

Definition postCheckDone (k : Kontroller) (n : Node) : bool :=
  labels_Matches afterRebootReq (Labels n) && hasAllAnnotations n (afterRebootAnnotations k).

(** The modifier of [markBeforeReboot] and of [markAfterReboot]. *)
Definition markBefore_modifier (k : Kontroller) : Node → Node :=
  mark_modifier LabelBeforeReboot (beforeRebootAnnotations k).

Definition markAfter_modifier (k : Kontroller) : Node → Node :=
  mark_modifier LabelAfterReboot (afterRebootAnnotations k).

(** The store after the first four phases of a pass, when the names are
    distinct: each phase is a map over the nodes. *)
Definition beforeAdmission (k : Kontroller) (st : list Node) : list Node :=
  mapIf (preCheckDone k) (checkBeforeReboot_modifier k)
    (mapIf isJustRebooted (markAfter_modifier k)
       (mapIf (postCheckDone k) (checkAfterReboot_modifier k)
          (cleanupState_modifier k <$> st))).

(** The nodes [rebootableNodes] picks when it does not panic. *)
Definition chosenNodes (st : list Node) : list Node :=
  take (Z.to_nat (remainingRebootingCapacity st)) (nodesRequiringReboot st).

(** *** Reachable stores *)

(** What an agent writes: reboot-needed and reboot-in-progress of a node. *)
Definition agentAnnotations : list string :=
  [AnnotationRebootNeeded; AnnotationRebootInProgress].

Definition setAnnotation (a value : string) (n : Node) : Node :=
  {| Name := Name n; Labels := Labels n; Annotations := <[a := value]> (Annotations n) |}.

(** One write of an agent, or one pass of the controller that went
    through, at any time. *)
Inductive step (k : Kontroller) : list Node → list Node → Prop :=
| step_agent (name a value : string) (st : list Node) :
    a ∈ agentAnnotations → step k st (applyAt name (setAnnotation a value) st)
| step_pass (now1 now2 : Time) (st st' : list Node) :
    process k now1 now2 st = (Ok tt, st') → step k st st'.

(** The stores that agents and controller can produce from [init]. *)
Definition reachable (k : Kontroller) (init st : list Node) : Prop := rtc (step k) init st.

(** *** Sane check lists *)

(** The four annotations of the protocol between agent and controller. *)
Definition protocolAnnotations : list string :=
  [AnnotationOkToReboot; AnnotationRebootNeeded; AnnotationRebootInProgress;
   AnnotationRebootPaused].

(** The configured checks are annotations of their own, and there is at
    least one before and one after the reboot. *)
Definition ownChecks (k : Kontroller) : Prop :=
  beforeRebootAnnotations k ≠ [] ∧ afterRebootAnnotations k ≠ []
  ∧ Forall (λ a, a ∉ protocolAnnotations)
      (beforeRebootAnnotations k ++ afterRebootAnnotations k).

(** A node on which the first four phases of a pass change nothing. *)
Definition settled (k : Kontroller) (n : Node) : Prop :=
  (is_Some (Labels n !! LabelBeforeReboot) →
     fields_Matches wantsRebootSelector (Annotations n) = true)
  ∧ postCheckDone k n = false
  ∧ isJustRebooted n = false
  ∧ preCheckDone k n = false.

(** What the first four phases do to one node. *)
Definition passNode (k : Kontroller) (n : Node) : Node :=
  let n1 := cleanupState_modifier k n in
  let n2 := if postCheckDone k n1 then checkAfterReboot_modifier k n1 else n1 in
  let n3 := if isJustRebooted n2 then markAfter_modifier k n2 else n2 in
  if preCheckDone k n3 then checkBeforeReboot_modifier k n3 else n3.

(** The field a term of a selector looks at. *)
Definition termField (t : fieldsTerm) : string :=
  match t with hasTerm field _ | notHasTerm field _ => field end.

(** Unfold the modifiers down to the labels and annotations they build. *)
Ltac simpl_node :=
  unfold markAfter_modifier, markBefore_modifier, mark_modifier,
    checkBeforeReboot_modifier, checkAfterReboot_modifier;
  cbn [Name Labels Annotations].

(** *** More vocabulary *)

(** The first [n] calls of [fn] from [s] all fail, with whatever error. *)
Fixpoint failsUpTo {S : Type} (fn : S → option error * S) (n : nat) (s : S) : bool :=
  match n with
  | O => true
  | Datatypes.S n' =>
      match fn s with
      | (Some _, s') => failsUpTo fn n' s'
      | (None, _) => false
      end
  end.

(** A retried function that fails [failures] times with an error of the
    server and then succeeds; the state counts the calls. *)
Definition flaky (failures : nat) (calls : nat) : option error * nat :=
  (if bool_decide (calls < failures)%nat
   then Some (StatusError StatusReasonUnknown "server timeout")
   else None,
   Datatypes.S calls).

(** [n'] is [n] but for the labels and annotations the operator owns: the
    two phase labels, reboot-ok and the configured checks. *)
Definition untouched (k : Kontroller) (n n' : Node) : Prop :=
  Name n' = Name n
  ∧ (∀ l, l ≠ LabelBeforeReboot → l ≠ LabelAfterReboot → Labels n' !! l = Labels n !! l)
  ∧ (∀ a, a ≠ AnnotationOkToReboot → a ∉ beforeRebootAnnotations k →
          a ∉ afterRebootAnnotations k → Annotations n' !! a = Annotations n !! a).

(** The node at position [i] wants to reboot and fewer than [capacity]
    nodes before it in the list do. *)
Definition selected (capacity : Z) (st : list Node) (i : nat) (n : Node) : bool :=
  isWantsReboot n
  && bool_decide (Z.of_nat (length (List.filter isWantsReboot (take i st))) < capacity).

(** No configured check is one of the four protocol annotations. *)
Definition checksApart (k : Kontroller) : Prop :=
  Forall (λ a, a ∉ protocolAnnotations)
    (beforeRebootAnnotations k ++ afterRebootAnnotations k).

(** *** Daemon sets *)

(** The daemon sets the operator takes for its own. *)
Definition isManaged (d : DaemonSet) : bool :=
  selectorFromSet_Matches managedByOperatorLabels (metaLabels (dsMeta d)).

Definition dsNames (world : list DaemonSet) : list string :=
  (λ d, metaName (dsMeta d)) <$> world.

(** The version annotation of a daemon set is a semantic version that is,
    or is not, older than the operator's. *)
Definition versionOlder (b : Build) (d : DaemonSet) (older : bool) : Prop :=
  ∃ value dsSemver,
    metaAnnotations (dsMeta d) !! AgentVersion = Some value
    ∧ semver_Parse b value = Some dsSemver
    ∧ semver_LT b dsSemver (version_Semver b) = older.

(** A build for the examples: versions are numbers, three strings parse. *)
Definition exampleBuild : Build :=
  {| semver_Version := nat;
     semver_Parse := λ value,
       if bool_decide (value = "0.7.0") then Some 7%nat
       else if bool_decide (value = "0.8.0") then Some 8%nat
       else if bool_decide (value = "0.9.0") then Some 9%nat
       else None;
     semver_LT := Nat.ltb;
     version_Version := "0.8.0";
     version_Semver := 8%nat |}.

(** A daemon set with a name, labels and annotations, and nothing else. *)
Definition mkDaemonSet (name : string) (labels annotations : list (string * string))
  : DaemonSet :=
  {| dsMeta := {| metaName := name; metaLabels := list_to_map labels;
                  metaAnnotations := list_to_map annotations |};
     dsSelector := ∅;
     dsTemplate := {| templateMeta := {| metaName := ""; metaLabels := ∅;
                                         metaAnnotations := ∅ |};
                      templateSpec := {| podTolerations := []; podContainers := [];
                                         podVolumes := [] |} |} |}.

(** The ways [runDaemonsetUpdate] can go. *)
Inductive updateCase (b : Build) (repo : string) (world : list DaemonSet)
  : option agentError → list DaemonSet → Prop :=
| update_created :
    List.filter isManaged world = [] →
    metaName (dsMeta (agentDaemonsetSpec b repo)) ∉ dsNames world →
    updateCase b repo world None (world ++ [agentDaemonsetSpec b repo])%list
| update_kept d :
    List.filter isManaged world = [d] → versionOlder b d false →
    updateCase b repo world None world
| update_replaced d :
    List.filter isManaged world = [d] → versionOlder b d true →
    updateCase b repo world None
      (List.filter (λ x, negb (bool_decide (metaName (dsMeta x) = metaName (dsMeta d))))
         world ++ [agentDaemonsetSpec b repo])%list
| update_deleted_only d err :
    List.filter isManaged world = [d] → versionOlder b d true →
    updateCase b repo world (Some err)
      (List.filter (λ x, negb (bool_decide (metaName (dsMeta x) = metaName (dsMeta d))))
         world)
| update_refused err :
    updateCase b repo world (Some err) world.
(** * Properties *)

(** ** The conflict retry *)

Section RetryFacts.
Context {S : Type}.
Implicit Types (fn : S → option error * S) (s : S).

Lemma stateAfter_succ fn n s :
  stateAfter fn (Datatypes.S n) s = snd (fn (stateAfter fn n s)).
Proof.
  revert s. induction n as [|n IH]; intros s; [reflexivity|].
  change (stateAfter fn (Datatypes.S (Datatypes.S n)) s)
    with (stateAfter fn (Datatypes.S n) (snd (fn s))).
  rewrite IH. reflexivity.
Qed.

(** [n] conflicting calls use up [n] steps and leave the loop where it
    would have started with the state and the remembered error of that
    moment. *)
Lemma ExponentialBackoff_loop_conflicts fn n : ∀ steps s before,
  conflictsUpTo fn n s = true →
  ExponentialBackoff_loop (n + steps) (retryCondition fn) (s, before)
  = ExponentialBackoff_loop steps (retryCondition fn)
      (stateAfter fn n s, lastConflict fn n s before).
Proof.
  induction n as [|n IH]; intros steps s before Hc; [reflexivity|].
  cbn [conflictsUpTo] in Hc.
  cbn [Nat.add ExponentialBackoff_loop retryCondition].
  destruct (fn s) as [[e|] s'] eqn:Hfn; [|discriminate].
  apply andb_true_iff in Hc as [Hconf Hc]. rewrite Hconf, IH by exact Hc.
  cbn [stateAfter]. rewrite Hfn. cbn [snd]. f_equal. f_equal.
  destruct n as [|n']; cbn [lastConflict]; unfold attempt; cbn [stateAfter];
    rewrite Hfn; reflexivity.
Qed.

(** What [RetryOnConflict] returns after [n] conflicts when a step is left
    for call [n] and that call is of another kind. *)
Lemma RetryOnConflict_after_conflicts (backoff : Backoff) fn n s :
  (n < Z.to_nat (Steps backoff))%nat →
  conflictsUpTo fn n s = true →
  match attempt fn n s with
  | None => RetryOnConflict backoff fn s = (None, stateAfter fn (Datatypes.S n) s)
  | Some e =>
      IsConflict e = false →
      RetryOnConflict backoff fn s
      = (if decide (e = ErrWaitTimeout) then lastConflict fn n s None else Some e,
         stateAfter fn (Datatypes.S n) s)
  end.
Proof.
  intros Hn Hc. unfold RetryOnConflict, ExponentialBackoff.
  replace (Z.to_nat (Steps backoff))
    with (n + Datatypes.S (Z.to_nat (Steps backoff) - Datatypes.S n))%nat by lia.
  rewrite ExponentialBackoff_loop_conflicts by exact Hc.
  cbn [ExponentialBackoff_loop retryCondition].
  rewrite stateAfter_succ. unfold attempt.
  destruct (fn (stateAfter fn n s)) as [[e|] s'] eqn:Hfn; cbn [fst snd].
  - intros ->. destruct (decide (e = ErrWaitTimeout)) as [->|Hne].
    + rewrite decide_True by reflexivity. reflexivity.
    + rewrite decide_False by congruence. reflexivity.
  - rewrite decide_False by discriminate. reflexivity.
Qed.

(** When every step ends in a conflict the last conflict comes back. *)
Lemma RetryOnConflict_exhausted (backoff : Backoff) fn s :
  conflictsUpTo fn (Z.to_nat (Steps backoff)) s = true →
  RetryOnConflict backoff fn s
  = (lastConflict fn (Z.to_nat (Steps backoff)) s None,
     stateAfter fn (Z.to_nat (Steps backoff)) s).
Proof.
  intros Hc. unfold RetryOnConflict, ExponentialBackoff.
  replace (Z.to_nat (Steps backoff)) with (Z.to_nat (Steps backoff) + 0)%nat at 1 by lia.
  rewrite ExponentialBackoff_loop_conflicts by exact Hc.
  cbn [ExponentialBackoff_loop]. rewrite decide_True by reflexivity. reflexivity.
Qed.

(** After [n] conflicts, [n > 0], the remembered error is a conflict. *)
Lemma lastConflict_IsConflict fn n s :
  conflictsUpTo fn (Datatypes.S n) s = true →
  ∃ e, attempt fn n s = Some e ∧ IsConflict e = true.
Proof.
  revert s. induction n as [|n IH]; intros s Hc.
  - cbn [conflictsUpTo] in Hc. unfold attempt. cbn [stateAfter].
    destruct (fn s) as [[e|] s']; [|discriminate].
    apply andb_true_iff in Hc as [Hconf _]. eauto.
  - cbn [conflictsUpTo] in Hc. destruct (fn s) as [[e|] s'] eqn:Hfn; [|discriminate].
    apply andb_true_iff in Hc as [_ Hc]. apply IH in Hc.
    unfold attempt in *. cbn [stateAfter]. rewrite Hfn. exact Hc.
Qed.
End RetryFacts.

(** *** The node mutator *)

(** An attempt of the mutator fails with a status error of the server or
    with the wrapped error of its read, never with the sentinel of the wait
    package. *)
Lemma updateNodeOnce_error (name : string) (f : Node → Node) (srv : Server) (e : error) :
  fst (updateNodeOnce name f srv) = Some e →
  (∃ reason message, e = StatusError reason message)
  ∨ (∃ reason message, e = Errorf "getting node" (StatusError reason message)).
Proof.
  unfold updateNodeOnce, srv_Get, srv_Update.
  destruct (srv_answer srv) as [[reason|] srv1].
  - cbn. intros [= <-]. right. eauto.
  - unfold nc_Get. destruct (List.find _ (objects srv1)) as [n|].
    + destruct (srv_answer srv1) as [[reason|] srv2].
      * cbn. intros [= <-]. left. eauto.
      * unfold nc_Update. case_bool_decide; cbn; intros [= <-]. left. eauto.
    + cbn. intros [= <-]. right. eauto.
Qed.

Lemma updateNodeOnce_not_sentinel (name : string) (f : Node → Node) (srv : Server) :
  fst (updateNodeOnce name f srv) ≠ Some ErrWaitTimeout.
Proof.
  intros H. apply updateNodeOnce_error in H as [(r & m & H)|(r & m & H)]; discriminate H.
Qed.

(** Against a server that refuses nothing the mutator is the mutator of
    the plain store, which the phases of the reconciler use. *)
Lemma UpdateNodeRetry_on_quiet (name : string) (f : Node → Node) (st : list Node) :
  UpdateNodeRetry_on name f {| objects := st; refusals := [] |}
  = (fst (UpdateNodeRetry name f st),
     {| objects := snd (UpdateNodeRetry name f st); refusals := [] |}).
Proof.
  unfold UpdateNodeRetry_on, UpdateNodeRetry, RetryOnConflict, ExponentialBackoff.
  change (Z.to_nat (Steps DefaultRetry)) with 5%nat.
  cbn [ExponentialBackoff_loop retryCondition].
  unfold updateNodeOnce, srv_Get, srv_Update, srv_answer. cbn [refusals objects].
  unfold nc_Get. destruct (List.find _ st) as [n|]; [|reflexivity].
  unfold nc_Update. case_bool_decide; reflexivity.
Qed.

(** C9.  The retry loop of the node mutator, [RetryOnConflict] with
    [DefaultRetry] (5 steps, 10 ms, factor 1, jitter 10%) around one
    attempt (read, transform, update) against a server that may refuse any
    call.  It makes at most five attempts and goes on only after a
    conflict.  After [n] conflicts: an attempt that succeeds ends the loop
    without error after [n+1] attempts; an attempt that fails with an error
    that is no conflict ends it with that very error after [n+1] attempts;
    and when all five attempts end in a conflict, the fifth conflict comes
    back. *)
Theorem UpdateNodeRetry_retries (name : string) (f : Node → Node) (srv : Server) (n : nat) :
  conflictsUpTo (updateNodeOnce name f) n srv = true →
  (Steps DefaultRetry = 5 ∧ Duration DefaultRetry = 10 * Millisecond
   ∧ Factor DefaultRetry = 1%Q ∧ Jitter DefaultRetry = (1 # 10)%Q)
  ∧ ((n < 5)%nat → attempt (updateNodeOnce name f) n srv = None →
     UpdateNodeRetry_on name f srv = (None, stateAfter (updateNodeOnce name f) (n + 1) srv))
  ∧ ((n < 5)%nat → ∀ e, attempt (updateNodeOnce name f) n srv = Some e →
     IsConflict e = false →
     UpdateNodeRetry_on name f srv
     = (Some e, stateAfter (updateNodeOnce name f) (n + 1) srv))
  ∧ (n = 5%nat →
     ∃ e, IsConflict e = true ∧ attempt (updateNodeOnce name f) 4 srv = Some e
          ∧ UpdateNodeRetry_on name f srv
            = (Some e, stateAfter (updateNodeOnce name f) 5 srv)).
Proof.
  intros Hc. unfold UpdateNodeRetry_on. set (fn := updateNodeOnce name f) in *.
  split; [repeat split|]. split; [|split].
  - intros Hn Ha.
    pose proof (RetryOnConflict_after_conflicts DefaultRetry fn n srv) as H.
    rewrite Ha in H. rewrite Nat.add_1_r. apply H; [cbn; lia | exact Hc].
  - intros Hn e Ha Hconf.
    pose proof (RetryOnConflict_after_conflicts DefaultRetry fn n srv) as H.
    rewrite Ha in H. rewrite Nat.add_1_r, H; [|cbn; lia|exact Hc|exact Hconf].
    rewrite decide_False; [reflexivity|]. intros ->.
    apply (updateNodeOnce_not_sentinel name f (stateAfter fn n srv)). exact Ha.
  - intros ->. destruct (lastConflict_IsConflict fn 4 srv Hc) as (e & He & Hconf).
    exists e. split; [exact Hconf|]. split; [exact He|].
    rewrite (RetryOnConflict_exhausted DefaultRetry fn srv Hc).
    change (Z.to_nat (Steps DefaultRetry)) with 5%nat. cbn [lastConflict].
    rewrite He. reflexivity.
Qed.

(** C9 at work, on a server with the node a, for the transformation that
    grants reboot-ok.  Three updates are refused with a conflict and the
    fourth attempt goes through: no error, the transformation applied
    once.  One conflict and then a read the server fails: that error at
    once, nothing changed.  Five conflicts: the conflict of the fifth
    attempt, nothing changed, and the sixth attempt is not made. *)
Lemma UpdateNodeRetry_retries_witness :
  let a := mkNode "a" [] [(AnnotationRebootNeeded, True_)] in
  let f := setAnnotation AnnotationOkToReboot True_ in
  let conflict := Some StatusReasonConflict in
  let thrice := {| objects := [a];
                   refusals := [None; conflict; None; conflict; None; conflict] |} in
  let failing := {| objects := [a];
                    refusals := [None; conflict; Some StatusReasonUnknown] |} in
  let busy := {| objects := [a];
                 refusals := [None; conflict; None; conflict; None; conflict;
                              None; conflict; None; conflict; None; None] |} in
  (conflictsUpTo (updateNodeOnce "a" f) 3 thrice = true
   ∧ UpdateNodeRetry_on "a" f thrice = (None, {| objects := [f a]; refusals := [] |}))
  ∧ (conflictsUpTo (updateNodeOnce "a" f) 1 failing = true
     ∧ UpdateNodeRetry_on "a" f failing
       = (Some (Errorf "getting node" (StatusError StatusReasonUnknown "a")),
          {| objects := [a]; refusals := [] |}))
  ∧ (conflictsUpTo (updateNodeOnce "a" f) 5 busy = true
     ∧ UpdateNodeRetry_on "a" f busy
       = (Some (StatusError StatusReasonConflict "a"),
          {| objects := [a]; refusals := [None; None] |})).
Proof.
  intros a f conflict thrice failing busy.
  assert (H3 : conflictsUpTo (updateNodeOnce "a" f) 3 thrice = true)
    by (vm_compute; reflexivity).
  assert (H1 : conflictsUpTo (updateNodeOnce "a" f) 1 failing = true)
    by (vm_compute; reflexivity).
  assert (H5 : conflictsUpTo (updateNodeOnce "a" f) 5 busy = true)
    by (vm_compute; reflexivity).
  split; [split; [exact H3|]|split; [split; [exact H1|]|split; [exact H5|]]].
  - rewrite (proj1 (proj2 (UpdateNodeRetry_retries "a" f thrice 3 H3)));
      [vm_compute; reflexivity | lia | vm_compute; reflexivity].
  - rewrite (proj1 (proj2 (proj2 (UpdateNodeRetry_retries "a" f failing 1 H1)))
               ltac:(lia) (Errorf "getting node" (StatusError StatusReasonUnknown "a")));
      [vm_compute; reflexivity | vm_compute; reflexivity | reflexivity].
  - destruct (proj2 (proj2 (proj2 (UpdateNodeRetry_retries "a" f busy 5 H5))) eq_refl)
      as (e & _ & He & ->).
    assert (e = StatusError StatusReasonConflict "a") as ->
      by (vm_compute in He; congruence).
    vm_compute. reflexivity.
Defined.

(** ** The admission policy *)

Lemma insideRebootWindow_unconfigured k now1 now2 :
  rebootWindow k = None → insideRebootWindow k now1 now2 = true.
Proof. unfold insideRebootWindow. intros ->. reflexivity. Qed.

Lemma insideRebootWindow_configured k rw now1 now2 :
  rebootWindow k = Some rw →
  insideRebootWindow k now1 now2 = bool_decide (End_ (Previous rw now1) ≤ now2).
Proof.
  unfold insideRebootWindow, Time_After. intros ->. cbn.
  destruct (Z.ltb_spec now2 (End_ (Previous rw now1))).
  - rewrite bool_decide_eq_false_2 by lia. reflexivity.
  - rewrite bool_decide_eq_true_2 by lia. reflexivity.
Qed.

(** C1.  Without a window [insideRebootWindow] is true.  With a window it
    is the negation of what its name says: true exactly when the end of the
    previous occurrence is not after now.  For the daily window
    01:00-02:00 it answers false at 01:30 and true at 05:00. *)
Theorem insideRebootWindow_inverted (before after : list string) (rw : Periodic) (now : Time) :
  insideRebootWindow {| beforeRebootAnnotations := before; afterRebootAnnotations := after;
                        rebootWindow := None |} now now = true
  ∧ insideRebootWindow {| beforeRebootAnnotations := before; afterRebootAnnotations := after;
                          rebootWindow := Some rw |} now now
    = negb (bool_decide (now < End_ (Previous rw now)))
  ∧ Previous (dailyWindow 3600 3600) 5400 = {| Start := 3600; End_ := 7200 |}
  ∧ insideRebootWindow {| beforeRebootAnnotations := before; afterRebootAnnotations := after;
                          rebootWindow := Some (dailyWindow 3600 3600) |} 5400 5400 = false
  ∧ Previous (dailyWindow 3600 3600) 18000 = {| Start := 3600; End_ := 7200 |}
  ∧ insideRebootWindow {| beforeRebootAnnotations := before; afterRebootAnnotations := after;
                          rebootWindow := Some (dailyWindow 3600 3600) |} 18000 18000 = true.
Proof.
  split; [reflexivity|]. split; [|repeat split].
  rewrite (insideRebootWindow_configured _ rw) by reflexivity.
  destruct (decide (now < End_ (Previous rw now))).
  - rewrite bool_decide_eq_false_2 by lia. rewrite bool_decide_eq_true_2 by lia. reflexivity.
  - rewrite bool_decide_eq_true_2 by lia. rewrite bool_decide_eq_false_2 by lia. reflexivity.
Qed.

Lemma sum_multiplicity_cons n nodes :
  sum_list (multiplicity <$> n :: nodes)
  = (multiplicity n + sum_list (multiplicity <$> nodes))%nat.
Proof. reflexivity. Qed.

Lemma length_rebootingNodes nodes :
  length (rebootingNodes nodes) = sum_list (multiplicity <$> nodes).
Proof.
  unfold rebootingNodes, FilterNodesByAnnotation, FilterNodesByRequirement.
  rewrite !length_app.
  induction nodes as [|n nodes IH]; [reflexivity|].
  rewrite sum_multiplicity_cons, <- IH. cbn [List.filter].
  unfold multiplicity, isStillRebooting, hasPreLabel, hasPostLabel.
  destruct (fields_Matches _ _), (labels_Matches beforeRebootReq _),
    (labels_Matches afterRebootReq _); cbn [length]; lia.
Qed.

Lemma isInFlight_multiplicity n : isInFlight n = bool_decide (1 ≤ multiplicity n)%nat.
Proof.
  unfold isInFlight, multiplicity.
  destruct (isStillRebooting n), (hasPreLabel n), (hasPostLabel n); reflexivity.
Qed.

Lemma length_inFlight_le nodes :
  (length (inFlight nodes) ≤ sum_list (multiplicity <$> nodes))%nat.
Proof.
  unfold inFlight. induction nodes as [|n nodes IH]; [reflexivity|].
  rewrite sum_multiplicity_cons. cbn [List.filter]. rewrite isInFlight_multiplicity.
  case_bool_decide; cbn [length]; lia.
Qed.

Lemma length_inFlight_eq nodes :
  length (inFlight nodes) = sum_list (multiplicity <$> nodes)
  ↔ Forall (λ n, (multiplicity n ≤ 1)%nat) nodes.
Proof.
  unfold inFlight. induction nodes as [|n nodes IH]; [split; [constructor|reflexivity]|].
  rewrite sum_multiplicity_cons. cbn [List.filter]. rewrite isInFlight_multiplicity.
  rewrite Forall_cons. pose proof (length_inFlight_le nodes) as Hle.
  unfold inFlight in Hle.
  case_bool_decide as Hn; cbn [length]; split.
  - intros Hlen. split; [lia|]. apply IH. lia.
  - intros [H1 H2]. apply IH in H2. lia.
  - intros Hlen. split; [lia|]. apply IH. lia.
  - intros [H1 H2]. apply IH in H2. lia.
Qed.

(** What [remainingRebootingCapacity] computes, against the nodes in
    flight: every node counts once for each of the three sets it is in. *)
Lemma remainingRebootingCapacity_counts (nodes : list Node) :
  remainingRebootingCapacity nodes
  = maxRebootingNodes - Z.of_nat (sum_list (multiplicity <$> nodes))
  ∧ remainingRebootingCapacity nodes ≤ maxRebootingNodes - Z.of_nat (length (inFlight nodes))
  ∧ (remainingRebootingCapacity nodes = maxRebootingNodes - Z.of_nat (length (inFlight nodes))
     ↔ Forall (λ n, (multiplicity n ≤ 1)%nat) nodes)
  ∧ (remainingRebootingCapacity nodes
     = Z.max 0 (maxRebootingNodes - Z.of_nat (length (inFlight nodes)))
     ↔ Forall (λ n, (multiplicity n ≤ 1)%nat) nodes
       ∧ Z.of_nat (length (inFlight nodes)) ≤ maxRebootingNodes).
Proof.
  unfold remainingRebootingCapacity. rewrite length_rebootingNodes.
  pose proof (length_inFlight_le nodes). pose proof (length_inFlight_eq nodes) as Heq.
  split; [reflexivity|]. split; [lia|].
  rewrite <- Heq. split; lia.
Qed.

Lemma step_agent_to (k : Kontroller) (name a value : string) (st st' : list Node) :
  a ∈ agentAnnotations → st' = applyAt name (setAnnotation a value) st → step k st st'.
Proof. intros Ha ->. apply step_agent, Ha. Qed.

(** C2.  [remainingRebootingCapacity] does not give the number of nodes
    that can still be rebooted, the maximum of 0 and [maxRebootingNodes]
    minus the number of distinct nodes in flight.  It gives that number
    exactly when no node is in two of the three sets and no more than
    [maxRebootingNodes] nodes are in flight.  One node, post-checks
    configured: the node reboots and is labelled after-reboot=true, and
    while the post-check is pending its agent finds the next update.  The
    node is still rebooting by its annotations and in post-check by its
    label; the concatenated list holds it twice, the capacity is -1 where 0
    nodes can be rebooted, and the caller [rebootableNodes], and with it the
    pass, panics in [make]. *)
Theorem remainingRebootingCapacity_double_count :
  let k := {| beforeRebootAnnotations := []; afterRebootAnnotations := ["healthy"];
              rebootWindow := None |} in
  let a := registered "a" [(LabelAfterReboot, True_)]
             [(AnnotationOkToReboot, True_); (AnnotationRebootNeeded, True_);
              (AnnotationRebootInProgress, False_)] in
  reachable k [registered "a" [] []] [a]
  ∧ inFlight [a] = [a]
  ∧ rebootingNodes [a] = [a; a]
  ∧ remainingRebootingCapacity [a] = -1
  ∧ Z.max 0 (maxRebootingNodes - Z.of_nat (length (inFlight [a]))) = 0
  ∧ rebootableNodes [a] = Panic "makeslice: cap out of range"
  ∧ process k 0 0 [a] = (Panic "makeslice: cap out of range", [a])
  ∧ (∀ nodes, remainingRebootingCapacity nodes
              = Z.max 0 (maxRebootingNodes - Z.of_nat (length (inFlight nodes)))
              ↔ Forall (λ n, (multiplicity n ≤ 1)%nat) nodes
                ∧ Z.of_nat (length (inFlight nodes)) ≤ maxRebootingNodes).
Proof.
  intros k a. split.
  { unfold reachable.
    eapply rtc_l; [apply (step_agent k "a" AnnotationRebootNeeded True_); left|].
    eapply rtc_l.
    { apply (step_pass k 0 0 _
               [registered "a" [(LabelBeforeReboot, True_)] [(AnnotationRebootNeeded, True_)]]).
      vm_compute. reflexivity. }
    eapply rtc_l.
    { apply (step_pass k 30 30 _
               [registered "a" [] [(AnnotationOkToReboot, True_);
                               (AnnotationRebootNeeded, True_)]]).
      vm_compute. reflexivity. }
    eapply rtc_l; [apply (step_agent k "a" AnnotationRebootNeeded False_); left|].
    eapply rtc_l; [apply (step_agent k "a" AnnotationRebootInProgress False_); right; left|].
    eapply rtc_l.
    { apply (step_pass k 60 60 _
               [registered "a" [(LabelAfterReboot, True_)]
                  [(AnnotationOkToReboot, True_); (AnnotationRebootNeeded, False_);
                   (AnnotationRebootInProgress, False_)]]).
      vm_compute. reflexivity. }
    eapply rtc_l; [|apply rtc_refl].
    apply (step_agent_to k "a" AnnotationRebootNeeded True_); [left|].
    vm_compute. reflexivity. }
  repeat (split; [vm_compute; reflexivity|]).
  intros nodes. apply remainingRebootingCapacity_counts.
Qed.


(** ** The store and the node mutator *)

Implicit Types (st nodes items : list Node) (n m : Node) (f g : Node → Node).
Implicit Types (name label context : string) (k : Kontroller).

Lemma elem_of_filter_bool (Q : Node → bool) (l : list Node) (n : Node) :
  n ∈ List.filter Q l ↔ n ∈ l ∧ Q n = true.
Proof. rewrite !list_elem_of_In. apply filter_In. Qed.

Lemma distinctNames_inj st n m :
  distinctNames st → n ∈ st → m ∈ st → Name n = Name m → n = m.
Proof.
  unfold distinctNames. induction st as [|x st IH]; intros Hnd Hn Hm Heq.
  - inversion Hn.
  - rewrite fmap_cons in Hnd. apply NoDup_cons in Hnd as [Hx Hnd].
    apply elem_of_cons in Hn as [->|Hn]; apply elem_of_cons in Hm as [->|Hm].
    + reflexivity.
    + exfalso. apply Hx. rewrite Heq. apply list_elem_of_fmap. eauto.
    + exfalso. apply Hx. rewrite <- Heq. apply list_elem_of_fmap. eauto.
    + apply IH; assumption.
Qed.

Lemma distinctNames_filter (Q : Node → bool) st :
  distinctNames st → distinctNames (List.filter Q st).
Proof.
  unfold distinctNames. induction st as [|x st IH]; intros Hnd; [exact Hnd|].
  rewrite fmap_cons in Hnd. apply NoDup_cons in Hnd as [Hx Hnd]. cbn [List.filter].
  destruct (Q x); [|apply IH, Hnd].
  rewrite fmap_cons. apply NoDup_cons. split; [|apply IH, Hnd].
  intros Hin. apply Hx. apply list_elem_of_fmap in Hin as (y & -> & Hy).
  apply elem_of_filter_bool in Hy as [Hy _]. apply list_elem_of_fmap. eauto.
Qed.

Lemma distinctNames_take (i : nat) st : distinctNames st → distinctNames (take i st).
Proof.
  unfold distinctNames. rewrite fmap_take. intros Hnd.
  eapply sublist_NoDup; [|apply sublist_take]. exact Hnd.
Qed.

Lemma names_fmap (g : Node → Node) st :
  (∀ n, n ∈ st → Name (g n) = Name n) → Name <$> (g <$> st) = Name <$> st.
Proof.
  intros Hg. rewrite <- list_fmap_compose. apply list_fmap_ext.
  intros i n Hn. apply Hg. eapply list_elem_of_lookup_2, Hn.
Qed.

Lemma names_applyAt name f st :
  preservesName f → Name <$> applyAt name f st = Name <$> st.
Proof. intros Hf. apply names_fmap. intros n _. case_bool_decide; [apply Hf|reflexivity]. Qed.

Lemma names_mapIf Q f st : preservesName f → Name <$> mapIf Q f st = Name <$> st.
Proof. intros Hf. apply names_fmap. intros n _. destruct (Q n); [apply Hf|reflexivity]. Qed.

Lemma names_applyAtAll items f st :
  preservesName f → Name <$> applyAtAll items f st = Name <$> st.
Proof. intros Hf. apply names_fmap. intros n _. case_bool_decide; [apply Hf|reflexivity]. Qed.

Lemma nc_Get_found st name :
  name ∈ Name <$> st → ∃ n, nc_Get name st = inr n ∧ n ∈ st ∧ Name n = name.
Proof.
  intros Hin. apply list_elem_of_fmap in Hin as (m & -> & Hm). unfold nc_Get.
  destruct (List.find _ st) as [n|] eqn:Hfind.
  - apply find_some in Hfind as [Hn Heq]. apply bool_decide_eq_true_1 in Heq.
    exists n. rewrite list_elem_of_In. auto.
  - exfalso. apply list_elem_of_In in Hm.
    pose proof (find_none _ _ Hfind _ Hm) as Hnone. cbn in Hnone.
    rewrite bool_decide_eq_true_2 in Hnone by reflexivity. discriminate.
Qed.

(** On a store with distinct names the mutator succeeds at the first
    attempt and its effect is the modifier applied to the named object. *)
Lemma UpdateNodeRetry_ok st name f :
  distinctNames st → name ∈ Name <$> st → preservesName f →
  UpdateNodeRetry name f st = (None, applyAt name f st).
Proof.
  intros Hnd Hin Hf. destruct (nc_Get_found st name Hin) as (n & Hget & Hn & Hname).
  unfold UpdateNodeRetry, RetryOnConflict, ExponentialBackoff.
  change (Z.to_nat (Steps DefaultRetry)) with 5%nat.
  cbn [ExponentialBackoff_loop retryCondition]. rewrite Hget. unfold nc_Update.
  rewrite Hf, Hname, bool_decide_eq_true_2 by exact Hin.
  rewrite decide_False by discriminate. f_equal.
  unfold applyAt. apply list_fmap_ext. intros i m Hm.
  case_bool_decide as Heq; [|reflexivity]. f_equal.
  apply (distinctNames_inj st); [exact Hnd|exact Hn| |congruence].
  eapply list_elem_of_lookup_2, Hm.
Qed.

Lemma UpdateNodeRetry_missing st name f :
  name ∉ Name <$> st →
  UpdateNodeRetry name f st
  = (Some (Errorf "getting node" (StatusError StatusReasonNotFound name)), st).
Proof.
  intros Hin. unfold UpdateNodeRetry, RetryOnConflict, ExponentialBackoff.
  change (Z.to_nat (Steps DefaultRetry)) with 5%nat.
  cbn [ExponentialBackoff_loop retryCondition]. unfold nc_Get.
  destruct (List.find _ st) as [n|] eqn:Hfind.
  - exfalso. apply find_some in Hfind as [Hn Heq]. apply bool_decide_eq_true_1 in Heq.
    apply Hin. apply list_elem_of_fmap. exists n. rewrite list_elem_of_In. auto.
  - cbn. reflexivity.
Qed.

(** A loop of updates, one per item, on a store that holds every item's
    name: all updates succeed, each applies the modifier to its object. *)
Lemma forEach_updates (items : list Node) (f : Node → Node) (body : Node → M unit) :
  preservesName f →
  (∀ x st, distinctNames st → Name x ∈ Name <$> st →
           body x st = (Ok tt, applyAt (Name x) f st)) →
  ∀ st, distinctNames st → (∀ x, x ∈ items → Name x ∈ Name <$> st) →
  forEach items body st = (Ok tt, foldl (λ s x, applyAt (Name x) f s) st items).
Proof.
  intros Hf Hbody. induction items as [|x items IH]; intros st Hnd Hin; [reflexivity|].
  cbn [forEach foldl]. unfold bind.
  rewrite Hbody by (auto; apply Hin; left).
  apply IH.
  - unfold distinctNames. rewrite names_applyAt by exact Hf. exact Hnd.
  - intros y Hy. rewrite names_applyAt by exact Hf. apply Hin. right. exact Hy.
Qed.

Lemma foldl_applyAt (items : list Node) (f : Node → Node) :
  preservesName f → distinctNames items →
  ∀ st, foldl (λ s x, applyAt (Name x) f s) st items = applyAtAll items f st.
Proof.
  intros Hf. induction items as [|x items IH]; intros Hnd st.
  - cbn. unfold applyAtAll. rewrite <- (list_fmap_id st) at 1.
    apply list_fmap_ext. intros i n _. rewrite bool_decide_eq_false_2; [reflexivity|].
    cbn. apply not_elem_of_nil.
  - unfold distinctNames in Hnd. rewrite fmap_cons in Hnd.
    apply NoDup_cons in Hnd as [Hx Hnd]. cbn [foldl]. rewrite IH by exact Hnd.
    unfold applyAtAll, applyAt. rewrite <- list_fmap_compose.
    apply list_fmap_ext. intros i n _. unfold compose. rewrite fmap_cons.
    destruct (decide (Name n = Name x)) as [Heq|Hne].
    + rewrite (bool_decide_eq_true_2 (Name n = Name x)) by exact Heq.
      rewrite Hf, Heq. rewrite bool_decide_eq_false_2 by exact Hx.
      rewrite bool_decide_eq_true_2 by left. reflexivity.
    + rewrite (bool_decide_eq_false_2 (Name n = Name x)) by exact Hne.
      destruct (decide (Name n ∈ Name <$> items)) as [Hi|Hi].
      * rewrite !bool_decide_eq_true_2; [reflexivity|right; exact Hi|exact Hi].
      * rewrite !bool_decide_eq_false_2; [reflexivity| |exact Hi].
        intros [?|?]%elem_of_cons; contradiction.
Qed.

(** When the items are the objects of the store that satisfy [Q]. *)
Lemma applyAtAll_filter (Q : Node → bool) f st :
  distinctNames st → applyAtAll (List.filter Q st) f st = mapIf Q f st.
Proof.
  intros Hnd. unfold applyAtAll, mapIf. apply list_fmap_ext. intros i n Hn.
  apply list_elem_of_lookup_2 in Hn.
  destruct (Q n) eqn:HQ.
  - rewrite bool_decide_eq_true_2; [reflexivity|].
    apply list_elem_of_fmap. exists n. split; [reflexivity|].
    apply elem_of_filter_bool. auto.
  - rewrite bool_decide_eq_false_2; [reflexivity|].
    intros (m & Heq & Hm)%list_elem_of_fmap. apply elem_of_filter_bool in Hm as [Hm HQm].
    assert (n = m) by (apply (distinctNames_inj st); assumption). congruence.
Qed.

Lemma forEach_filter_updates (Q : Node → bool) f (body : Node → M unit) st :
  preservesName f →
  (∀ x st, distinctNames st → Name x ∈ Name <$> st →
           body x st = (Ok tt, applyAt (Name x) f st)) →
  distinctNames st →
  forEach (List.filter Q st) body st = (Ok tt, mapIf Q f st).
Proof.
  intros Hf Hbody Hnd. rewrite (forEach_updates _ f) by
    (try assumption; intros x [Hx _]%elem_of_filter_bool;
     apply list_elem_of_fmap; eauto).
  rewrite foldl_applyAt by (try assumption; apply distinctNames_filter, Hnd).
  rewrite applyAtAll_filter by exact Hnd. reflexivity.
Qed.

(** A test inside the loop body is a filter on the items. *)
Lemma forEach_if {A} (c : A → bool) (body : A → M unit) (items : list A) st :
  forEach items (λ x, if c x then body x else ret tt) st
  = forEach (List.filter c items) body st.
Proof.
  revert st. induction items as [|x items IH]; intros st; [reflexivity|].
  cbn [forEach List.filter]. destruct (c x).
  - cbn [forEach]. unfold bind. destruct (body x st) as [[[]| |] st']; auto.
  - unfold bind, ret. apply IH.
Qed.

Lemma filter_filter_bool {A} (P Q : A → bool) (l : list A) :
  List.filter Q (List.filter P l) = List.filter (λ x, P x && Q x) l.
Proof.
  induction l as [|x l IH]; [reflexivity|]. cbn [List.filter].
  destruct (P x); cbn [List.filter andb]; [destruct (Q x)|]; rewrite IH; reflexivity.
Qed.

Lemma orErrorf_UpdateNodeRetry context name f st :
  distinctNames st → name ∈ Name <$> st → preservesName f →
  orErrorf context (UpdateNodeRetry name f) st = (Ok tt, applyAt name f st).
Proof. intros. unfold orErrorf. rewrite UpdateNodeRetry_ok by assumption. reflexivity. Qed.

Lemma mark_ok context name label annotations st :
  distinctNames st → name ∈ Name <$> st →
  wrapErr context (mark name label annotations) st
  = (Ok tt, applyAt name (mark_modifier label annotations) st).
Proof.
  intros. unfold wrapErr, mark. rewrite orErrorf_UpdateNodeRetry; [reflexivity|assumption..|].
  intros n. reflexivity.
Qed.

(** ** Maps, selectors and modifiers *)

Lemma lookup_deleteAll (annotations : list string) (m : gmap string string) (a : string) :
  deleteAll annotations m !! a = if bool_decide (a ∈ annotations) then None else m !! a.
Proof.
  unfold deleteAll. revert m. induction annotations as [|b l IH]; intros m.
  - cbn [foldl]. rewrite bool_decide_eq_false_2 by apply not_elem_of_nil. reflexivity.
  - cbn [foldl]. rewrite IH. destruct (decide (a = b)) as [->|Hne].
    + rewrite (bool_decide_eq_true_2 (b ∈ b :: l)) by left.
      rewrite lookup_delete_eq. destruct (bool_decide (b ∈ l)); reflexivity.
    + rewrite lookup_delete_ne by congruence.
      destruct (decide (a ∈ l)) as [Hi|Hi].
      * rewrite !bool_decide_eq_true_2; [reflexivity|right; exact Hi|exact Hi].
      * rewrite !bool_decide_eq_false_2; [reflexivity| |exact Hi].
        intros [?|?]%elem_of_cons; contradiction.
Qed.

Lemma lookup_deleteAll_in annotations (m : gmap string string) a :
  a ∈ annotations → deleteAll annotations m !! a = None.
Proof. intros H. rewrite lookup_deleteAll, bool_decide_eq_true_2 by exact H. reflexivity. Qed.

Lemma lookup_deleteAll_notin annotations (m : gmap string string) a :
  a ∉ annotations → deleteAll annotations m !! a = m !! a.
Proof. intros H. rewrite lookup_deleteAll, bool_decide_eq_false_2 by exact H. reflexivity. Qed.

(** A field equals "true" (or "false") only when the annotation is there. *)
Lemma fields_Get_eq (ls : gmap string string) (field value : string) :
  value ≠ "" → (fields_Get ls field = value ↔ ls !! field = Some value).
Proof.
  intros Hv. unfold fields_Get. destruct (ls !! field) as [v|]; cbn; split;
    intros H; congruence.
Qed.

Lemma hasTerm_Matches (ls : gmap string string) field value :
  value ≠ "" →
  fieldsTerm_Matches ls (hasTerm field value) = bool_decide (ls !! field = Some value).
Proof.
  intros Hv. cbn. apply bool_decide_ext. apply fields_Get_eq, Hv.
Qed.

Lemma notHasTerm_Matches (ls : gmap string string) field value :
  value ≠ "" →
  fieldsTerm_Matches ls (notHasTerm field value) = bool_decide (ls !! field ≠ Some value).
Proof.
  intros Hv. cbn. apply bool_decide_ext. rewrite fields_Get_eq by exact Hv. reflexivity.
Qed.

(** The wants-reboot selector, spelled out on the annotations. *)
Lemma wantsRebootSelector_Matches (ls : gmap string string) :
  fields_Matches wantsRebootSelector ls = true
  ↔ ls !! AnnotationRebootNeeded = Some True_
    ∧ ls !! AnnotationRebootPaused ≠ Some True_
    ∧ ls !! AnnotationOkToReboot ≠ Some True_
    ∧ ls !! AnnotationRebootInProgress ≠ Some True_.
Proof.
  unfold fields_Matches, wantsRebootSelector. cbn [forallb].
  rewrite hasTerm_Matches, !notHasTerm_Matches by discriminate.
  rewrite !andb_true_iff, !bool_decide_eq_true. tauto.
Qed.

Lemma stillRebootingSelector_Matches (ls : gmap string string) :
  fields_Matches stillRebootingSelector ls = true
  ↔ ls !! AnnotationOkToReboot = Some True_ ∧ ls !! AnnotationRebootNeeded = Some True_.
Proof.
  unfold fields_Matches, stillRebootingSelector. cbn [forallb].
  rewrite !hasTerm_Matches by discriminate.
  rewrite !andb_true_iff, !bool_decide_eq_true. tauto.
Qed.

Lemma justRebootedSelector_Matches (ls : gmap string string) :
  fields_Matches justRebootedSelector ls = true
  ↔ ls !! AnnotationOkToReboot = Some True_
    ∧ ls !! AnnotationRebootNeeded = Some False_
    ∧ ls !! AnnotationRebootInProgress = Some False_.
Proof.
  unfold fields_Matches, justRebootedSelector. cbn [forallb].
  rewrite !hasTerm_Matches by discriminate.
  rewrite !andb_true_iff, !bool_decide_eq_true. tauto.
Qed.

(** A selector sees only the fields it names. *)
Lemma fields_Matches_ext (sel : fieldsSelector) (ls ls' : gmap string string) :
  (∀ t, t ∈ sel →
        match t with hasTerm field _ | notHasTerm field _ => ls' !! field = ls !! field end) →
  fields_Matches sel ls' = fields_Matches sel ls.
Proof.
  unfold fields_Matches. induction sel as [|t sel IH]; intros H; [reflexivity|].
  cbn [forallb]. rewrite IH by (intros t' Ht'; apply H; right; exact Ht'). f_equal.
  specialize (H t ltac:(left)). destruct t; cbn; unfold fields_Get; rewrite H; reflexivity.
Qed.

Lemma labels_Matches_In (ls : gmap string string) label :
  labels_Matches {| key := label; operator := selection_In; strValues := [True_] |} ls
  = bool_decide (ls !! label = Some True_).
Proof.
  unfold labels_Matches. cbn. destruct (ls !! label) as [v|].
  - apply bool_decide_ext. rewrite list_elem_of_singleton. split; congruence.
  - rewrite bool_decide_eq_false_2 by discriminate. reflexivity.
Qed.

Lemma labels_Matches_NotIn (ls : gmap string string) label :
  labels_Matches {| key := label; operator := selection_NotIn; strValues := [True_] |} ls
  = negb (bool_decide (ls !! label = Some True_)).
Proof.
  unfold labels_Matches. cbn. destruct (ls !! label) as [v|].
  - f_equal. apply bool_decide_ext. rewrite list_elem_of_singleton. split; congruence.
  - rewrite bool_decide_eq_false_2 by discriminate. reflexivity.
Qed.

Lemma beforeRebootReq_Matches (ls : gmap string string) :
  labels_Matches beforeRebootReq ls = bool_decide (ls !! LabelBeforeReboot = Some True_).
Proof. apply labels_Matches_In. Qed.

Lemma afterRebootReq_Matches (ls : gmap string string) :
  labels_Matches afterRebootReq ls = bool_decide (ls !! LabelAfterReboot = Some True_).
Proof. apply labels_Matches_In. Qed.

Lemma notBeforeRebootReq_Matches (ls : gmap string string) :
  labels_Matches notBeforeRebootReq ls
  = negb (bool_decide (ls !! LabelBeforeReboot = Some True_)).
Proof. apply labels_Matches_NotIn. Qed.

Lemma notAfterRebootReq_Matches (ls : gmap string string) :
  labels_Matches notAfterRebootReq ls
  = negb (bool_decide (ls !! LabelAfterReboot = Some True_)).
Proof. apply labels_Matches_NotIn. Qed.

Lemma hasPreLabel_lookup n :
  hasPreLabel n = bool_decide (Labels n !! LabelBeforeReboot = Some True_).
Proof. apply labels_Matches_In. Qed.

Lemma hasPostLabel_lookup n :
  hasPostLabel n = bool_decide (Labels n !! LabelAfterReboot = Some True_).
Proof. apply labels_Matches_In. Qed.

Lemma hasAllAnnotations_Forall n annotations :
  hasAllAnnotations n annotations = true
  ↔ Forall (λ a, Annotations n !! a = Some True_) annotations.
Proof.
  unfold hasAllAnnotations. rewrite forallb_forall, Forall_forall.
  split; intros H a Ha.
  - apply list_elem_of_In in Ha. specialize (H a Ha).
    destruct (Annotations n !! a); [|discriminate].
    apply bool_decide_eq_true_1 in H. congruence.
  - apply list_elem_of_In in Ha. rewrite (H a Ha). apply bool_decide_eq_true_2. reflexivity.
Qed.

Lemma preservesName_cleanupState_modifier k : preservesName (cleanupState_modifier k).
Proof.
  intros n. unfold cleanupState_modifier.
  case_bool_decide; [destruct (negb _)|]; reflexivity.
Qed.

Lemma preservesName_checkBeforeReboot_modifier k : preservesName (checkBeforeReboot_modifier k).
Proof. intros n. reflexivity. Qed.

Lemma preservesName_checkAfterReboot_modifier k : preservesName (checkAfterReboot_modifier k).
Proof. intros n. reflexivity. Qed.

Lemma preservesName_mark_modifier label annotations :
  preservesName (mark_modifier label annotations).
Proof. intros n. reflexivity. Qed.

(** ** The phases as maps over the store *)

Lemma filter_true st : List.filter (λ _, true) st = st.
Proof. induction st as [|n st IH]; [reflexivity|]. cbn. rewrite IH. reflexivity. Qed.

Lemma mapIf_true f st : mapIf (λ _, true) f st = f <$> st.
Proof. reflexivity. Qed.

Lemma cleanupState_map k st :
  distinctNames st → cleanupState k st = (Ok tt, cleanupState_modifier k <$> st).
Proof.
  intros Hnd. unfold cleanupState, bind, nc_List.
  rewrite <- (filter_true st) at 1.
  rewrite (forEach_filter_updates _ (cleanupState_modifier k)); [reflexivity| | |exact Hnd].
  - apply preservesName_cleanupState_modifier.
  - intros x st' Hnd' Hin. apply orErrorf_UpdateNodeRetry; [assumption..|].
    apply preservesName_cleanupState_modifier.
Qed.

Lemma checkBeforeReboot_map k st :
  distinctNames st →
  checkBeforeReboot k st = (Ok tt, mapIf (preCheckDone k) (checkBeforeReboot_modifier k) st).
Proof.
  intros Hnd. unfold checkBeforeReboot, checkBeforeReboot_loop, bind, nc_List.
  rewrite forEach_if. unfold FilterNodesByRequirement. rewrite filter_filter_bool.
  apply forEach_filter_updates; [apply preservesName_checkBeforeReboot_modifier| |exact Hnd].
  intros x st' Hnd' Hin. apply orErrorf_UpdateNodeRetry; [assumption..|].
  apply preservesName_checkBeforeReboot_modifier.
Qed.

Lemma checkAfterReboot_map k st :
  distinctNames st →
  checkAfterReboot k st = (Ok tt, mapIf (postCheckDone k) (checkAfterReboot_modifier k) st).
Proof.
  intros Hnd. unfold checkAfterReboot, checkAfterReboot_loop, bind, nc_List.
  rewrite forEach_if. unfold FilterNodesByRequirement. rewrite filter_filter_bool.
  apply forEach_filter_updates; [apply preservesName_checkAfterReboot_modifier| |exact Hnd].
  intros x st' Hnd' Hin. apply orErrorf_UpdateNodeRetry; [assumption..|].
  apply preservesName_checkAfterReboot_modifier.
Qed.

Lemma markAfterReboot_map k st :
  distinctNames st →
  markAfterReboot k st
  = (Ok tt, mapIf isJustRebooted (mark_modifier LabelAfterReboot (afterRebootAnnotations k)) st).
Proof.
  intros Hnd. unfold markAfterReboot, bind, nc_List.
  unfold FilterNodesByRequirement, FilterNodesByAnnotation. rewrite filter_filter_bool.
  apply forEach_filter_updates; [apply preservesName_mark_modifier| |exact Hnd].
  intros x st' Hnd' Hin. apply mark_ok; assumption.
Qed.

(** ** Finish pre-check, finish post-check and cleanup *)

Lemma lookup_mapIf Q f st (i : nat) n :
  st !! i = Some n → mapIf Q f st !! i = Some (if Q n then f n else n).
Proof. intros H. unfold mapIf. rewrite list_lookup_fmap, H. reflexivity. Qed.

(** Two node objects with the same name, labels and annotations are the
    same object. *)
Lemma Node_ext (x y : Node) :
  Name x = Name y → (∀ l, Labels x !! l = Labels y !! l) →
  (∀ a, Annotations x !! a = Annotations y !! a) → x = y.
Proof.
  destruct x as [xn xl xa], y as [yn yl ya]. cbn. intros -> Hl Ha.
  f_equal; apply map_eq; assumption.
Qed.

(** C5.  On a store with distinct names [checkBeforeReboot] succeeds and
    changes nothing but this: a node labelled before-reboot=true whose
    configured pre-check annotations are all "true" loses the label and the
    configured annotations and gets reboot-ok=true (set last, so it stays
    even when reboot-ok is itself configured as a check); its other labels
    and annotations stay.  A node one of whose configured annotations is
    not "true", and a node without the label, is unchanged. *)
Theorem checkBeforeReboot_spec (k : Kontroller) (st : list Node) :
  distinctNames st →
  ∃ st', checkBeforeReboot k st = (Ok tt, st') ∧ length st' = length st
    ∧ ∀ (i : nat) n, st !! i = Some n →
        ∃ n', st' !! i = Some n' ∧ Name n' = Name n
          ∧ (Labels n !! LabelBeforeReboot = Some True_ →
             (∀ a, a ∈ beforeRebootAnnotations k → Annotations n !! a = Some True_) →
               Labels n' !! LabelBeforeReboot = None
             ∧ (∀ l, l ≠ LabelBeforeReboot → Labels n' !! l = Labels n !! l)
             ∧ Annotations n' !! AnnotationOkToReboot = Some True_
             ∧ (∀ a, a ≠ AnnotationOkToReboot →
                  Annotations n' !! a
                  = if bool_decide (a ∈ beforeRebootAnnotations k)
                    then None else Annotations n !! a))
          ∧ ((∃ a, a ∈ beforeRebootAnnotations k ∧ Annotations n !! a ≠ Some True_) →
             n' = n)
          ∧ (Labels n !! LabelBeforeReboot ≠ Some True_ → n' = n).
Proof.
  intros Hnd. eexists. split; [apply checkBeforeReboot_map, Hnd|].
  split; [unfold mapIf; apply length_fmap|].
  intros i n Hi. eexists. split; [apply lookup_mapIf, Hi|].
  unfold preCheckDone. rewrite beforeRebootReq_Matches.
  destruct (hasAllAnnotations n (beforeRebootAnnotations k)) eqn:Hall.
  - rewrite hasAllAnnotations_Forall, Forall_forall in Hall.
    case_bool_decide as Hlabel; cbn [andb].
    + split; [reflexivity|]. split; [|split].
      * intros _ _. cbn.
        split; [apply lookup_delete_eq|].
        split; [intros l Hl; apply lookup_delete_ne; congruence|].
        split; [apply lookup_insert_eq|].
        intros a Ha. rewrite lookup_insert_ne by congruence. apply lookup_deleteAll.
      * intros (a & Ha & Hne). exfalso. apply Hne, Hall, Ha.
      * intros Hne. contradiction.
    + split; [reflexivity|]. split; [intros; contradiction|]. split; reflexivity.
  - rewrite andb_false_r. split; [reflexivity|]. split; [|split; reflexivity].
    intros _ Htrue. exfalso.
    assert (hasAllAnnotations n (beforeRebootAnnotations k) = true) as Hyes
      by (apply hasAllAnnotations_Forall, Forall_forall; exact Htrue).
    rewrite Hall in Hyes. discriminate Hyes.
Qed.

(** C5 at work.  Node a is labelled and its gate is "true": it is
    released.  Node b is labelled and its gate is "false", node c has the
    gate "true" but no label: both stay as they are. *)
Lemma checkBeforeReboot_spec_witness :
  let k := {| beforeRebootAnnotations := ["gate"]; afterRebootAnnotations := [];
              rebootWindow := None |} in
  let a := mkNode "a" [(LabelBeforeReboot, True_)]
             [(AnnotationRebootNeeded, True_); ("gate", True_)] in
  let b := mkNode "b" [(LabelBeforeReboot, True_)]
             [(AnnotationRebootNeeded, True_); ("gate", False_)] in
  let c := mkNode "c" [] [(AnnotationRebootNeeded, True_); ("gate", True_)] in
  let released := mkNode "a" [] [(AnnotationOkToReboot, True_);
                                 (AnnotationRebootNeeded, True_)] in
  distinctNames [a; b; c]
  ∧ checkBeforeReboot k [a; b; c] = (Ok tt, [released; b; c]).
Proof.
  intros k a b c released.
  assert (Hnd : distinctNames [a; b; c]) by (apply (bool_decide_unpack _); vm_compute; exact I).
  split; [exact Hnd|].
  destruct (checkBeforeReboot_spec k [a; b; c] Hnd) as (st' & -> & Hlen & Hnodes).
  destruct st' as [|x [|y [|z [|? ?]]]]; try discriminate Hlen.
  destruct (Hnodes 0%nat a eq_refl) as (n0 & Hx & Hname & Hrel & _ & _).
  destruct (Hnodes 1%nat b eq_refl) as (n1 & Hy & _ & _ & Hkeep1 & _).
  destruct (Hnodes 2%nat c eq_refl) as (n2 & Hz & _ & _ & _ & Hkeep2).
  injection Hx as <-. injection Hy as <-. injection Hz as <-.
  rewrite Hkeep1, Hkeep2.
  - do 2 f_equal. destruct Hrel as (Hlabel & Hlabels & Hok & Hannotations).
    + vm_compute. reflexivity.
    + intros g ->%list_elem_of_singleton. vm_compute. reflexivity.
    + apply Node_ext.
      * exact Hname.
      * intros l. destruct (decide (l = LabelBeforeReboot)) as [->|Hl].
        -- rewrite Hlabel. reflexivity.
        -- rewrite Hlabels by exact Hl.
           change (Labels a) with (<[LabelBeforeReboot := True_]> (∅ : gmap string string)).
           rewrite lookup_insert_ne by congruence. reflexivity.
      * intros g. destruct (decide (g = AnnotationOkToReboot)) as [->|Hg].
        -- rewrite Hok. reflexivity.
        -- rewrite Hannotations by exact Hg.
           change (Annotations released)
             with (<[AnnotationOkToReboot := True_]>
                     (<[AnnotationRebootNeeded := True_]> (∅ : gmap string string))).
           rewrite lookup_insert_ne by congruence.
           change (Annotations a)
             with (<[AnnotationRebootNeeded := True_]>
                     (<["gate" := True_]> (∅ : gmap string string))).
           case_bool_decide as Hgate.
           ++ apply list_elem_of_singleton in Hgate as ->. reflexivity.
           ++ destruct (decide (g = AnnotationRebootNeeded)) as [->|Hneeded].
              ** rewrite !lookup_insert_eq. reflexivity.
              ** assert (Hother : "gate" ≠ g) by (intros <-; apply Hgate; left).
                 rewrite !lookup_insert_ne by congruence. reflexivity.
  - vm_compute. discriminate.
  - exists "gate". split; [left|]. vm_compute. discriminate.
Defined.

Lemma wantsReboot_needs_ok_not_true n :
  Annotations n !! AnnotationOkToReboot = Some False_ →
  isStillRebooting n = false
  ∧ fields_Matches justRebootedSelector (Annotations n) = false.
Proof.
  intros Hok. split; apply not_true_is_false.
  - unfold isStillRebooting. rewrite stillRebootingSelector_Matches. intros [H _].
    rewrite Hok in H. discriminate.
  - rewrite justRebootedSelector_Matches. intros [H _]. rewrite Hok in H. discriminate.
Qed.

(** C6, as amended.  On a store with distinct names [checkAfterReboot]
    succeeds, and a node labelled after-reboot=true whose configured
    post-check annotations are all "true" loses the label and the
    configured annotations and gets reboot-ok=false (set last); its other
    labels and annotations stay.  The node is then neither still rebooting,
    nor just rebooted, nor in post-check; it is Idle exactly when it does
    not want a reboot again and carries no before-reboot label. *)
Theorem checkAfterReboot_spec (k : Kontroller) (st : list Node) :
  distinctNames st →
  ∃ st', checkAfterReboot k st = (Ok tt, st') ∧ length st' = length st
    ∧ ∀ (i : nat) n, st !! i = Some n → Labels n !! LabelAfterReboot = Some True_ →
        hasAllAnnotations n (afterRebootAnnotations k) = true →
        ∃ n', st' !! i = Some n' ∧ Name n' = Name n
          ∧ Labels n' !! LabelAfterReboot = None
          ∧ (∀ l, l ≠ LabelAfterReboot → Labels n' !! l = Labels n !! l)
          ∧ Annotations n' !! AnnotationOkToReboot = Some False_
          ∧ (∀ a, a ≠ AnnotationOkToReboot →
               Annotations n' !! a
               = if bool_decide (a ∈ afterRebootAnnotations k)
                 then None else Annotations n !! a)
          ∧ isStillRebooting n' = false ∧ isJustRebooted n' = false
          ∧ hasPostLabel n' = false
          ∧ isIdle n' = negb (isWantsReboot n') && negb (hasPreLabel n').
Proof.
  intros Hnd. eexists. split; [apply checkAfterReboot_map, Hnd|].
  split; [unfold mapIf; apply length_fmap|].
  intros i n Hi Hlabel Hall. eexists. split; [apply lookup_mapIf, Hi|].
  unfold postCheckDone. rewrite afterRebootReq_Matches, bool_decide_eq_true_2 by exact Hlabel.
  rewrite Hall. cbn [andb].
  set (n' := checkAfterReboot_modifier k n).
  assert (Hok : Annotations n' !! AnnotationOkToReboot = Some False_)
    by apply lookup_insert_eq.
  assert (Hpost : hasPostLabel n' = false).
  { rewrite hasPostLabel_lookup. apply bool_decide_eq_false_2. cbn.
    rewrite lookup_delete_eq. discriminate. }
  destruct (wantsReboot_needs_ok_not_true n' Hok) as [Hstill Hjust].
  split; [reflexivity|]. split; [apply lookup_delete_eq|].
  split; [intros l Hl; apply lookup_delete_ne; congruence|].
  split; [exact Hok|].
  split; [intros a Ha; cbn; rewrite lookup_insert_ne by congruence; apply lookup_deleteAll|].
  split; [exact Hstill|].
  assert (Hj : isJustRebooted n' = false) by (unfold isJustRebooted; rewrite Hjust; reflexivity).
  split; [exact Hj|]. split; [exact Hpost|].
  unfold isIdle. rewrite Hstill, Hj, Hpost. cbn [negb]. rewrite !andb_true_r. reflexivity.
Qed.

(** C6 at work: a node that passed its post-check and found no new update
    is Idle afterwards. *)
Lemma checkAfterReboot_spec_witness :
  let k := {| beforeRebootAnnotations := []; afterRebootAnnotations := ["healthy"];
              rebootWindow := None |} in
  let st := [mkNode "a" [(LabelAfterReboot, True_)]
               [(AnnotationOkToReboot, True_); (AnnotationRebootNeeded, False_);
                (AnnotationRebootInProgress, False_); ("healthy", True_)]] in
  distinctNames st
  ∧ ∃ st', checkAfterReboot k st = (Ok tt, st')
      ∧ ∃ n', st' !! 0%nat = Some n' ∧ Annotations n' !! AnnotationOkToReboot = Some False_
              ∧ Labels n' !! LabelAfterReboot = None ∧ isIdle n' = true.
Proof.
  intros k st. assert (Hnd : distinctNames st) by (apply (bool_decide_unpack _); vm_compute; exact I).
  split; [exact Hnd|].
  destruct (checkAfterReboot_spec k st Hnd) as (st' & Hrun & _ & H).
  exists st'. split; [exact Hrun|].
  destruct (H 0%nat _ eq_refl eq_refl eq_refl)
    as (n' & Hn' & _ & Hl & _ & Hok & _ & _ & _ & _ & Hidle).
  exists n'. repeat split; try assumption.
  rewrite Hidle. unfold checkAfterReboot in Hrun. vm_compute in Hrun.
  injection Hrun as <-. injection Hn' as <-. vm_compute. reflexivity.
Defined.

(** C6, counterexample.  The agent has found a new update while the node
    was in post-check: reboot-needed is "true" again.  Finishing the
    post-check leaves the node wanting a reboot, not Idle. *)
Lemma checkAfterReboot_not_idle_counterexample :
  let k := {| beforeRebootAnnotations := []; afterRebootAnnotations := [];
              rebootWindow := None |} in
  let n := mkNode "a" [(LabelAfterReboot, True_)]
             [(AnnotationOkToReboot, True_); (AnnotationRebootNeeded, True_)] in
  let n' := mkNode "a" [] [(AnnotationOkToReboot, False_); (AnnotationRebootNeeded, True_)] in
  Labels n !! LabelAfterReboot = Some True_
  ∧ hasAllAnnotations n (afterRebootAnnotations k) = true
  ∧ checkAfterReboot k [n] = (Ok tt, [n'])
  ∧ isWantsReboot n' = true ∧ isIdle n' = false.
Proof. cbv zeta. repeat split; vm_compute; reflexivity. Qed.

(** C7.  On a store with distinct names [cleanupState] succeeds.
    Afterwards a node carries the before-reboot label only if its
    annotations satisfy wants-reboot-minus-label: reboot-needed is "true"
    and none of reboot-paused, reboot-ok and reboot-in-progress is.  A node
    that had the label without satisfying that has lost the label and the
    configured pre-check annotations, and nothing else; every other node is
    unchanged. *)
Theorem cleanupState_spec (k : Kontroller) (st : list Node) :
  distinctNames st →
  ∃ st', cleanupState k st = (Ok tt, st') ∧ length st' = length st
    ∧ ∀ (i : nat) n, st !! i = Some n →
        ∃ n', st' !! i = Some n' ∧ Name n' = Name n
          ∧ (is_Some (Labels n' !! LabelBeforeReboot) →
               Annotations n' !! AnnotationRebootNeeded = Some True_
             ∧ Annotations n' !! AnnotationRebootPaused ≠ Some True_
             ∧ Annotations n' !! AnnotationOkToReboot ≠ Some True_
             ∧ Annotations n' !! AnnotationRebootInProgress ≠ Some True_)
          ∧ (if bool_decide (is_Some (Labels n !! LabelBeforeReboot))
                && negb (fields_Matches wantsRebootSelector (Annotations n))
             then Labels n' !! LabelBeforeReboot = None
                  ∧ (∀ l, l ≠ LabelBeforeReboot → Labels n' !! l = Labels n !! l)
                  ∧ (∀ a, Annotations n' !! a
                          = if bool_decide (a ∈ beforeRebootAnnotations k)
                            then None else Annotations n !! a)
             else n' = n).
Proof.
  intros Hnd. eexists. split; [apply cleanupState_map, Hnd|].
  split; [apply length_fmap|].
  intros i n Hi. eexists. split; [rewrite list_lookup_fmap, Hi; reflexivity|].
  split; [apply preservesName_cleanupState_modifier|].
  unfold cleanupState_modifier.
  case_bool_decide as Hlabel; cbn [andb].
  - destruct (fields_Matches wantsRebootSelector (Annotations n)) eqn:Hm; cbn [negb].
    + split; [|reflexivity]. intros _. apply wantsRebootSelector_Matches, Hm.
    + cbn. split.
      * rewrite lookup_delete_eq. intros [? ?]. discriminate.
      * split; [apply lookup_delete_eq|].
        split; [intros l Hl; apply lookup_delete_ne; congruence|].
        intros a. apply lookup_deleteAll.
  - split; [|reflexivity]. intros Hl. contradiction.
Qed.

(** C7 at work: the paused node a loses label and gate, node b keeps its
    label. *)
Lemma cleanupState_spec_witness :
  let k := {| beforeRebootAnnotations := ["gate"]; afterRebootAnnotations := [];
              rebootWindow := None |} in
  let st := [mkNode "a" [(LabelBeforeReboot, True_)]
               [(AnnotationRebootNeeded, True_); (AnnotationRebootPaused, True_);
                ("gate", False_)];
             mkNode "b" [(LabelBeforeReboot, True_)] [(AnnotationRebootNeeded, True_)]] in
  distinctNames st
  ∧ cleanupState k st
    = (Ok tt, [mkNode "a" [] [(AnnotationRebootNeeded, True_); (AnnotationRebootPaused, True_)];
               mkNode "b" [(LabelBeforeReboot, True_)] [(AnnotationRebootNeeded, True_)]]).
Proof.
  intros k st. assert (Hnd : distinctNames st) by (apply (bool_decide_unpack _); vm_compute; exact I).
  split; [exact Hnd|].
  destruct (cleanupState_spec k st Hnd) as (st' & Hrun & _ & _).
  rewrite Hrun. f_equal. unfold cleanupState in Hrun. vm_compute in Hrun.
  injection Hrun as <-. vm_compute. reflexivity.
Defined.



(** ** The pass *)

Lemma nodesRequiringReboot_filter st :
  nodesRequiringReboot st = List.filter isWantsReboot st.
Proof.
  unfold nodesRequiringReboot, FilterNodesByRequirement, FilterNodesByAnnotation.
  apply filter_filter_bool.
Qed.

Lemma sublist_filter_bool (Q : Node → bool) st : List.filter Q st `sublist_of` st.
Proof.
  induction st as [|n st IH]; [constructor|]. cbn [List.filter].
  destruct (Q n); [apply sublist_skip|apply sublist_cons]; exact IH.
Qed.

Lemma chosenNodes_sublist st : chosenNodes st `sublist_of` st.
Proof.
  unfold chosenNodes. etransitivity; [apply sublist_take|].
  rewrite nodesRequiringReboot_filter. apply sublist_filter_bool.
Qed.

Lemma chosenNodes_wantsReboot st n : n ∈ chosenNodes st → isWantsReboot n = true.
Proof.
  unfold chosenNodes. intros Hn. apply subseteq_take in Hn.
  rewrite nodesRequiringReboot_filter in Hn. apply elem_of_filter_bool in Hn as [_ H].
  exact H.
Qed.

Lemma distinctNames_sublist items st :
  items `sublist_of` st → distinctNames st → distinctNames items.
Proof.
  unfold distinctNames. intros Hsub Hnd. eapply sublist_NoDup; [exact Hnd|].
  apply fmap_sublist, Hsub.
Qed.

(** Outside the window, as [insideRebootWindow] sees it, nothing is
    labelled. *)
Lemma markBeforeReboot_outside k now1 now2 st :
  insideRebootWindow k now1 now2 = false → markBeforeReboot k now1 now2 st = (Ok tt, st).
Proof. intros H. unfold markBeforeReboot, bind, nc_List. rewrite H. reflexivity. Qed.

(** Inside, the phase panics on a negative capacity and otherwise labels
    the chosen nodes. *)
Lemma markBeforeReboot_inside k now1 now2 st :
  insideRebootWindow k now1 now2 = true → distinctNames st →
  markBeforeReboot k now1 now2 st
  = if remainingRebootingCapacity st <? 0
    then (Panic "makeslice: cap out of range", st)
    else (Ok tt, applyAtAll (chosenNodes st) (markBefore_modifier k) st).
Proof.
  intros Hin Hnd. unfold markBeforeReboot, bind, nc_List, rebootableNodes.
  rewrite Hin. cbn [negb]. destruct (remainingRebootingCapacity st <? 0); [reflexivity|].
  fold (chosenNodes st).
  rewrite (forEach_updates _ (markBefore_modifier k)).
  - rewrite foldl_applyAt; [reflexivity|apply preservesName_mark_modifier|].
    eapply distinctNames_sublist; [apply chosenNodes_sublist|exact Hnd].
  - apply preservesName_mark_modifier.
  - intros x st' Hnd' Hx. apply mark_ok; assumption.
  - exact Hnd.
  - intros x Hx. apply list_elem_of_fmap. exists x. split; [reflexivity|].
    eapply sublist_subseteq; [apply chosenNodes_sublist|exact Hx].
Qed.

Lemma distinctNames_mapIf Q f st :
  preservesName f → distinctNames st → distinctNames (mapIf Q f st).
Proof. intros Hf Hnd. unfold distinctNames. rewrite names_mapIf by exact Hf. exact Hnd. Qed.

Lemma distinctNames_beforeAdmission k st :
  distinctNames st → distinctNames (beforeAdmission k st).
Proof.
  intros Hnd. unfold beforeAdmission.
  do 3 (apply distinctNames_mapIf; [intros n; reflexivity|]).
  unfold distinctNames. rewrite names_fmap; [exact Hnd|].
  intros n _. apply preservesName_cleanupState_modifier.
Qed.

(** The first four phases cannot fail on a store with distinct names; the
    pass is the last phase run on their result. *)
Lemma process_phases k now1 now2 st :
  distinctNames st →
  process k now1 now2 st = markBeforeReboot k now1 now2 (beforeAdmission k st).
Proof.
  intros Hnd. unfold process, bind at 1.
  rewrite cleanupState_map by exact Hnd.
  assert (H1 : distinctNames (cleanupState_modifier k <$> st)).
  { unfold distinctNames. rewrite names_fmap; [exact Hnd|].
    intros n _. apply preservesName_cleanupState_modifier. }
  unfold bind at 1. rewrite checkAfterReboot_map by exact H1.
  pose proof (distinctNames_mapIf (postCheckDone k) (checkAfterReboot_modifier k) _
                (preservesName_checkAfterReboot_modifier k) H1) as H2.
  unfold bind at 1. rewrite markAfterReboot_map by exact H2.
  pose proof (distinctNames_mapIf isJustRebooted (markAfter_modifier k) _
                (preservesName_mark_modifier _ _) H2) as H3.
  unfold bind at 1. rewrite checkBeforeReboot_map by exact H3.
  reflexivity.
Qed.

(** ** Counting the nodes in flight *)

Lemma applyAtAll_cons items f n st :
  applyAtAll items f (n :: st)
  = (if bool_decide (Name n ∈ Name <$> items) then f n else n) :: applyAtAll items f st.
Proof. reflexivity. Qed.

Lemma sum_multiplicity_applyAtAll items f st :
  items `sublist_of` st → distinctNames st →
  (∀ x, x ∈ items → multiplicity (f x) = Datatypes.S (multiplicity x)) →
  sum_list (multiplicity <$> applyAtAll items f st)
  = (sum_list (multiplicity <$> st) + length items)%nat.
Proof.
  intros Hsub. induction Hsub as [|x items st Hsub IH|x items st Hsub IH]; intros Hnd Hf.
  - reflexivity.
  - unfold distinctNames in Hnd. rewrite fmap_cons in Hnd.
    apply NoDup_cons in Hnd as [Hx Hnd].
    rewrite applyAtAll_cons, bool_decide_eq_true_2 by (rewrite fmap_cons; left).
    rewrite !sum_multiplicity_cons, Hf by left. cbn [length].
    assert (Htail : applyAtAll (x :: items) f st = applyAtAll items f st).
    { unfold applyAtAll. apply list_fmap_ext. intros i n Hn.
      apply list_elem_of_lookup_2 in Hn. rewrite fmap_cons.
      assert (Name n ≠ Name x).
      { intros Heq. apply Hx. rewrite <- Heq. apply list_elem_of_fmap. eauto. }
      destruct (decide (Name n ∈ Name <$> items)) as [Hi|Hi].
      - rewrite !bool_decide_eq_true_2; [reflexivity|exact Hi|right; exact Hi].
      - rewrite !bool_decide_eq_false_2; [reflexivity|exact Hi|].
        intros [?|?]%elem_of_cons; contradiction. }
    rewrite Htail, IH; [lia|exact Hnd|]. intros y Hy. apply Hf. right. exact Hy.
  - unfold distinctNames in Hnd. rewrite fmap_cons in Hnd.
    apply NoDup_cons in Hnd as [Hx Hnd].
    rewrite applyAtAll_cons, bool_decide_eq_false_2.
    + rewrite !sum_multiplicity_cons, IH by assumption. lia.
    + intros (y & Heq & Hy)%list_elem_of_fmap. apply Hx. rewrite Heq.
      apply list_elem_of_fmap. exists y. split; [reflexivity|].
      eapply sublist_subseteq; [exact Hsub|exact Hy].
Qed.

(** A node that wants to reboot is in none of the three sets but possibly
    the post-check one; the label puts it into the pre-check set. *)
Lemma multiplicity_markBefore k n :
  isWantsReboot n = true →
  multiplicity (markBefore_modifier k n) = Datatypes.S (multiplicity n).
Proof.
  unfold isWantsReboot. rewrite andb_true_iff, notBeforeRebootReq_Matches.
  rewrite wantsRebootSelector_Matches, negb_true_iff, bool_decide_eq_false.
  intros [(_ & _ & Hok & _) Hlabel].
  assert (Hs : isStillRebooting n = false).
  { apply not_true_is_false. unfold isStillRebooting.
    rewrite stillRebootingSelector_Matches. tauto. }
  assert (Hs' : isStillRebooting (markBefore_modifier k n) = false).
  { apply not_true_is_false. unfold isStillRebooting.
    rewrite stillRebootingSelector_Matches. cbn. rewrite lookup_deleteAll.
    case_bool_decide; [intros [? _]; discriminate|tauto]. }
  assert (Hp : hasPreLabel n = false)
    by (rewrite hasPreLabel_lookup; apply bool_decide_eq_false_2, Hlabel).
  assert (Hp' : hasPreLabel (markBefore_modifier k n) = true).
  { rewrite hasPreLabel_lookup. apply bool_decide_eq_true_2. cbn. apply lookup_insert_eq. }
  assert (Hq : hasPostLabel (markBefore_modifier k n) = hasPostLabel n).
  { rewrite !hasPostLabel_lookup. cbn. rewrite lookup_insert_ne by discriminate. reflexivity. }
  unfold multiplicity. rewrite Hs, Hs', Hp, Hp', Hq. reflexivity.
Qed.

(** What the admission phase adds to the count. *)
Lemma sum_multiplicity_chosen k st :
  distinctNames st →
  sum_list (multiplicity <$> applyAtAll (chosenNodes st) (markBefore_modifier k) st)
  = (sum_list (multiplicity <$> st) + length (chosenNodes st))%nat.
Proof.
  intros Hnd. apply sum_multiplicity_applyAtAll; [apply chosenNodes_sublist|exact Hnd|].
  intros x Hx. apply multiplicity_markBefore. eapply chosenNodes_wantsReboot, Hx.
Qed.

Lemma length_chosenNodes st :
  0 ≤ remainingRebootingCapacity st →
  Z.of_nat (length (chosenNodes st)) ≤ remainingRebootingCapacity st.
Proof. intros H. unfold chosenNodes. rewrite length_take. lia. Qed.

(** After an admission phase that ran and did not panic, the count, with
    multiplicities, is within the bound. *)
Lemma markBeforeReboot_bound k now1 now2 st st' :
  distinctNames st → insideRebootWindow k now1 now2 = true →
  markBeforeReboot k now1 now2 st = (Ok tt, st') →
  st' = applyAtAll (chosenNodes st) (markBefore_modifier k) st
  ∧ 0 ≤ remainingRebootingCapacity st
  ∧ Z.of_nat (sum_list (multiplicity <$> st'))
    = maxRebootingNodes - remainingRebootingCapacity st + Z.of_nat (length (chosenNodes st)).
Proof.
  intros Hnd Hin. rewrite markBeforeReboot_inside by assumption.
  destruct (Z.ltb_spec (remainingRebootingCapacity st) 0) as [Hneg|Hpos]; [discriminate|].
  intros [= <-]. split; [reflexivity|]. split; [exact Hpos|].
  rewrite sum_multiplicity_chosen by exact Hnd.
  unfold remainingRebootingCapacity. rewrite length_rebootingNodes. lia.
Qed.

(** ** The bound on concurrent reboots *)

(** Where the admission phase runs and does not panic the bound holds
    after the pass, on any store with distinct names: the phase labels no
    more nodes than the capacity it computed. *)
Lemma process_inFlight_bound (k : Kontroller) (now1 now2 : Time) (st st' : list Node) :
  distinctNames st →
  insideRebootWindow k now1 now2 = true →
  process k now1 now2 st = (Ok tt, st') →
  Z.of_nat (length (inFlight st')) ≤ maxRebootingNodes.
Proof.
  intros Hnd Hin. rewrite process_phases by exact Hnd. intros Hrun.
  apply markBeforeReboot_bound in Hrun as (_ & Hcap & Hsum);
    [|apply distinctNames_beforeAdmission, Hnd|exact Hin].
  pose proof (length_inFlight_le st').
  pose proof (length_chosenNodes _ Hcap). lia.
Qed.

(** How the store of the theorem below is reached from two bare nodes by
    passes at the time [now], whose admission phase runs: node a asks for a
    reboot, is labelled and released; its agent clears reboot-needed; node
    b asks and is labelled, as the capacity does not count a; the agent of
    a then clears reboot-in-progress. *)
Ltac two_reboots now :=
  unfold reachable;
  (eapply rtc_l; [apply (step_agent _ "a" AnnotationRebootNeeded True_); left|]);
  (eapply rtc_l;
     [apply (step_pass _ now now _
               [registered "a" [(LabelBeforeReboot, True_)] [(AnnotationRebootNeeded, True_)];
                registered "b" [] []]);
      vm_compute; reflexivity|]);
  (eapply rtc_l;
     [apply (step_pass _ now now _
               [registered "a" [] [(AnnotationOkToReboot, True_);
                               (AnnotationRebootNeeded, True_)];
                registered "b" [] []]);
      vm_compute; reflexivity|]);
  (eapply rtc_l; [apply (step_agent _ "a" AnnotationRebootNeeded False_); left|]);
  (eapply rtc_l; [apply (step_agent _ "b" AnnotationRebootNeeded True_); left|]);
  (eapply rtc_l;
     [apply (step_pass _ now now _
               [registered "a" [] [(AnnotationOkToReboot, True_);
                               (AnnotationRebootNeeded, False_)];
                registered "b" [(LabelBeforeReboot, True_)] [(AnnotationRebootNeeded, True_)]]);
      vm_compute; reflexivity|]);
  (eapply rtc_l; [|apply rtc_refl]);
  (apply (step_agent_to _ "a" AnnotationRebootInProgress False_); [right; left|]);
  vm_compute; reflexivity.

(** C3.  The bound on the nodes in flight is broken by a pass.  No checks
    configured, two nodes: a has rebooted and its agent has reported it, b
    is in pre-check; one node is in flight and the capacity is used up.
    The pass labels a after-reboot=true and releases b with reboot-ok=true:
    neither phase looks at the capacity, and two nodes are in flight.  With
    the window 01:00-02:00 configured, at 01:30, the admission phase is
    skipped and the pass goes through.  With no window configured the same
    two nodes are written and the admission phase then panics on the
    negative capacity. *)
Theorem process_inFlight_exceeds :
  let windowed := {| beforeRebootAnnotations := []; afterRebootAnnotations := [];
                     rebootWindow := Some (dailyWindow 3600 3600) |} in
  let always := {| beforeRebootAnnotations := []; afterRebootAnnotations := [];
                   rebootWindow := None |} in
  let init := [registered "a" [] []; registered "b" [] []] in
  let st := [registered "a" []
               [(AnnotationOkToReboot, True_); (AnnotationRebootNeeded, False_);
                (AnnotationRebootInProgress, False_)];
             registered "b" [(LabelBeforeReboot, True_)] [(AnnotationRebootNeeded, True_)]] in
  let st' := [registered "a" [(LabelAfterReboot, True_)]
                [(AnnotationOkToReboot, True_); (AnnotationRebootNeeded, False_);
                 (AnnotationRebootInProgress, False_)];
              registered "b" []
                [(AnnotationOkToReboot, True_); (AnnotationRebootNeeded, True_)]] in
  (reachable windowed init st ∧ reachable always init st)
  ∧ (Z.of_nat (length (inFlight st)) = 1 ∧ remainingRebootingCapacity st = 0)
  ∧ process windowed 5400 5400 st = (Ok tt, st')
  ∧ process always 5400 5400 st = (Panic "makeslice: cap out of range", st')
  ∧ reachable windowed init st'
  ∧ inFlight st' = st'
  ∧ maxRebootingNodes < Z.of_nat (length (inFlight st')).
Proof.
  intros windowed always init st st'.
  assert (Hst : reachable windowed init st) by two_reboots 18000.
  assert (Hrun : process windowed 5400 5400 st = (Ok tt, st')) by (vm_compute; reflexivity).
  split; [split; [exact Hst|two_reboots 0]|].
  split; [split; vm_compute; reflexivity|].
  split; [exact Hrun|]. split; [vm_compute; reflexivity|].
  split; [eapply rtc_r; [exact Hst|apply (step_pass windowed 5400 5400), Hrun]|].
  split; vm_compute; reflexivity.
Qed.

(** ** The reboot window and the admission phase *)

(** C4.  Daily window 01:00-02:00, one node that wants to reboot.  At
    05:00 the window is closed, yet [markBeforeReboot], and with it the
    pass, labels the node before-reboot=true; at 01:30, inside the window,
    it labels nothing.  The phase does skip when [insideRebootWindow] says
    false; the verdict of [insideRebootWindow] is what is inverted. *)
Theorem markBeforeReboot_outside_window :
  let k := {| beforeRebootAnnotations := []; afterRebootAnnotations := [];
              rebootWindow := Some (dailyWindow 3600 3600) |} in
  let a := mkNode "a" [] [(AnnotationRebootNeeded, True_)] in
  let labelled := mkNode "a" [(LabelBeforeReboot, True_)] [(AnnotationRebootNeeded, True_)] in
  Previous (dailyWindow 3600 3600) 18000 = {| Start := 3600; End_ := 7200 |}
  ∧ isWantsReboot a = true ∧ hasPreLabel a = false
  ∧ markBeforeReboot k 18000 18000 [a] = (Ok tt, [labelled])
  ∧ process k 18000 18000 [a] = (Ok tt, [labelled])
  ∧ hasPreLabel labelled = true
  ∧ Previous (dailyWindow 3600 3600) 5400 = {| Start := 3600; End_ := 7200 |}
  ∧ markBeforeReboot k 5400 5400 [a] = (Ok tt, [a])
  ∧ (∀ k' now1 now2 st, insideRebootWindow k' now1 now2 = false →
                         markBeforeReboot k' now1 now2 st = (Ok tt, st)).
Proof.
  cbv zeta. repeat split; try (vm_compute; reflexivity).
  intros k' now1 now2 st. apply markBeforeReboot_outside.
Qed.

(** ** Nodes on which a pass has nothing left to do *)

Lemma beforeAdmission_passNode k st : beforeAdmission k st = passNode k <$> st.
Proof.
  unfold beforeAdmission, mapIf. rewrite <- !list_fmap_compose. reflexivity.
Qed.

Lemma hasAllAnnotations_mono n n' annotations :
  (∀ a, a ∈ annotations → Annotations n' !! a = Some True_ → Annotations n !! a = Some True_) →
  hasAllAnnotations n annotations = false → hasAllAnnotations n' annotations = false.
Proof.
  intros Hmono Hn. apply not_true_is_false. intros Hn'.
  apply not_true_iff_false in Hn. apply Hn.
  apply hasAllAnnotations_Forall. apply hasAllAnnotations_Forall in Hn'.
  rewrite Forall_forall in Hn' |- *. intros a Ha. apply Hmono; auto.
Qed.

Lemma hasAllAnnotations_deleted n annotations :
  annotations ≠ [] →
  (∀ a, a ∈ annotations → Annotations n !! a = None) →
  hasAllAnnotations n annotations = false.
Proof.
  intros Hne Hdel. destruct annotations as [|a l]; [contradiction|].
  unfold hasAllAnnotations. cbn [forallb]. rewrite Hdel by left. reflexivity.
Qed.

Lemma fields_Matches_deleteAll (sel : fieldsSelector) annotations (m : gmap string string) :
  (∀ t, t ∈ sel → termField t ∉ annotations) →
  fields_Matches sel (deleteAll annotations m) = fields_Matches sel m.
Proof.
  intros H. apply fields_Matches_ext. intros t Ht. specialize (H t Ht).
  destruct t; cbn in H; apply lookup_deleteAll_notin, H.
Qed.

Lemma selectors_protocol t :
  t ∈ wantsRebootSelector ∨ t ∈ justRebootedSelector ∨ t ∈ stillRebootingSelector →
  termField t ∈ protocolAnnotations.
Proof.
  unfold wantsRebootSelector, justRebootedSelector, stillRebootingSelector, protocolAnnotations.
  intros [H|[H|H]]; repeat (apply elem_of_cons in H as [->|H]; [cbn; set_solver|]);
    inversion H.
Qed.

Section Settled.
Variable k : Kontroller.
Hypothesis Hown : ownChecks k.

Lemma before_not_protocol a :
  a ∈ protocolAnnotations → a ∉ beforeRebootAnnotations k.
Proof.
  destruct Hown as (_ & _ & Hall). rewrite Forall_app, !Forall_forall in Hall.
  intros Ha Hin. exact (proj1 Hall a Hin Ha).
Qed.

Lemma after_not_protocol a :
  a ∈ protocolAnnotations → a ∉ afterRebootAnnotations k.
Proof.
  destruct Hown as (_ & _ & Hall). rewrite Forall_app, !Forall_forall in Hall.
  intros Ha Hin. exact (proj2 Hall a Hin Ha).
Qed.

Lemma wants_deleteAll_before (m : gmap string string) :
  fields_Matches wantsRebootSelector (deleteAll (beforeRebootAnnotations k) m)
  = fields_Matches wantsRebootSelector m.
Proof.
  apply fields_Matches_deleteAll. intros t Ht.
  apply before_not_protocol, selectors_protocol. auto.
Qed.

Lemma wants_deleteAll_after (m : gmap string string) :
  fields_Matches wantsRebootSelector (deleteAll (afterRebootAnnotations k) m)
  = fields_Matches wantsRebootSelector m.
Proof.
  apply fields_Matches_deleteAll. intros t Ht.
  apply after_not_protocol, selectors_protocol. auto.
Qed.

Lemma just_deleteAll_before (m : gmap string string) :
  fields_Matches justRebootedSelector (deleteAll (beforeRebootAnnotations k) m)
  = fields_Matches justRebootedSelector m.
Proof.
  apply fields_Matches_deleteAll. intros t Ht.
  apply before_not_protocol, selectors_protocol. auto.
Qed.

(** Cleanup leaves the label only on a node that wants to reboot. *)
Lemma cleanup_settles n :
  let n1 := cleanupState_modifier k n in
  is_Some (Labels n1 !! LabelBeforeReboot) →
  fields_Matches wantsRebootSelector (Annotations n1) = true.
Proof.
  cbv zeta. unfold cleanupState_modifier. case_bool_decide as Hl.
  - destruct (fields_Matches wantsRebootSelector (Annotations n)) eqn:Hm; cbn [negb].
    + intros _. exact Hm.
    + simpl_node. rewrite lookup_delete_eq. intros [? ?]. discriminate.
  - intros H. contradiction.
Qed.

(** Finishing the post-check keeps what cleanup established. *)
Lemma checkAfter_keeps_wants n :
  (is_Some (Labels n !! LabelBeforeReboot) →
     fields_Matches wantsRebootSelector (Annotations n) = true) →
  is_Some (Labels (checkAfterReboot_modifier k n) !! LabelBeforeReboot) →
  fields_Matches wantsRebootSelector (Annotations (checkAfterReboot_modifier k n)) = true.
Proof.
  simpl_node. rewrite lookup_delete_ne by discriminate. intros H Hl. specialize (H Hl).
  apply wantsRebootSelector_Matches in H as (Hn & Hp & Ho & Hi).
  apply wantsRebootSelector_Matches.
  rewrite lookup_insert_eq, !lookup_insert_ne by discriminate.
  rewrite !lookup_deleteAll_notin
    by (apply after_not_protocol; unfold protocolAnnotations; set_solver).
  repeat split; try assumption. discriminate.
Qed.

Lemma markAfter_keeps_wants n :
  (is_Some (Labels n !! LabelBeforeReboot) →
     fields_Matches wantsRebootSelector (Annotations n) = true) →
  is_Some (Labels (markAfter_modifier k n) !! LabelBeforeReboot) →
  fields_Matches wantsRebootSelector (Annotations (markAfter_modifier k n)) = true.
Proof.
  simpl_node. rewrite lookup_insert_ne by discriminate. rewrite wants_deleteAll_after. auto.
Qed.

Lemma markAfter_not_done n : postCheckDone k (markAfter_modifier k n) = false.
Proof.
  unfold postCheckDone. apply andb_false_iff. right.
  apply hasAllAnnotations_deleted; [apply Hown|].
  intros a Ha. simpl_node. apply lookup_deleteAll_in, Ha.
Qed.

Lemma markAfter_not_justRebooted n : isJustRebooted (markAfter_modifier k n) = false.
Proof.
  unfold isJustRebooted. apply andb_false_iff. right.
  rewrite notAfterRebootReq_Matches. simpl_node.
  rewrite lookup_insert_eq, bool_decide_eq_true_2 by reflexivity. reflexivity.
Qed.

Lemma checkBefore_keeps_notDone n :
  postCheckDone k n = false → postCheckDone k (checkBeforeReboot_modifier k n) = false.
Proof.
  unfold postCheckDone. rewrite !afterRebootReq_Matches. simpl_node.
  rewrite lookup_delete_ne by discriminate.
  destruct (bool_decide (Labels n !! LabelAfterReboot = Some True_)); cbn [andb]; [|auto].
  apply hasAllAnnotations_mono. intros a Ha. simpl_node.
  assert (a ≠ AnnotationOkToReboot).
  { intros ->. eapply after_not_protocol; [|exact Ha]. unfold protocolAnnotations. set_solver. }
  rewrite lookup_insert_ne by congruence. rewrite lookup_deleteAll.
  case_bool_decide; [discriminate|auto].
Qed.

Lemma checkBefore_not_justRebooted n :
  fields_Matches wantsRebootSelector (Annotations n) = true →
  isJustRebooted (checkBeforeReboot_modifier k n) = false.
Proof.
  intros (Hn & _)%wantsRebootSelector_Matches.
  unfold isJustRebooted. apply andb_false_iff. left. apply not_true_is_false.
  rewrite justRebootedSelector_Matches. simpl_node. intros (_ & Hneeded & _).
  rewrite lookup_insert_ne in Hneeded by discriminate.
  rewrite lookup_deleteAll_notin in Hneeded
    by (apply before_not_protocol; unfold protocolAnnotations; set_solver).
  rewrite Hn in Hneeded. discriminate.
Qed.

Lemma checkBefore_not_done n : preCheckDone k (checkBeforeReboot_modifier k n) = false.
Proof.
  unfold preCheckDone. rewrite beforeRebootReq_Matches. simpl_node.
  rewrite lookup_delete_eq, bool_decide_eq_false_2 by discriminate. reflexivity.
Qed.

(** The first four phases leave every node settled. *)
Lemma settled_passNode n : settled k (passNode k n).
Proof.
  unfold passNode.
  set (n1 := cleanupState_modifier k n).
  pose proof (cleanup_settles n) as H1. cbv zeta in H1. fold n1 in H1.
  set (n2 := if postCheckDone k n1 then checkAfterReboot_modifier k n1 else n1).
  assert (H2 : (is_Some (Labels n2 !! LabelBeforeReboot) →
                fields_Matches wantsRebootSelector (Annotations n2) = true)
               ∧ postCheckDone k n2 = false).
  { subst n2. destruct (postCheckDone k n1) eqn:Hd; [|auto]. split.
    - apply checkAfter_keeps_wants, H1.
    - unfold postCheckDone. rewrite afterRebootReq_Matches. simpl_node.
      rewrite lookup_delete_eq, bool_decide_eq_false_2 by discriminate. reflexivity. }
  destruct H2 as [H2a H2b].
  set (n3 := if isJustRebooted n2 then markAfter_modifier k n2 else n2).
  assert (H3 : (is_Some (Labels n3 !! LabelBeforeReboot) →
                fields_Matches wantsRebootSelector (Annotations n3) = true)
               ∧ postCheckDone k n3 = false ∧ isJustRebooted n3 = false).
  { subst n3. destruct (isJustRebooted n2) eqn:Hj; [|auto]. split; [|split].
    - apply markAfter_keeps_wants, H2a.
    - apply markAfter_not_done.
    - apply markAfter_not_justRebooted. }
  destruct H3 as (H3a & H3b & H3c).
  destruct (preCheckDone k n3) eqn:Hd; [|repeat split; assumption].
  assert (Hw : fields_Matches wantsRebootSelector (Annotations n3) = true).
  { apply H3a. unfold preCheckDone in Hd. apply andb_true_iff in Hd as [Hl _].
    rewrite beforeRebootReq_Matches in Hl. apply bool_decide_eq_true_1 in Hl.
    rewrite Hl. eauto. }
  split; [|split; [|split]].
  - simpl_node. rewrite lookup_delete_eq. intros [? ?]. discriminate.
  - apply checkBefore_keeps_notDone, H3b.
  - apply checkBefore_not_justRebooted, Hw.
  - apply checkBefore_not_done.
Qed.

(** Labelling a settled node that wants to reboot keeps it settled. *)
Lemma settled_markBefore n :
  settled k n → isWantsReboot n = true → settled k (markBefore_modifier k n).
Proof.
  intros (S1 & S2 & S3 & S4) Hw. unfold isWantsReboot in Hw.
  apply andb_true_iff in Hw as [Hw _].
  split; [|split; [|split]].
  - intros _. simpl_node. rewrite wants_deleteAll_before. exact Hw.
  - revert S2. unfold postCheckDone. rewrite !afterRebootReq_Matches. simpl_node.
    rewrite lookup_insert_ne by discriminate.
    destruct (bool_decide (Labels n !! LabelAfterReboot = Some True_)); cbn [andb]; [|auto].
    apply hasAllAnnotations_mono. intros a Ha. simpl_node. rewrite lookup_deleteAll.
    case_bool_decide; [discriminate|auto].
  - unfold isJustRebooted. apply andb_false_iff. left. simpl_node.
    rewrite just_deleteAll_before. apply not_true_is_false.
    rewrite justRebootedSelector_Matches. intros (Hok & _).
    apply wantsRebootSelector_Matches in Hw as (_ & _ & Hnok & _). contradiction.
  - unfold preCheckDone. apply andb_false_iff. right.
    apply hasAllAnnotations_deleted; [apply Hown|].
    intros a Ha. simpl_node. apply lookup_deleteAll_in, Ha.
Qed.
End Settled.

(** On a settled node the first four phases change nothing. *)
Lemma passNode_settled k n : settled k n → passNode k n = n.
Proof.
  intros (S1 & S2 & S3 & S4). unfold passNode.
  assert (H1 : cleanupState_modifier k n = n).
  { unfold cleanupState_modifier. case_bool_decide as Hl; [|reflexivity].
    rewrite (S1 Hl). reflexivity. }
  rewrite H1, S2, S3, S4. reflexivity.
Qed.

Lemma isWantsReboot_markBefore k n : isWantsReboot (markBefore_modifier k n) = false.
Proof.
  unfold isWantsReboot. apply andb_false_iff. right.
  rewrite notBeforeRebootReq_Matches. simpl_node.
  rewrite lookup_insert_eq, bool_decide_eq_true_2 by reflexivity. reflexivity.
Qed.

(** ** A second pass *)

Lemma Forall_settled_beforeAdmission k st :
  ownChecks k → Forall (settled k) (beforeAdmission k st).
Proof.
  intros Hown. rewrite beforeAdmission_passNode. apply Forall_fmap, Forall_forall.
  intros n _. apply settled_passNode, Hown.
Qed.

Lemma beforeAdmission_settled k st :
  Forall (settled k) st → beforeAdmission k st = st.
Proof.
  intros Hall. rewrite beforeAdmission_passNode. rewrite <- (list_fmap_id st) at 2.
  apply list_fmap_ext. intros i n Hn. apply passNode_settled.
  rewrite Forall_forall in Hall. apply Hall. eapply list_elem_of_lookup_2, Hn.
Qed.

Lemma elem_of_by_name items st n :
  distinctNames st → items ⊆ st → n ∈ st → Name n ∈ Name <$> items → n ∈ items.
Proof.
  intros Hnd Hsub Hn (m & Heq & Hm)%list_elem_of_fmap.
  assert (n = m) by (apply (distinctNames_inj st); auto). congruence.
Qed.

Lemma Forall_settled_chosen k st :
  ownChecks k → distinctNames st → Forall (settled k) st →
  Forall (settled k) (applyAtAll (chosenNodes st) (markBefore_modifier k) st).
Proof.
  intros Hown Hnd Hall. unfold applyAtAll. apply Forall_fmap, Forall_forall.
  intros n Hn. cbn. rewrite Forall_forall in Hall.
  case_bool_decide as Hin; [|apply Hall, Hn].
  apply settled_markBefore; [exact Hown|apply Hall, Hn|].
  apply (chosenNodes_wantsReboot st).
  apply (elem_of_by_name _ st); [exact Hnd| |exact Hn|exact Hin].
  apply sublist_subseteq, chosenNodes_sublist.
Qed.

Lemma applyAtAll_nil f st : applyAtAll [] f st = st.
Proof.
  unfold applyAtAll. rewrite <- (list_fmap_id st) at 2. apply list_fmap_ext.
  intros i n _. rewrite bool_decide_eq_false_2; [reflexivity|]. cbn. apply not_elem_of_nil.
Qed.

Lemma filter_mapIf_nil (Q : Node → bool) f st :
  (∀ n, Q (f n) = false) → List.filter Q (mapIf Q f st) = [].
Proof.
  intros HQ. induction st as [|n st IH]; [reflexivity|].
  unfold mapIf in *. rewrite fmap_cons. cbn [List.filter].
  destruct (Q n) eqn:Hn; [rewrite HQ|rewrite Hn]; exact IH.
Qed.

(** After an admission phase, a second one finds room for nobody or nobody
    to label. *)
Lemma chosenNodes_again k st :
  distinctNames st → 0 ≤ remainingRebootingCapacity st →
  let st1 := applyAtAll (chosenNodes st) (markBefore_modifier k) st in
  0 ≤ remainingRebootingCapacity st1 ∧ chosenNodes st1 = [].
Proof.
  intros Hnd Hcap st1.
  assert (Hcap1 : remainingRebootingCapacity st1
                  = remainingRebootingCapacity st - Z.of_nat (length (chosenNodes st))).
  { unfold remainingRebootingCapacity. rewrite !length_rebootingNodes.
    subst st1. rewrite sum_multiplicity_chosen by exact Hnd. lia. }
  pose proof (length_chosenNodes st Hcap) as Hlen.
  split; [lia|].
  destruct (decide (length (nodesRequiringReboot st)
                    ≤ Z.to_nat (remainingRebootingCapacity st))%nat) as [Hall|Hsome].
  - assert (Hch : chosenNodes st = List.filter isWantsReboot st).
    { unfold chosenNodes. rewrite take_ge by exact Hall. apply nodesRequiringReboot_filter. }
    unfold chosenNodes at 1. rewrite nodesRequiringReboot_filter. subst st1.
    rewrite Hch, applyAtAll_filter by exact Hnd.
    rewrite filter_mapIf_nil by apply isWantsReboot_markBefore. apply take_nil.
  - assert (Hfull : length (chosenNodes st) = Z.to_nat (remainingRebootingCapacity st)).
    { unfold chosenNodes. rewrite length_take. lia. }
    unfold chosenNodes at 1. rewrite Hcap1, Hfull.
    replace (Z.to_nat _) with 0%nat by lia. reflexivity.
Qed.

(** C8, as amended.  Let the configured checks be annotations of their own
    (none of the four protocol annotations) with at least one before and
    one after the reboot, and let the names of the store be distinct.  If a
    pass goes through, a second pass on its result goes through and changes
    nothing, provided its admission phase is skipped by the window check
    whenever that of the first pass was. *)
Theorem process_twice (k : Kontroller) (now1 now2 now1' now2' : Time) (st st1 : list Node) :
  distinctNames st → ownChecks k →
  (insideRebootWindow k now1' now2' = true → insideRebootWindow k now1 now2 = true) →
  process k now1 now2 st = (Ok tt, st1) →
  process k now1' now2' st1 = (Ok tt, st1).
Proof.
  intros Hnd Hown Hwin. rewrite process_phases by exact Hnd.
  pose proof (distinctNames_beforeAdmission k st Hnd) as Hnd4.
  pose proof (Forall_settled_beforeAdmission k st Hown) as Hall4.
  set (st4 := beforeAdmission k st) in *.
  destruct (insideRebootWindow k now1 now2) eqn:Hin1.
  - intros Hrun. apply markBeforeReboot_bound in Hrun as (-> & Hcap & _); [|assumption..].
    pose proof (Forall_settled_chosen k st4 Hown Hnd4 Hall4) as Hall1.
    destruct (chosenNodes_again k st4 Hnd4 Hcap) as [Hcap1 Hnone].
    set (st1 := applyAtAll (chosenNodes st4) (markBefore_modifier k) st4) in *.
    assert (Hnd1 : distinctNames st1).
    { unfold distinctNames. subst st1. rewrite names_applyAtAll; [exact Hnd4|].
      apply preservesName_mark_modifier. }
    rewrite process_phases, beforeAdmission_settled by assumption.
    destruct (insideRebootWindow k now1' now2') eqn:Hin2.
    + rewrite markBeforeReboot_inside by assumption.
      destruct (Z.ltb_spec (remainingRebootingCapacity st1) 0) as [Hneg|_]; [lia|].
      rewrite Hnone, applyAtAll_nil. reflexivity.
    + apply markBeforeReboot_outside, Hin2.
  - rewrite markBeforeReboot_outside by exact Hin1. intros [= <-].
    rewrite process_phases, beforeAdmission_settled by assumption.
    apply markBeforeReboot_outside.
    destruct (insideRebootWindow k now1' now2'); [|reflexivity].
    symmetry. apply Hwin. reflexivity.
Qed.

(** C8 at work: one gate before and one after the reboot; the first pass
    labels node a and releases node b, the second changes nothing. *)
Lemma process_twice_witness :
  let k := {| beforeRebootAnnotations := ["gate"]; afterRebootAnnotations := ["healthy"];
              rebootWindow := None |} in
  let st := [mkNode "a" [] [(AnnotationRebootNeeded, True_)];
             mkNode "b" [(LabelAfterReboot, True_)]
               [(AnnotationOkToReboot, True_); (AnnotationRebootNeeded, False_);
                (AnnotationRebootInProgress, False_); ("healthy", True_)]] in
  let st1 := [mkNode "a" [(LabelBeforeReboot, True_)] [(AnnotationRebootNeeded, True_)];
              mkNode "b" []
                [(AnnotationOkToReboot, False_); (AnnotationRebootNeeded, False_);
                 (AnnotationRebootInProgress, False_)]] in
  (distinctNames st ∧ ownChecks k ∧ process k 0 0 st = (Ok tt, st1))
  ∧ process k 30 30 st1 = (Ok tt, st1).
Proof.
  intros k st st1.
  assert (Hnd : distinctNames st) by (apply (bool_decide_unpack _); vm_compute; exact I).
  assert (Hown : ownChecks k) by (apply (bool_decide_unpack _); vm_compute; exact I).
  assert (Hrun : process k 0 0 st = (Ok tt, st1)) by (vm_compute; reflexivity).
  split; [split; [exact Hnd|split; [exact Hown|exact Hrun]]|].
  exact (process_twice k 0 0 30 30 st st1 Hnd Hown (λ _, eq_refl) Hrun).
Defined.

(** C8, counterexample.  No checks configured: the first pass labels the
    node before-reboot, the second one releases it with reboot-ok=true. *)
Lemma process_twice_counterexample :
  let k := {| beforeRebootAnnotations := []; afterRebootAnnotations := [];
              rebootWindow := None |} in
  let st := [mkNode "a" [] [(AnnotationRebootNeeded, True_)]] in
  let st1 := [mkNode "a" [(LabelBeforeReboot, True_)] [(AnnotationRebootNeeded, True_)]] in
  let st2 := [mkNode "a" [] [(AnnotationOkToReboot, True_); (AnnotationRebootNeeded, True_)]] in
  process k 0 0 st = (Ok tt, st1)
  ∧ process k 0 0 st1 = (Ok tt, st2)
  ∧ st2 ≠ st1.
Proof.
  cbv zeta. split; [vm_compute; reflexivity|]. split; [vm_compute; reflexivity|].
  intros H. apply (f_equal (fmap (λ n, Labels n !! LabelBeforeReboot))) in H.
  vm_compute in H. discriminate H.
Qed.

(** ** Scenarios *)

(** The full cycle of one node, no checks and no window configured: the
    node asks for a reboot, is labelled, gets reboot-ok, reboots, is
    labelled after-reboot and is released; four passes. *)
Example full_cycle :
  let k := {| beforeRebootAnnotations := []; afterRebootAnnotations := [];
              rebootWindow := None |} in
  let asked := [mkNode "a" [] [(AnnotationRebootNeeded, True_)]] in
  let labelled := [mkNode "a" [(LabelBeforeReboot, True_)] [(AnnotationRebootNeeded, True_)]] in
  let granted := [mkNode "a" [] [(AnnotationOkToReboot, True_);
                                 (AnnotationRebootNeeded, True_)]] in
  let rebooted := [mkNode "a" [] [(AnnotationOkToReboot, True_);
                                  (AnnotationRebootNeeded, False_);
                                  (AnnotationRebootInProgress, False_)]] in
  let checking := [mkNode "a" [(LabelAfterReboot, True_)]
                     [(AnnotationOkToReboot, True_); (AnnotationRebootNeeded, False_);
                      (AnnotationRebootInProgress, False_)]] in
  let released := [mkNode "a" [] [(AnnotationOkToReboot, False_);
                                  (AnnotationRebootNeeded, False_);
                                  (AnnotationRebootInProgress, False_)]] in
  process k 0 0 asked = (Ok tt, labelled)
  ∧ process k 30 30 labelled = (Ok tt, granted)
  ∧ applyAt "a" (setAnnotation AnnotationRebootInProgress False_)
      (applyAt "a" (setAnnotation AnnotationRebootNeeded False_) granted) = rebooted
  ∧ process k 60 60 rebooted = (Ok tt, checking)
  ∧ process k 90 90 checking = (Ok tt, released)
  ∧ Forall (λ n, isIdle n = true) released.
Proof.
  cbv zeta. repeat split; try (vm_compute; reflexivity).
  repeat constructor.
Qed.

(** A pause set during the pre-check: the next pass takes the label and
    the check annotation away, leaves reboot-ok alone, and the slot goes to
    the next node. *)
Example pause_cancels_pre_check :
  let k := {| beforeRebootAnnotations := ["gate"]; afterRebootAnnotations := ["healthy"];
              rebootWindow := None |} in
  process k 0 0
    [mkNode "a" [(LabelBeforeReboot, True_)]
       [(AnnotationRebootNeeded, True_); (AnnotationRebootPaused, True_); ("gate", False_)];
     mkNode "b" [] [(AnnotationRebootNeeded, True_)]]
  = (Ok tt,
     [mkNode "a" [] [(AnnotationRebootNeeded, True_); (AnnotationRebootPaused, True_)];
      mkNode "b" [(LabelBeforeReboot, True_)] [(AnnotationRebootNeeded, True_)]]).
Proof. vm_compute. reflexivity. Qed.

(** Two labelled nodes and an admission phase that runs: the capacity is
    negative and the pass ends in the panic of [make]. *)
Example negative_capacity_panics :
  let k := {| beforeRebootAnnotations := ["gate"]; afterRebootAnnotations := [];
              rebootWindow := None |} in
  let st := [mkNode "a" [(LabelBeforeReboot, True_)] [(AnnotationRebootNeeded, True_)];
             mkNode "b" [(LabelBeforeReboot, True_)] [(AnnotationRebootNeeded, True_)]] in
  remainingRebootingCapacity st = -1
  ∧ process k 0 0 st = (Panic "makeslice: cap out of range", st).
Proof. cbv zeta. split; vm_compute; reflexivity. Qed.

(** The mutator fails on a name the store does not hold, and a loop stops
    at the first failure, keeping the updates made before it. *)
Example update_of_missing_node :
  let k := {| beforeRebootAnnotations := []; afterRebootAnnotations := [];
              rebootWindow := None |} in
  let a := mkNode "a" [(LabelBeforeReboot, True_)] [(AnnotationRebootNeeded, True_)] in
  let gone := mkNode "gone" [(LabelBeforeReboot, True_)] [] in
  checkBeforeReboot_loop k [a; gone; a] [a]
  = (Err (Errorf "updating node"
            (Errorf "getting node" (StatusError StatusReasonNotFound "gone"))),
     [checkBeforeReboot_modifier k a]).
Proof. vm_compute. reflexivity. Qed.

(** A retried function that itself returns [wait.ErrWaitTimeout]:
    [RetryOnConflict] takes that error for the timeout of its own loop and
    returns the last conflict instead, here none.  The attempt of the node
    mutator never returns it. *)
Example sentinel_taken_for_timeout :
  RetryOnConflict DefaultRetry (scripted 0 (Some ErrWaitTimeout)) 0%nat = (None, 1%nat)
  ∧ RetryOnConflict DefaultRetry (scripted 2 (Some ErrWaitTimeout)) 0%nat
    = (Some (StatusError StatusReasonConflict "object has been modified"), 3%nat).
Proof. split; reflexivity. Qed.

(** * Further properties *)

(** ** The retry helpers *)

Section MoreRetryFacts.
Context {S : Type}.
Implicit Types (fn : S → option error * S) (s : S).

Lemma conflictsUpTo_unfold fn (n : nat) s :
  conflictsUpTo fn (Datatypes.S n) s
  = match fn s with
    | (Some e, s') => IsConflict e && conflictsUpTo fn n s'
    | (None, _) => false
    end.
Proof. reflexivity. Qed.

Lemma conflictsUpTo_succ fn (n : nat) s :
  conflictsUpTo fn (Datatypes.S n) s
  = conflictsUpTo fn n s
    && match attempt fn n s with Some e => IsConflict e | None => false end.
Proof.
  revert s. induction n as [|n IH]; intros s.
  - cbn [conflictsUpTo]. unfold attempt. cbn [stateAfter].
    destruct (fn s) as [[e|] s']; cbn; [apply andb_true_r|reflexivity].
  - rewrite (conflictsUpTo_unfold fn (Datatypes.S n) s), (conflictsUpTo_unfold fn n s).
    unfold attempt. cbn [stateAfter].
    destruct (fn s) as [[e|] s'] eqn:Hfn; cbn [snd]; [|reflexivity].
    rewrite IH. unfold attempt. rewrite andb_assoc. reflexivity.
Qed.

(** Either the first [n] calls all conflict, or there is a first call that
    does not. *)
Lemma first_other_call fn (n : nat) s :
  conflictsUpTo fn n s = true
  ∨ ∃ j : nat, (j < n)%nat ∧ conflictsUpTo fn j s = true
         ∧ match attempt fn j s with Some e => IsConflict e = false | None => True end.
Proof.
  induction n as [|n IH]; [left; reflexivity|].
  destruct IH as [Hall|(k & Hk & Hc & Ha)].
  - rewrite conflictsUpTo_succ, Hall. cbn [andb].
    destruct (attempt fn n s) as [e|] eqn:Ha.
    + destruct (IsConflict e) eqn:He; [left; reflexivity|].
      right. exists n. rewrite Ha. auto.
    + right. exists n. rewrite Ha. auto.
  - right. exists k. split; [lia|]. auto.
Qed.

Lemma conflictsUpTo_le fn (n m : nat) s :
  (m ≤ n)%nat → conflictsUpTo fn n s = true → conflictsUpTo fn m s = true.
Proof.
  intros Hle. induction Hle as [|n Hle IH]; [auto|].
  rewrite conflictsUpTo_succ. intros [H _]%andb_true_iff. auto.
Qed.

Lemma lastConflict_None_or_attempt fn (n : nat) s :
  conflictsUpTo fn n s = true →
  lastConflict fn n s None = None
  ∨ ∃ (i : nat) e, (i < n)%nat ∧ attempt fn i s = Some e ∧ IsConflict e = true
           ∧ lastConflict fn n s None = Some e.
Proof.
  destruct n as [|n]; [left; reflexivity|]. intros Hc. right.
  destruct (lastConflict_IsConflict fn n s Hc) as (e & He & Hconf).
  exists n, e. cbn [lastConflict]. auto.
Qed.

(** The loop of [RetryOnError]: it stops at the first call that succeeds and
    never hands an error on; the enclosing [lastErr] stays as it was. *)
Lemma ExponentialBackoff_loop_retryError fn (steps : nat) : ∀ s lastErr,
  ∃ m : nat, (m ≤ steps)%nat
    ∧ failsUpTo fn (m - 1) s = true
    ∧ ((ExponentialBackoff_loop steps (retryErrorCondition fn) (s, lastErr)
        = (None, (stateAfter fn m s, lastErr))
        ∧ ∃ j : nat, m = Datatypes.S j ∧ attempt fn j s = None)
       ∨ (ExponentialBackoff_loop steps (retryErrorCondition fn) (s, lastErr)
          = (Some ErrWaitTimeout, (stateAfter fn m s, lastErr))
          ∧ m = steps ∧ failsUpTo fn steps s = true)).
Proof.
  induction steps as [|steps IH]; intros s lastErr.
  - exists 0%nat. split; [lia|]. split; [reflexivity|]. right. auto.
  - cbn [ExponentialBackoff_loop retryErrorCondition].
    destruct (fn s) as [[e|] s'] eqn:Hfn.
    + rewrite bool_decide_eq_false_2 by discriminate.
      destruct (IH s' lastErr) as (m & Hm & Hfail & Hcase).
      exists (Datatypes.S m). split; [lia|].
      assert (Hst : stateAfter fn (Datatypes.S m) s = stateAfter fn m s')
        by (cbn [stateAfter]; rewrite Hfn; reflexivity).
      rewrite Hst. split.
      * destruct m as [|m]; [reflexivity|].
        replace (Datatypes.S (Datatypes.S m) - 1)%nat with (Datatypes.S m) by lia.
        cbn [failsUpTo]. rewrite Hfn.
        replace (Datatypes.S m - 1)%nat with m in Hfail by lia. exact Hfail.
      * destruct Hcase as [(Heq & j & -> & Hj)|(Heq & -> & Hall)].
        -- left. split; [exact Heq|]. exists (Datatypes.S j). split; [reflexivity|].
           unfold attempt in *. cbn [stateAfter]. rewrite Hfn. exact Hj.
        -- right. split; [exact Heq|]. split; [reflexivity|].
           cbn [failsUpTo]. rewrite Hfn. exact Hall.
    + rewrite bool_decide_eq_true_2 by reflexivity.
      exists 1%nat. split; [lia|]. split; [reflexivity|]. left.
      cbn [stateAfter]. rewrite Hfn. split; [reflexivity|].
      exists 0%nat. split; [reflexivity|]. unfold attempt. cbn [stateAfter].
      rewrite Hfn. reflexivity.
Qed.
End MoreRetryFacts.

(** X1.  [RetryOnError] never returns an error.  It calls the function
    until a call succeeds or the steps are used up, at most [Steps] times,
    and returns nil in both cases: when every call has failed, the error of
    the last call is lost, because the closure assigns it to a variable of
    its own. *)
Theorem RetryOnError_returns_nil {S : Type} (backoff : Backoff)
    (fn : S → option error * S) (s : S) :
  ∃ m : nat, (m ≤ Z.to_nat (Steps backoff))%nat
    ∧ RetryOnError backoff fn s = (None, stateAfter fn m s)
    ∧ failsUpTo fn (m - 1) s = true
    ∧ ((∃ j : nat, m = Datatypes.S j ∧ attempt fn j s = None)
       ∨ (m = Z.to_nat (Steps backoff) ∧ failsUpTo fn m s = true)).
Proof.
  unfold RetryOnError, ExponentialBackoff.
  destruct (ExponentialBackoff_loop_retryError fn (Z.to_nat (Steps backoff)) s None)
    as (m & Hm & Hfail & [(-> & Hj)|(-> & -> & Hall)]).
  - exists m. rewrite decide_False by discriminate. auto.
  - exists (Z.to_nat (Steps backoff)). rewrite decide_True by reflexivity.
    split; [lia|]. split; [reflexivity|]. split; [exact Hfail|]. right. auto.
Qed.

(** X2.  [RetryOnConflict], with any backoff, calls the function at most
    [Steps] times and calls it again only after a conflict.  What it returns
    is nil or an error that one of the calls returned, and never
    [wait.ErrWaitTimeout]. *)
Theorem RetryOnConflict_calls {S : Type} (backoff : Backoff)
    (fn : S → option error * S) (s : S) :
  ∃ m : nat, (m ≤ Z.to_nat (Steps backoff))%nat
    ∧ snd (RetryOnConflict backoff fn s) = stateAfter fn m s
    ∧ conflictsUpTo fn (m - 1) s = true
    ∧ fst (RetryOnConflict backoff fn s) ≠ Some ErrWaitTimeout
    ∧ (fst (RetryOnConflict backoff fn s) = None
       ∨ ∃ i : nat, (i < m)%nat ∧ fst (RetryOnConflict backoff fn s) = attempt fn i s).
Proof.
  destruct (first_other_call fn (Z.to_nat (Steps backoff)) s) as [Hall|(k & Hk & Hc & Ha)].
  - exists (Z.to_nat (Steps backoff)).
    rewrite (RetryOnConflict_exhausted backoff fn s Hall). cbn [fst snd].
    split; [lia|]. split; [reflexivity|].
    split; [apply (conflictsUpTo_le fn (Z.to_nat (Steps backoff))); [lia|exact Hall]|].
    destruct (lastConflict_None_or_attempt fn _ s Hall)
      as [->|(i & e & Hi & Hatt & Hconf & ->)].
    + split; [discriminate|left; reflexivity].
    + split; [intros [= ->]; discriminate|]. right. exists i. rewrite Hatt. auto.
  - exists (Datatypes.S k).
    pose proof (RetryOnConflict_after_conflicts backoff fn k s Hk Hc) as Hres.
    replace (Datatypes.S k - 1)%nat with k by lia.
    split; [lia|].
    destruct (attempt fn k s) as [e|] eqn:Hatt.
    + rewrite (Hres Ha). cbn [fst snd]. split; [reflexivity|]. split; [exact Hc|].
      destruct (decide (e = ErrWaitTimeout)) as [->|Hne].
      * destruct (lastConflict_None_or_attempt fn k s Hc)
          as [->|(i & e & Hi & Hatt' & Hconf & ->)].
        -- split; [discriminate|left; reflexivity].
        -- split; [intros [= ->]; discriminate|]. right. exists i. rewrite Hatt'.
           split; [lia|reflexivity].
      * split; [congruence|]. right. exists k. rewrite Hatt. auto.
    + rewrite Hres. cbn [fst snd]. split; [reflexivity|]. split; [exact Hc|].
      split; [discriminate|left; reflexivity].
Qed.

(** X3.  With a backoff that has no step left, zero or negative, both
    helpers report success without calling the function once. *)
Theorem retry_without_steps {S : Type} (backoff : Backoff)
    (fn : S → option error * S) (s : S) :
  Steps backoff ≤ 0 →
  RetryOnConflict backoff fn s = (None, s) ∧ RetryOnError backoff fn s = (None, s).
Proof.
  intros Hsteps. unfold RetryOnConflict, RetryOnError, ExponentialBackoff.
  replace (Z.to_nat (Steps backoff)) with 0%nat by lia. split; reflexivity.
Qed.

(** X3 at work: a function that would fail is not even tried. *)
Lemma retry_without_steps_witness :
  let backoff := {| Steps := 0; Duration := 10 * Millisecond; Factor := 1; Jitter := 0 |} in
  Steps backoff ≤ 0
  ∧ RetryOnConflict backoff (flaky 9) 0%nat = (None, 0%nat)
  ∧ RetryOnError backoff (flaky 9) 0%nat = (None, 0%nat).
Proof.
  intros backoff. split; [cbn; lia|]. apply (retry_without_steps backoff (flaky 9) 0%nat).
  cbn. lia.
Defined.

(** ** The phases, one by one *)

Lemma isJustRebooted_lookup n :
  isJustRebooted n = true
  ↔ (Annotations n !! AnnotationOkToReboot = Some True_
     ∧ Annotations n !! AnnotationRebootNeeded = Some False_
     ∧ Annotations n !! AnnotationRebootInProgress = Some False_)
    ∧ Labels n !! LabelAfterReboot ≠ Some True_.
Proof.
  unfold isJustRebooted. rewrite andb_true_iff, justRebootedSelector_Matches.
  rewrite notAfterRebootReq_Matches, negb_true_iff, bool_decide_eq_false. reflexivity.
Qed.

Lemma isWantsReboot_lookup n :
  isWantsReboot n = true
  ↔ (Annotations n !! AnnotationRebootNeeded = Some True_
     ∧ Annotations n !! AnnotationRebootPaused ≠ Some True_
     ∧ Annotations n !! AnnotationOkToReboot ≠ Some True_
     ∧ Annotations n !! AnnotationRebootInProgress ≠ Some True_)
    ∧ Labels n !! LabelBeforeReboot ≠ Some True_.
Proof.
  unfold isWantsReboot. rewrite andb_true_iff, wantsRebootSelector_Matches.
  rewrite notBeforeRebootReq_Matches, negb_true_iff, bool_decide_eq_false. reflexivity.
Qed.

(** X4.  On a store with distinct names [markAfterReboot] succeeds.  A node
    with reboot-ok "true", reboot-needed and reboot-in-progress "false" and
    no after-reboot=true label gets that label and loses the configured
    post-check annotations; nothing else of it changes.  Every other node is
    left as it is. *)
Theorem markAfterReboot_spec (k : Kontroller) (st : list Node) :
  distinctNames st →
  ∃ st', markAfterReboot k st = (Ok tt, st') ∧ length st' = length st
    ∧ ∀ (i : nat) n, st !! i = Some n →
        ∃ n', st' !! i = Some n' ∧ Name n' = Name n
          ∧ (((Annotations n !! AnnotationOkToReboot = Some True_
               ∧ Annotations n !! AnnotationRebootNeeded = Some False_
               ∧ Annotations n !! AnnotationRebootInProgress = Some False_)
              ∧ Labels n !! LabelAfterReboot ≠ Some True_) →
             Labels n' !! LabelAfterReboot = Some True_
             ∧ (∀ l, l ≠ LabelAfterReboot → Labels n' !! l = Labels n !! l)
             ∧ (∀ a, Annotations n' !! a
                     = if bool_decide (a ∈ afterRebootAnnotations k)
                       then None else Annotations n !! a))
          ∧ (¬ ((Annotations n !! AnnotationOkToReboot = Some True_
                 ∧ Annotations n !! AnnotationRebootNeeded = Some False_
                 ∧ Annotations n !! AnnotationRebootInProgress = Some False_)
                ∧ Labels n !! LabelAfterReboot ≠ Some True_) → n' = n).
Proof.
  intros Hnd. eexists. split; [apply markAfterReboot_map, Hnd|].
  split; [unfold mapIf; apply length_fmap|].
  intros i n Hi. eexists. split; [apply lookup_mapIf, Hi|].
  destruct (isJustRebooted n) eqn:Hj.
  - split; [reflexivity|]. split; [|intros Hnot; exfalso; apply Hnot, isJustRebooted_lookup, Hj].
    intros _. simpl_node. split; [apply lookup_insert_eq|].
    split; [intros l Hl; apply lookup_insert_ne; congruence|].
    intros a. apply lookup_deleteAll.
  - split; [reflexivity|]. split; [|reflexivity].
    intros Hc. apply isJustRebooted_lookup in Hc. congruence.
Qed.

(** X4 at work: the rebooted node a is labelled and loses its stale check,
    the node b, still rebooting, is left alone. *)
Lemma markAfterReboot_spec_witness :
  let k := {| beforeRebootAnnotations := []; afterRebootAnnotations := ["healthy"];
              rebootWindow := None |} in
  let st := [mkNode "a" []
               [(AnnotationOkToReboot, True_); (AnnotationRebootNeeded, False_);
                (AnnotationRebootInProgress, False_); ("healthy", True_)];
             mkNode "b" []
               [(AnnotationOkToReboot, True_); (AnnotationRebootNeeded, True_);
                (AnnotationRebootInProgress, True_)]] in
  distinctNames st
  ∧ markAfterReboot k st
    = (Ok tt,
       [mkNode "a" [(LabelAfterReboot, True_)]
          [(AnnotationOkToReboot, True_); (AnnotationRebootNeeded, False_);
           (AnnotationRebootInProgress, False_)];
        mkNode "b" []
          [(AnnotationOkToReboot, True_); (AnnotationRebootNeeded, True_);
           (AnnotationRebootInProgress, True_)]]).
Proof.
  intros k st.
  assert (Hnd : distinctNames st) by (apply (bool_decide_unpack _); vm_compute; exact I).
  split; [exact Hnd|].
  destruct (markAfterReboot_spec k st Hnd) as (st' & Hrun & _ & _).
  rewrite Hrun. f_equal. unfold markAfterReboot in Hrun. vm_compute in Hrun.
  injection Hrun as <-. vm_compute. reflexivity.
Defined.

(** ** Who is chosen *)

Lemma distinctNames_NoDup st : distinctNames st → NoDup st.
Proof. apply NoDup_fmap_1. Qed.

(** Membership in the first [c] nodes that satisfy [Q], by position. *)
Lemma elem_of_take_filter (Q : Node → bool) st : ∀ (c i : nat) n,
  NoDup st → st !! i = Some n →
  (n ∈ take c (List.filter Q st)
   ↔ Q n = true ∧ (length (List.filter Q (take i st)) < c)%nat).
Proof.
  induction st as [|x st IH]; intros c i n Hnd Hi; [discriminate|].
  apply NoDup_cons in Hnd as [Hx Hnd].
  destruct i as [|i].
  - injection Hi as ->. cbn [take List.filter length]. destruct (Q n) eqn:HQ.
    + destruct c as [|c]; cbn [take].
      * split; [intros H; inversion H|intros [_ H]; lia].
      * split; [intros _; split; [reflexivity|lia]|intros _; left].
    + split; [|intros [H _]; discriminate].
      intros Hin. apply subseteq_take in Hin.
      apply elem_of_filter_bool in Hin as [_ Hin]. congruence.
  - cbn in Hi. assert (Hne : n ≠ x).
    { intros ->. apply Hx. eapply list_elem_of_lookup_2, Hi. }
    cbn [take List.filter]. destruct (Q x) eqn:HQ.
    + destruct c as [|c]; cbn [take length].
      * split; [intros H; inversion H|intros [_ H]; lia].
      * rewrite elem_of_cons, (IH c i n Hnd Hi). split.
        -- intros [?|[? ?]]; [contradiction|]. split; [assumption|lia].
        -- intros [? ?]. right. split; [assumption|lia].
    + apply IH; assumption.
Qed.

Lemma chosenNodes_selected st (i : nat) n :
  distinctNames st → 0 ≤ remainingRebootingCapacity st → st !! i = Some n →
  bool_decide (Name n ∈ Name <$> chosenNodes st)
  = selected (remainingRebootingCapacity st) st i n.
Proof.
  intros Hnd Hcap Hi. unfold selected.
  assert (Hn : n ∈ st) by (eapply list_elem_of_lookup_2, Hi).
  assert (Hiff : Name n ∈ Name <$> chosenNodes st ↔ n ∈ chosenNodes st).
  { split.
    - apply (elem_of_by_name _ st); [exact Hnd| |exact Hn].
      apply sublist_subseteq, chosenNodes_sublist.
    - intros H. apply list_elem_of_fmap. eauto. }
  unfold chosenNodes in Hiff at 2. rewrite nodesRequiringReboot_filter in Hiff.
  rewrite (elem_of_take_filter _ st _ i n (distinctNames_NoDup st Hnd) Hi) in Hiff.
  destruct (isWantsReboot n) eqn:Hw; cbn [andb].
  - apply bool_decide_ext. rewrite Hiff. split; [intros [_ H]; lia|intros H; split; [reflexivity|lia]].
  - apply bool_decide_eq_false_2. rewrite Hiff. intros [H _]. discriminate.
Qed.

(** X5.  When the window check lets the admission run and the capacity is
    not negative, [markBeforeReboot] succeeds and labels exactly the nodes
    that want to reboot and have fewer than capacity such nodes before them
    in the list: the first capacity candidates in list order, or all of them
    when there are fewer.  A labelled node gets before-reboot=true and loses
    the configured pre-check annotations; every other node is left as it
    is. *)
Theorem markBeforeReboot_selects (k : Kontroller) (now1 now2 : Time) (st : list Node) :
  distinctNames st → insideRebootWindow k now1 now2 = true →
  0 ≤ remainingRebootingCapacity st →
  ∃ st', markBeforeReboot k now1 now2 st = (Ok tt, st') ∧ length st' = length st
    ∧ ∀ (i : nat) n, st !! i = Some n →
        ∃ n', st' !! i = Some n' ∧ Name n' = Name n
          ∧ if selected (remainingRebootingCapacity st) st i n
            then Labels n' !! LabelBeforeReboot = Some True_
                 ∧ (∀ l, l ≠ LabelBeforeReboot → Labels n' !! l = Labels n !! l)
                 ∧ (∀ a, Annotations n' !! a
                         = if bool_decide (a ∈ beforeRebootAnnotations k)
                           then None else Annotations n !! a)
            else n' = n.
Proof.
  intros Hnd Hin Hcap. rewrite markBeforeReboot_inside by assumption.
  destruct (Z.ltb_spec (remainingRebootingCapacity st) 0) as [Hneg|_]; [lia|].
  eexists. split; [reflexivity|]. split; [unfold applyAtAll; apply length_fmap|].
  intros i n Hi. eexists. split.
  { unfold applyAtAll. rewrite list_lookup_fmap, Hi. reflexivity. }
  cbv beta. rewrite (chosenNodes_selected st i n Hnd Hcap Hi).
  destruct (selected _ st i n); [|split; reflexivity].
  split; [reflexivity|]. simpl_node. split; [apply lookup_insert_eq|].
  split; [intros l Hl; apply lookup_insert_ne; congruence|].
  intros a. apply lookup_deleteAll.
Qed.

(** X5 at work: three nodes want to reboot, nobody is in flight, capacity
    1: the first in list order is labelled. *)
Lemma markBeforeReboot_selects_witness :
  let k := {| beforeRebootAnnotations := ["gate"]; afterRebootAnnotations := [];
              rebootWindow := None |} in
  let st := [mkNode "idle" [] [];
             mkNode "a" [] [(AnnotationRebootNeeded, True_); ("gate", True_)];
             mkNode "b" [] [(AnnotationRebootNeeded, True_)]] in
  (distinctNames st ∧ insideRebootWindow k 0 0 = true ∧ 0 ≤ remainingRebootingCapacity st)
  ∧ markBeforeReboot k 0 0 st
    = (Ok tt,
       [mkNode "idle" [] [];
        mkNode "a" [(LabelBeforeReboot, True_)] [(AnnotationRebootNeeded, True_)];
        mkNode "b" [] [(AnnotationRebootNeeded, True_)]]).
Proof.
  intros k st.
  assert (Hnd : distinctNames st) by (apply (bool_decide_unpack _); vm_compute; exact I).
  assert (Hcap : 0 ≤ remainingRebootingCapacity st) by (vm_compute; discriminate).
  split; [split; [exact Hnd|split; [reflexivity|exact Hcap]]|].
  destruct (markBeforeReboot_selects k 0 0 st Hnd eq_refl Hcap) as (st' & Hrun & _ & _).
  rewrite Hrun. f_equal. unfold markBeforeReboot in Hrun. vm_compute in Hrun.
  injection Hrun as <-. vm_compute. reflexivity.
Defined.

(** ** The pass as a whole *)

(** The three ways a pass on a store with distinct names can end when
    none of its calls to the API server fails. *)
Lemma process_shape k now1 now2 st :
  distinctNames st →
  (insideRebootWindow k now1 now2 = false
   ∧ process k now1 now2 st = (Ok tt, beforeAdmission k st))
  ∨ (insideRebootWindow k now1 now2 = true
     ∧ remainingRebootingCapacity (beforeAdmission k st) < 0
     ∧ process k now1 now2 st
       = (Panic "makeslice: cap out of range", beforeAdmission k st))
  ∨ (insideRebootWindow k now1 now2 = true
     ∧ 0 ≤ remainingRebootingCapacity (beforeAdmission k st)
     ∧ process k now1 now2 st
       = (Ok tt, applyAtAll (chosenNodes (beforeAdmission k st)) (markBefore_modifier k)
                   (beforeAdmission k st))).
Proof.
  intros Hnd. rewrite process_phases by exact Hnd.
  pose proof (distinctNames_beforeAdmission k st Hnd) as Hnd4.
  destruct (insideRebootWindow k now1 now2) eqn:Hin.
  - right. rewrite markBeforeReboot_inside by assumption.
    destruct (Z.ltb_spec (remainingRebootingCapacity (beforeAdmission k st)) 0);
      [left|right]; auto.
  - left. rewrite markBeforeReboot_outside by exact Hin. auto.
Qed.

Lemma untouched_refl k n : untouched k n n.
Proof. repeat split. Qed.

Lemma untouched_trans k n1 n2 n3 :
  untouched k n1 n2 → untouched k n2 n3 → untouched k n1 n3.
Proof.
  intros (Hn & Hl & Ha) (Hn' & Hl' & Ha'). split; [congruence|]. split.
  - intros l H1 H2. rewrite Hl', Hl by assumption. reflexivity.
  - intros a H1 H2 H3. rewrite Ha', Ha by assumption. reflexivity.
Qed.

Lemma untouched_cleanupState k n : untouched k n (cleanupState_modifier k n).
Proof.
  unfold cleanupState_modifier. case_bool_decide; [|apply untouched_refl].
  destruct (negb _); [|apply untouched_refl].
  split; [reflexivity|]. cbn [Labels Annotations]. split.
  - intros l Hl _. apply lookup_delete_ne. congruence.
  - intros a _ Ha _. apply lookup_deleteAll_notin, Ha.
Qed.

Lemma untouched_checkAfterReboot k n : untouched k n (checkAfterReboot_modifier k n).
Proof.
  split; [reflexivity|]. simpl_node. split.
  - intros l _ H. apply lookup_delete_ne. congruence.
  - intros a H1 _ H3. rewrite lookup_insert_ne by congruence.
    apply lookup_deleteAll_notin, H3.
Qed.

Lemma untouched_checkBeforeReboot k n : untouched k n (checkBeforeReboot_modifier k n).
Proof.
  split; [reflexivity|]. simpl_node. split.
  - intros l H _. apply lookup_delete_ne. congruence.
  - intros a H1 H2 _. rewrite lookup_insert_ne by congruence.
    apply lookup_deleteAll_notin, H2.
Qed.

Lemma untouched_markAfter k n : untouched k n (markAfter_modifier k n).
Proof.
  split; [reflexivity|]. simpl_node. split.
  - intros l _ H. apply lookup_insert_ne. congruence.
  - intros a _ _ H. apply lookup_deleteAll_notin, H.
Qed.

Lemma untouched_markBefore k n : untouched k n (markBefore_modifier k n).
Proof.
  split; [reflexivity|]. simpl_node. split.
  - intros l H _. apply lookup_insert_ne. congruence.
  - intros a _ H _. apply lookup_deleteAll_notin, H.
Qed.

Lemma untouched_passNode k n : untouched k n (passNode k n).
Proof.
  unfold passNode.
  set (n1 := cleanupState_modifier k n).
  set (n2 := if postCheckDone k n1 then checkAfterReboot_modifier k n1 else n1).
  set (n3 := if isJustRebooted n2 then markAfter_modifier k n2 else n2).
  assert (H1 : untouched k n n1) by apply untouched_cleanupState.
  assert (H2 : untouched k n1 n2)
    by (subst n2; destruct (postCheckDone k n1);
        [apply untouched_checkAfterReboot|apply untouched_refl]).
  assert (H3 : untouched k n2 n3)
    by (subst n3; destruct (isJustRebooted n2);
        [apply untouched_markAfter|apply untouched_refl]).
  eapply untouched_trans; [exact H1|]. eapply untouched_trans; [exact H2|].
  eapply untouched_trans; [exact H3|].
  destruct (preCheckDone k n3); [apply untouched_checkBeforeReboot|apply untouched_refl].
Qed.

(** Every node of the store a pass leaves is the node of the same position
    after the four phases, labelled for the pre-check or not. *)
Lemma process_lookup k now1 now2 st r st' (i : nat) n :
  distinctNames st → process k now1 now2 st = (r, st') → st !! i = Some n →
  st' !! i = Some (passNode k n)
  ∨ (st' !! i = Some (markBefore_modifier k (passNode k n))
     ∧ isWantsReboot (passNode k n) = true).
Proof.
  intros Hnd Hrun Hi.
  assert (H4 : beforeAdmission k st !! i = Some (passNode k n))
    by (rewrite beforeAdmission_passNode, list_lookup_fmap, Hi; reflexivity).
  destruct (process_shape k now1 now2 st Hnd)
    as [(_ & Heq)|[(_ & _ & Heq)|(_ & _ & Heq)]];
    rewrite Heq in Hrun; injection Hrun as <- <-; [left; exact H4..|].
  unfold applyAtAll. rewrite list_lookup_fmap, H4. cbn.
  case_bool_decide as Hin; [right|left; reflexivity]. split; [reflexivity|].
  apply (chosenNodes_wantsReboot (beforeAdmission k st)).
  apply (elem_of_by_name _ (beforeAdmission k st)).
  - apply distinctNames_beforeAdmission, Hnd.
  - apply sublist_subseteq, chosenNodes_sublist.
  - eapply list_elem_of_lookup_2, H4.
  - exact Hin.
Qed.

Lemma process_length k now1 now2 st r st' :
  distinctNames st → process k now1 now2 st = (r, st') → length st' = length st.
Proof.
  intros Hnd Hrun.
  destruct (process_shape k now1 now2 st Hnd)
    as [(_ & Heq)|[(_ & _ & Heq)|(_ & _ & Heq)]];
    rewrite Heq in Hrun; injection Hrun as <- <-;
    unfold applyAtAll; rewrite ?length_fmap, beforeAdmission_passNode, length_fmap;
    reflexivity.
Qed.

(** X7.  Whatever its outcome, a pass on a store with distinct names keeps
    the nodes, their order and their names, and on every node it leaves
    alone all labels but before-reboot and after-reboot and all annotations
    but reboot-ok and the configured checks: it never writes reboot-needed,
    reboot-in-progress or reboot-paused unless they are configured as
    checks. *)
Theorem process_frame (k : Kontroller) (now1 now2 : Time) (st st' : list Node)
    (r : result unit) :
  distinctNames st → process k now1 now2 st = (r, st') →
  length st' = length st
  ∧ ∀ (i : nat) n, st !! i = Some n →
      ∃ n', st' !! i = Some n' ∧ Name n' = Name n
        ∧ (∀ l, l ≠ LabelBeforeReboot → l ≠ LabelAfterReboot →
                Labels n' !! l = Labels n !! l)
        ∧ (∀ a, a ≠ AnnotationOkToReboot → a ∉ beforeRebootAnnotations k →
                a ∉ afterRebootAnnotations k → Annotations n' !! a = Annotations n !! a).
Proof.
  intros Hnd Hrun. split; [eapply process_length; eassumption|].
  intros i n Hi. pose proof (untouched_passNode k n) as H4.
  destruct (process_lookup k now1 now2 st r st' i n Hnd Hrun Hi) as [H|[H _]];
    eexists; (split; [exact H|]).
  - exact H4.
  - exact (untouched_trans k _ _ _ H4 (untouched_markBefore k _)).
Qed.

(** X7 at work, on the pass of the pause scenario. *)
Lemma process_frame_witness :
  let k := {| beforeRebootAnnotations := ["gate"]; afterRebootAnnotations := ["healthy"];
              rebootWindow := None |} in
  let st := [mkNode "a" [(LabelBeforeReboot, True_); ("zone", "x")]
               [(AnnotationRebootNeeded, True_); (AnnotationRebootPaused, True_);
                ("gate", False_)]] in
  let st' := [mkNode "a" [("zone", "x")]
                [(AnnotationRebootNeeded, True_); (AnnotationRebootPaused, True_)]] in
  (distinctNames st ∧ process k 0 0 st = (Ok tt, st'))
  ∧ length st' = length st
  ∧ ∀ (i : nat) n, st !! i = Some n →
      ∃ n', st' !! i = Some n' ∧ Name n' = Name n
        ∧ (∀ l, l ≠ LabelBeforeReboot → l ≠ LabelAfterReboot →
                Labels n' !! l = Labels n !! l)
        ∧ (∀ a, a ≠ AnnotationOkToReboot → a ∉ beforeRebootAnnotations k →
                a ∉ afterRebootAnnotations k → Annotations n' !! a = Annotations n !! a).
Proof.
  intros k st st'.
  assert (Hnd : distinctNames st) by (apply (bool_decide_unpack _); vm_compute; exact I).
  assert (Hrun : process k 0 0 st = (Ok tt, st')) by (vm_compute; reflexivity).
  split; [split; assumption|]. exact (process_frame k 0 0 st st' (Ok tt) Hnd Hrun).
Defined.

(** ** Who gets reboot-ok, and who keeps the label *)

Section ChecksApart.
Variable k : Kontroller.
Hypothesis Hapart : checksApart k.

Lemma before_apart a : a ∈ protocolAnnotations → a ∉ beforeRebootAnnotations k.
Proof.
  unfold checksApart in Hapart. rewrite Forall_app, !Forall_forall in Hapart.
  intros Ha Hin. exact (proj1 Hapart a Hin Ha).
Qed.

Lemma after_apart a : a ∈ protocolAnnotations → a ∉ afterRebootAnnotations k.
Proof.
  unfold checksApart in Hapart. rewrite Forall_app, !Forall_forall in Hapart.
  intros Ha Hin. exact (proj2 Hapart a Hin Ha).
Qed.

Lemma protocol_deleteAll_before (m : gmap string string) a :
  a ∈ protocolAnnotations → deleteAll (beforeRebootAnnotations k) m !! a = m !! a.
Proof. intros Ha. apply lookup_deleteAll_notin, before_apart, Ha. Qed.

Lemma protocol_deleteAll_after (m : gmap string string) a :
  a ∈ protocolAnnotations → deleteAll (afterRebootAnnotations k) m !! a = m !! a.
Proof. intros Ha. apply lookup_deleteAll_notin, after_apart, Ha. Qed.

Lemma ok_protocol : AnnotationOkToReboot ∈ protocolAnnotations.
Proof. unfold protocolAnnotations. set_solver. Qed.








(** What the four phases do to reboot-ok of one node: nothing, a grant, or
    a revocation, each for its reason in the node as it was. *)
Lemma passNode_ok n :
  Annotations (passNode k n) !! AnnotationOkToReboot
  = Annotations n !! AnnotationOkToReboot
  ∨ (Annotations (passNode k n) !! AnnotationOkToReboot = Some True_
     ∧ Labels n !! LabelBeforeReboot = Some True_
     ∧ hasAllAnnotations n (beforeRebootAnnotations k) = true
     ∧ fields_Matches wantsRebootSelector (Annotations n) = true)
  ∨ (Annotations (passNode k n) !! AnnotationOkToReboot = Some False_
     ∧ Labels n !! LabelAfterReboot = Some True_
     ∧ hasAllAnnotations n (afterRebootAnnotations k) = true).
Proof.
  unfold passNode.
  set (n1 := cleanupState_modifier k n).
  assert (H1 : (n1 = n ∨ Labels n1 !! LabelBeforeReboot = None)
               ∧ Labels n1 !! LabelAfterReboot = Labels n !! LabelAfterReboot
               ∧ Annotations n1 !! AnnotationOkToReboot
                 = Annotations n !! AnnotationOkToReboot
               ∧ (∀ a, Annotations n1 !! a = Some True_ → Annotations n !! a = Some True_)).
  { subst n1. unfold cleanupState_modifier. case_bool_decide; [|auto].
    destruct (negb _); [|auto]. cbn [Labels Annotations].
    split; [right; apply lookup_delete_eq|]. split; [apply lookup_delete_ne; discriminate|].
    split; [apply protocol_deleteAll_before, ok_protocol|].
    intros a. rewrite lookup_deleteAll. case_bool_decide; [discriminate|auto]. }
  destruct H1 as (H1a & H1b & H1c & H1d).
  pose proof (cleanup_settles k n) as H1w. cbv zeta in H1w. fold n1 in H1w.
  set (n2 := if postCheckDone k n1 then checkAfterReboot_modifier k n1 else n1).
  set (n3 := if isJustRebooted n2 then markAfter_modifier k n2 else n2).
  assert (H3l : Labels n3 !! LabelBeforeReboot = Labels n1 !! LabelBeforeReboot).
  { subst n3 n2. destruct (postCheckDone k n1);
      (destruct (isJustRebooted _); simpl_node;
       rewrite ?lookup_insert_ne, ?lookup_delete_ne by discriminate; reflexivity). }
  assert (H3a : ∀ a, a ≠ AnnotationOkToReboot →
                     Annotations n3 !! a = Some True_ → Annotations n1 !! a = Some True_).
  { intros a Ha. subst n3 n2. destruct (postCheckDone k n1);
      (destruct (isJustRebooted _); simpl_node;
       rewrite ?lookup_deleteAll, ?lookup_insert_ne by congruence;
       rewrite ?lookup_deleteAll; repeat case_bool_decide; congruence). }
  assert (H3o : Annotations n3 !! AnnotationOkToReboot = Annotations n2 !! AnnotationOkToReboot).
  { subst n3. destruct (isJustRebooted n2); [|reflexivity].
    simpl_node. apply protocol_deleteAll_after, ok_protocol. }
  destruct (preCheckDone k n3) eqn:Hd.
  - right. left. simpl_node. split; [apply lookup_insert_eq|].
    unfold preCheckDone in Hd. apply andb_true_iff in Hd as [Hl Hall].
    rewrite beforeRebootReq_Matches in Hl. apply bool_decide_eq_true_1 in Hl.
    rewrite H3l in Hl. destruct H1a as [Heq|Hnone]; [|congruence].
    rewrite Heq in Hl, H1w, H3a. split; [exact Hl|]. split.
    + apply hasAllAnnotations_Forall. apply hasAllAnnotations_Forall in Hall.
      rewrite Forall_forall in Hall |- *. intros a Ha. apply H3a; [|apply Hall, Ha].
      intros ->. exact (before_apart _ ok_protocol Ha).
    + apply H1w. rewrite Hl. eauto.
  - rewrite H3o. subst n2. destruct (postCheckDone k n1) eqn:Hp; [|left; exact H1c].
    right. right. simpl_node. split; [apply lookup_insert_eq|].
    unfold postCheckDone in Hp. apply andb_true_iff in Hp as [Hl Hall].
    rewrite afterRebootReq_Matches in Hl. apply bool_decide_eq_true_1 in Hl.
    rewrite H1b in Hl. split; [exact Hl|].
    apply hasAllAnnotations_Forall. apply hasAllAnnotations_Forall in Hall.
    rewrite Forall_forall in Hall |- *. intros a Ha. apply H1d, Hall, Ha.
Qed.

Lemma markBefore_ok n :
  Annotations (markBefore_modifier k n) !! AnnotationOkToReboot
  = Annotations n !! AnnotationOkToReboot.
Proof. simpl_node. apply protocol_deleteAll_before, ok_protocol. Qed.
End ChecksApart.

(** X8.  Let no configured check be one of the four protocol annotations.
    A pass on a store with distinct names, whatever its outcome, turns
    reboot-ok of a node to "true" only if the node, as the pass found it,
    carried before-reboot=true with all pre-check annotations "true" and had
    reboot-needed "true" and neither reboot-paused nor reboot-in-progress
    "true"; and if it changes reboot-ok in any other way, then to "false",
    for a node that carried after-reboot=true with all post-check
    annotations "true". *)
Theorem process_reboot_ok (k : Kontroller) (now1 now2 : Time) (st st' : list Node)
    (r : result unit) (i : nat) (n n' : Node) :
  distinctNames st → checksApart k →
  process k now1 now2 st = (r, st') → st !! i = Some n → st' !! i = Some n' →
  (Annotations n' !! AnnotationOkToReboot = Some True_ →
   Annotations n !! AnnotationOkToReboot ≠ Some True_ →
   Labels n !! LabelBeforeReboot = Some True_
   ∧ hasAllAnnotations n (beforeRebootAnnotations k) = true
   ∧ Annotations n !! AnnotationRebootNeeded = Some True_
   ∧ Annotations n !! AnnotationRebootPaused ≠ Some True_
   ∧ Annotations n !! AnnotationRebootInProgress ≠ Some True_)
  ∧ (Annotations n' !! AnnotationOkToReboot ≠ Annotations n !! AnnotationOkToReboot →
     Annotations n' !! AnnotationOkToReboot ≠ Some True_ →
     Annotations n' !! AnnotationOkToReboot = Some False_
     ∧ Labels n !! LabelAfterReboot = Some True_
     ∧ hasAllAnnotations n (afterRebootAnnotations k) = true).
Proof.
  intros Hnd Hapart Hrun Hi Hi'.
  assert (Hok : Annotations n' !! AnnotationOkToReboot
                = Annotations (passNode k n) !! AnnotationOkToReboot).
  { destruct (process_lookup k now1 now2 st r st' i n Hnd Hrun Hi) as [H|[H _]];
      rewrite H in Hi'; injection Hi' as <-; [reflexivity|].
    apply markBefore_ok, Hapart. }
  rewrite Hok.
  destruct (passNode_ok k Hapart n) as [Hsame|[(Ht & Hl & Hall & Hw)|(Hf & Hl & Hall)]].
  - split; [intros H1 H2; congruence|intros H; congruence].
  - split; [|intros _ H; congruence]. intros _ _.
    apply wantsRebootSelector_Matches in Hw as (Hneeded & Hp & _ & Hip). auto.
  - split; [|auto]. intros H. rewrite Hf in H. discriminate H.
Qed.

(** X8 at work: the labelled node whose gate is "true" gets reboot-ok. *)
Lemma process_reboot_ok_witness :
  let k := {| beforeRebootAnnotations := ["gate"]; afterRebootAnnotations := ["healthy"];
              rebootWindow := None |} in
  let n := mkNode "a" [(LabelBeforeReboot, True_)]
             [(AnnotationRebootNeeded, True_); ("gate", True_)] in
  let n' := mkNode "a" [] [(AnnotationOkToReboot, True_); (AnnotationRebootNeeded, True_)] in
  (distinctNames [n] ∧ checksApart k ∧ process k 0 0 [n] = (Ok tt, [n']))
  ∧ Labels n !! LabelBeforeReboot = Some True_
  ∧ hasAllAnnotations n (beforeRebootAnnotations k) = true
  ∧ Annotations n !! AnnotationRebootNeeded = Some True_
  ∧ Annotations n !! AnnotationRebootPaused ≠ Some True_
  ∧ Annotations n !! AnnotationRebootInProgress ≠ Some True_.
Proof.
  intros k n n'.
  assert (Hnd : distinctNames [n]) by (apply (bool_decide_unpack _); vm_compute; exact I).
  assert (Hapart : checksApart k) by (apply (bool_decide_unpack _); vm_compute; exact I).
  assert (Hrun : process k 0 0 [n] = (Ok tt, [n'])) by (vm_compute; reflexivity).
  split; [split; [exact Hnd|split; [exact Hapart|exact Hrun]]|].
  apply (proj1 (process_reboot_ok k 0 0 [n] [n'] (Ok tt) 0 n n' Hnd Hapart Hrun eq_refl eq_refl)).
  - reflexivity.
  - discriminate.
Defined.



(** ** Each phase a second time *)

Lemma cleanupState_modifier_cases k n :
  cleanupState_modifier k n = n
  ∨ Labels (cleanupState_modifier k n) !! LabelBeforeReboot = None.
Proof.
  unfold cleanupState_modifier. case_bool_decide; [|auto].
  destruct (negb _); [|auto]. right. cbn [Labels]. apply lookup_delete_eq.
Qed.

Lemma cleanupState_modifier_twice k n :
  cleanupState_modifier k (cleanupState_modifier k n) = cleanupState_modifier k n.
Proof.
  destruct (cleanupState_modifier_cases k n) as [Heq|Hnone].
  - rewrite !Heq. reflexivity.
  - set (n1 := cleanupState_modifier k n) in *. unfold cleanupState_modifier.
    rewrite bool_decide_eq_false_2; [reflexivity|].
    rewrite Hnone. intros [? ?]. discriminate.
Qed.

Lemma mapIf_twice (Q : Node → bool) f st :
  (∀ n, Q n = true → Q (f n) = false) → mapIf Q f (mapIf Q f st) = mapIf Q f st.
Proof.
  intros HQ. unfold mapIf. rewrite <- list_fmap_compose. apply list_fmap_ext.
  intros i n _. unfold compose. destruct (Q n) eqn:Hn.
  - rewrite (HQ n Hn). reflexivity.
  - rewrite Hn. reflexivity.
Qed.

Lemma postCheckDone_released k n : postCheckDone k (checkAfterReboot_modifier k n) = false.
Proof.
  unfold postCheckDone. rewrite afterRebootReq_Matches. simpl_node.
  rewrite lookup_delete_eq, bool_decide_eq_false_2 by discriminate. reflexivity.
Qed.

Lemma preCheckDone_released k n : preCheckDone k (checkBeforeReboot_modifier k n) = false.
Proof.
  unfold preCheckDone. rewrite beforeRebootReq_Matches. simpl_node.
  rewrite lookup_delete_eq, bool_decide_eq_false_2 by discriminate. reflexivity.
Qed.

Lemma isJustRebooted_marked k n : isJustRebooted (markAfter_modifier k n) = false.
Proof.
  unfold isJustRebooted. apply andb_false_iff. right.
  rewrite notAfterRebootReq_Matches. simpl_node.
  rewrite lookup_insert_eq, bool_decide_eq_true_2 by reflexivity. reflexivity.
Qed.

(** X10.  With any configuration, each of the first four phases run a
    second time on its own result succeeds and changes nothing (stores with
    distinct names): a phase has done all it has to do after one run, even
    though a whole pass has not. *)
Theorem phases_twice (k : Kontroller) (st : list Node) :
  distinctNames st →
  cleanupState k (snd (cleanupState k st)) = (Ok tt, snd (cleanupState k st))
  ∧ checkAfterReboot k (snd (checkAfterReboot k st)) = (Ok tt, snd (checkAfterReboot k st))
  ∧ markAfterReboot k (snd (markAfterReboot k st)) = (Ok tt, snd (markAfterReboot k st))
  ∧ checkBeforeReboot k (snd (checkBeforeReboot k st))
    = (Ok tt, snd (checkBeforeReboot k st)).
Proof.
  intros Hnd. split; [|split; [|split]].
  - rewrite (cleanupState_map k st Hnd). cbn [snd]. rewrite cleanupState_map.
    + f_equal. rewrite <- list_fmap_compose. apply list_fmap_ext.
      intros i n _. apply cleanupState_modifier_twice.
    + unfold distinctNames. rewrite names_fmap; [exact Hnd|].
      intros n _. apply preservesName_cleanupState_modifier.
  - rewrite (checkAfterReboot_map k st Hnd). cbn [snd]. rewrite checkAfterReboot_map.
    + f_equal. apply mapIf_twice. intros n _. apply postCheckDone_released.
    + apply distinctNames_mapIf; [apply preservesName_checkAfterReboot_modifier|exact Hnd].
  - rewrite (markAfterReboot_map k st Hnd). cbn [snd]. rewrite markAfterReboot_map.
    + f_equal. apply mapIf_twice. intros n _. apply (isJustRebooted_marked k).
    + apply distinctNames_mapIf; [apply preservesName_mark_modifier|exact Hnd].
  - rewrite (checkBeforeReboot_map k st Hnd). cbn [snd]. rewrite checkBeforeReboot_map.
    + f_equal. apply mapIf_twice. intros n _. apply preCheckDone_released.
    + apply distinctNames_mapIf; [apply preservesName_checkBeforeReboot_modifier|exact Hnd].
Qed.

(** X10 at work, with no checks configured, where a pass is not idempotent. *)
Lemma phases_twice_witness :
  let k := {| beforeRebootAnnotations := []; afterRebootAnnotations := [];
              rebootWindow := None |} in
  let st := [mkNode "a" [(LabelBeforeReboot, True_)] [(AnnotationRebootNeeded, True_)]] in
  let granted := [mkNode "a" [] [(AnnotationOkToReboot, True_);
                                 (AnnotationRebootNeeded, True_)]] in
  distinctNames st
  ∧ checkBeforeReboot k st = (Ok tt, granted)
  ∧ checkBeforeReboot k granted = (Ok tt, granted).
Proof.
  intros k st granted.
  assert (Hnd : distinctNames st) by (apply (bool_decide_unpack _); vm_compute; exact I).
  assert (Hrun : checkBeforeReboot k st = (Ok tt, granted)) by (vm_compute; reflexivity).
  split; [exact Hnd|]. split; [exact Hrun|].
  pose proof (proj2 (proj2 (proj2 (phases_twice k st Hnd)))) as H.
  rewrite Hrun in H. exact H.
Defined.

(** X11.  With any configuration, when [markBeforeReboot] has completed on
    a store with distinct names, running it again on the result completes
    and labels nobody, provided the window check lets the second run label
    only if it let the first: the nodes it labelled use up the capacity, or
    no candidate is left. *)
Theorem markBeforeReboot_twice (k : Kontroller) (now1 now2 now1' now2' : Time)
    (st st1 : list Node) :
  distinctNames st →
  (insideRebootWindow k now1' now2' = true → insideRebootWindow k now1 now2 = true) →
  markBeforeReboot k now1 now2 st = (Ok tt, st1) →
  markBeforeReboot k now1' now2' st1 = (Ok tt, st1).
Proof.
  intros Hnd Hwin Hrun.
  destruct (insideRebootWindow k now1' now2') eqn:Hin2;
    [|apply markBeforeReboot_outside, Hin2].
  specialize (Hwin eq_refl).
  apply markBeforeReboot_bound in Hrun as (-> & Hcap & _); [|assumption..].
  destruct (chosenNodes_again k st Hnd Hcap) as [Hcap1 Hnone].
  rewrite markBeforeReboot_inside; [|exact Hin2|].
  - destruct (Z.ltb_spec
                (remainingRebootingCapacity
                   (applyAtAll (chosenNodes st) (markBefore_modifier k) st)) 0) as [Hneg|_];
      [lia|].
    rewrite Hnone, applyAtAll_nil. reflexivity.
  - unfold distinctNames. rewrite names_applyAtAll; [exact Hnd|].
    apply preservesName_mark_modifier.
Qed.

(** X11 at work: the node a is labelled by the first run; the node b has to
    wait, also in a second run. *)
Lemma markBeforeReboot_twice_witness :
  let k := {| beforeRebootAnnotations := []; afterRebootAnnotations := [];
              rebootWindow := None |} in
  let st := [mkNode "a" [] [(AnnotationRebootNeeded, True_)];
             mkNode "b" [] [(AnnotationRebootNeeded, True_)]] in
  let st1 := [mkNode "a" [(LabelBeforeReboot, True_)] [(AnnotationRebootNeeded, True_)];
              mkNode "b" [] [(AnnotationRebootNeeded, True_)]] in
  (distinctNames st ∧ markBeforeReboot k 0 0 st = (Ok tt, st1))
  ∧ markBeforeReboot k 30 30 st1 = (Ok tt, st1).
Proof.
  intros k st st1.
  assert (Hnd : distinctNames st) by (apply (bool_decide_unpack _); vm_compute; exact I).
  assert (Hrun : markBeforeReboot k 0 0 st = (Ok tt, st1)) by (vm_compute; reflexivity).
  split; [split; assumption|].
  exact (markBeforeReboot_twice k 0 0 30 30 st st1 Hnd (λ _, eq_refl) Hrun).
Defined.

(** ** Selectors and loops *)

(** X12.  The three annotation selectors of the operator exclude one
    another: no node wants to reboot and is still rebooting, wants to
    reboot and has just rebooted, or is still rebooting and has just
    rebooted, whatever its annotations. *)
Theorem selectors_exclusive (annotations : gmap string string) :
  ¬ (fields_Matches wantsRebootSelector annotations = true
     ∧ fields_Matches stillRebootingSelector annotations = true)
  ∧ ¬ (fields_Matches wantsRebootSelector annotations = true
       ∧ fields_Matches justRebootedSelector annotations = true)
  ∧ ¬ (fields_Matches stillRebootingSelector annotations = true
       ∧ fields_Matches justRebootedSelector annotations = true).
Proof.
  rewrite wantsRebootSelector_Matches, stillRebootingSelector_Matches,
    justRebootedSelector_Matches.
  split; [|split].
  - intros [(_ & _ & Hok & _) (Hok' & _)]. contradiction.
  - intros [(_ & _ & Hok & _) (Hok' & _)]. contradiction.
  - intros [(_ & Hneeded) (_ & Hneeded' & _)]. rewrite Hneeded in Hneeded'.
    discriminate.
Qed.

Lemma forEach_app {A} (l1 l2 : list A) (body : A → M unit) (st : list Node) :
  forEach (l1 ++ l2) body st
  = match forEach l1 body st with
    | (Ok _, st') => forEach l2 body st'
    | (Err e, st') => (Err e, st')
    | (Panic msg, st') => (Panic msg, st')
    end.
Proof.
  revert st. induction l1 as [|x l1 IH]; intros st; [reflexivity|].
  cbn [app forEach]. unfold bind.
  destruct (body x st) as [[[]| |] st']; [apply IH|reflexivity..].
Qed.

(** X13.  A node that was listed and is gone by the time of its update
    stops the loop of [checkBeforeReboot] with the error of the update: the
    nodes listed before it have been released, the nodes listed after it
    are not looked at. *)
Theorem checkBeforeReboot_loop_stops (k : Kontroller) (earlier later : list Node)
    (gone : Node) (st : list Node) :
  distinctNames st → distinctNames earlier →
  (∀ x, x ∈ earlier → Name x ∈ Name <$> st) →
  hasAllAnnotations gone (beforeRebootAnnotations k) = true →
  Name gone ∉ Name <$> st →
  checkBeforeReboot_loop k (earlier ++ gone :: later) st
  = (Err (Errorf "updating node"
            (Errorf "getting node" (StatusError StatusReasonNotFound (Name gone)))),
     applyAtAll
       (List.filter (λ x, hasAllAnnotations x (beforeRebootAnnotations k)) earlier)
       (checkBeforeReboot_modifier k) st).
Proof.
  intros Hnd Hnde Hin Hall Hgone. unfold checkBeforeReboot_loop.
  rewrite forEach_app, forEach_if.
  rewrite (forEach_updates _ (checkBeforeReboot_modifier k)).
  - rewrite foldl_applyAt;
      [|apply preservesName_checkBeforeReboot_modifier|apply distinctNames_filter, Hnde].
    cbn [forEach]. unfold bind. rewrite Hall. unfold orErrorf.
    rewrite UpdateNodeRetry_missing; [reflexivity|].
    rewrite names_applyAtAll; [exact Hgone|apply preservesName_checkBeforeReboot_modifier].
  - apply preservesName_checkBeforeReboot_modifier.
  - intros x st' Hnd' Hx. apply orErrorf_UpdateNodeRetry; [assumption..|].
    apply preservesName_checkBeforeReboot_modifier.
  - exact Hnd.
  - intros x [Hx _]%elem_of_filter_bool. apply Hin, Hx.
Qed.

(** X13 at work: a is released, the update of the vanished node fails, c
    keeps its label although its checks are done. *)
Lemma checkBeforeReboot_loop_stops_witness :
  let k := {| beforeRebootAnnotations := []; afterRebootAnnotations := [];
              rebootWindow := None |} in
  let a := mkNode "a" [(LabelBeforeReboot, True_)] [(AnnotationRebootNeeded, True_)] in
  let gone := mkNode "gone" [(LabelBeforeReboot, True_)] [] in
  let c := mkNode "c" [(LabelBeforeReboot, True_)] [(AnnotationRebootNeeded, True_)] in
  (distinctNames [a; c] ∧ distinctNames [a] ∧ (∀ x, x ∈ [a] → Name x ∈ Name <$> [a; c])
   ∧ hasAllAnnotations gone (beforeRebootAnnotations k) = true
   ∧ Name gone ∉ Name <$> [a; c])
  ∧ checkBeforeReboot_loop k [a; gone; c] [a; c]
    = (Err (Errorf "updating node"
              (Errorf "getting node" (StatusError StatusReasonNotFound "gone"))),
       [checkBeforeReboot_modifier k a; c]).
Proof.
  intros k a gone c.
  assert (Hnd : distinctNames [a; c]) by (apply (bool_decide_unpack _); vm_compute; exact I).
  assert (Hnde : distinctNames [a]) by (apply (bool_decide_unpack _); vm_compute; exact I).
  assert (Hin : ∀ x, x ∈ [a] → Name x ∈ Name <$> [a; c]).
  { intros x Hx. apply list_elem_of_singleton in Hx. subst x. left. }
  assert (Hgone : Name gone ∉ Name <$> [a; c])
    by (apply (bool_decide_unpack _); vm_compute; exact I).
  split; [split; [exact Hnd|split; [exact Hnde|split; [exact Hin|
            split; [reflexivity|exact Hgone]]]]|].
  change [a; gone; c] with ([a] ++ gone :: [c])%list.
  rewrite (checkBeforeReboot_loop_stops k [a] [c] gone [a; c] Hnd Hnde Hin eq_refl Hgone).
  reflexivity.
Defined.

(** ** The agent daemon set *)

Lemma elem_of_ds_filter (Q : DaemonSet → bool) (l : list DaemonSet) (d : DaemonSet) :
  d ∈ List.filter Q l ↔ d ∈ l ∧ Q d = true.
Proof. rewrite !list_elem_of_In. apply filter_In. Qed.

Lemma isManaged_spec b repo : isManaged (agentDaemonsetSpec b repo) = true.
Proof. reflexivity. Qed.

Lemma ds_List_managed world : ds_List managedByOperatorLabels world = List.filter isManaged world.
Proof. reflexivity. Qed.

Lemma version_spec b repo :
  metaAnnotations (dsMeta (agentDaemonsetSpec b repo)) !! AgentVersion
  = Some (version_Version b).
Proof. cbn. apply lookup_insert_eq. Qed.

Lemma ds_Create_cases d world :
  (ds_Create d world = (None, (world ++ [d])%list) ∧ metaName (dsMeta d) ∉ dsNames world)
  ∨ (∃ err, ds_Create d world = (Some err, world)).
Proof.
  unfold ds_Create. fold (dsNames world). case_bool_decide; [right|left]; eauto.
Qed.

Lemma ds_Delete_cases name world :
  (ds_Delete name world
   = (None, List.filter (λ x, negb (bool_decide (metaName (dsMeta x) = name))) world))
  ∨ (∃ err, ds_Delete name world = (Some err, world)).
Proof. unfold ds_Delete. case_bool_decide; [left|right]; eauto. Qed.

Lemma filter_swap {A} (P Q : A → bool) (l : list A) :
  List.filter Q (List.filter P l) = List.filter P (List.filter Q l).
Proof.
  rewrite !filter_filter_bool. apply filter_ext. intros x. apply andb_comm.
Qed.

(** Once the only managed daemon set is deleted by name, none is left. *)
Lemma managed_after_delete world d :
  List.filter isManaged world = [d] →
  List.filter isManaged
    (List.filter (λ x, negb (bool_decide (metaName (dsMeta x) = metaName (dsMeta d)))) world)
  = [].
Proof.
  intros Hone. rewrite filter_swap, Hone. cbn.
  rewrite bool_decide_eq_true_2 by reflexivity. reflexivity.
Qed.

Lemma managed_after_create world d :
  List.filter isManaged (world ++ [d])%list
  = (List.filter isManaged world ++ (if isManaged d then [d] else []))%list.
Proof. rewrite List.filter_app. cbn. destruct (isManaged d); reflexivity. Qed.

Lemma runDaemonsetUpdate_cases b repo world :
  updateCase b repo world (runDaemonsetUpdate b repo world).1
    (runDaemonsetUpdate b repo world).2.
Proof.
  unfold runDaemonsetUpdate. rewrite ds_List_managed.
  destruct (List.filter isManaged world) as [|d [|d' rest]] eqn:Hm.
  - unfold createAgentDamonset.
    destruct (ds_Create_cases (agentDaemonsetSpec b repo) world) as [[-> Hfree]|[err ->]];
      cbn [fst snd].
    + apply update_created; assumption.
    + apply update_refused.
  - destruct (metaAnnotations (dsMeta d) !! AgentVersion) as [value|] eqn:Ha;
      [|apply update_refused].
    destruct (semver_Parse b value) as [dsSemver|] eqn:Hp; [|apply update_refused].
    destruct (semver_LT b dsSemver (version_Semver b)) eqn:Hlt.
    + assert (Hold : versionOlder b d true) by (exists value, dsSemver; auto).
      destruct (ds_Delete_cases (metaName (dsMeta d)) world) as [->|[err ->]];
        [|apply update_refused].
      unfold createAgentDamonset.
      destruct (ds_Create_cases (agentDaemonsetSpec b repo)
                  (List.filter (λ x, negb (bool_decide (metaName (dsMeta x)
                                                        = metaName (dsMeta d)))) world))
        as [[-> _]|[err ->]]; cbn [fst snd].
      * apply (update_replaced b repo world d); assumption.
      * apply (update_deleted_only b repo world d); assumption.
    + apply (update_kept b repo world d); [exact Hm|]. exists value, dsSemver. auto.
  - apply update_refused.
Qed.

Lemma dsNames_inj world d d' :
  NoDup (dsNames world) → d ∈ world → d' ∈ world →
  metaName (dsMeta d) = metaName (dsMeta d') → d = d'.
Proof.
  unfold dsNames. induction world as [|x world IH]; intros Hnd Hd Hd' Heq.
  - inversion Hd.
  - rewrite fmap_cons in Hnd. apply NoDup_cons in Hnd as [Hx Hnd].
    apply elem_of_cons in Hd as [->|Hd]; apply elem_of_cons in Hd' as [->|Hd'].
    + reflexivity.
    + exfalso. apply Hx. rewrite Heq. apply list_elem_of_fmap. eauto.
    + exfalso. apply Hx. rewrite <- Heq. apply list_elem_of_fmap. eauto.
    + apply IH; assumption.
Qed.

(** X14.  In a namespace whose daemon sets have distinct names,
    [runDaemonsetUpdate] removes a daemon set only if it is the only
    managed one and its version annotation is a semantic version older than
    the operator's; it never removes an unmanaged one, one of several
    managed ones, or one whose version is current, newer, missing or
    unreadable.  The only daemon set it ever adds is its own
    [agentDaemonsetSpec], and then it returns no error. *)
Theorem runDaemonsetUpdate_touches (b : Build) (repo : string) (world world' : list DaemonSet)
    (r : option agentError) :
  NoDup (dsNames world) → runDaemonsetUpdate b repo world = (r, world') →
  (∀ d, d ∈ world → d ∉ world' →
        ds_List managedByOperatorLabels world = [d] ∧ versionOlder b d true)
  ∧ (∀ d, d ∈ world' → d ∉ world → d = agentDaemonsetSpec b repo ∧ r = None).
Proof.
  intros Hnd Hrun. pose proof (runDaemonsetUpdate_cases b repo world) as Hcase.
  rewrite Hrun in Hcase. cbn [fst snd] in Hcase. rewrite ds_List_managed.
  assert (Hgone : ∀ old d, List.filter isManaged world = [old] → d ∈ world →
            d ∉ List.filter (λ x, negb (bool_decide (metaName (dsMeta x)
                                                     = metaName (dsMeta old)))) world →
            d = old).
  { intros old d Hm Hd Hnot. apply (dsNames_inj world); [exact Hnd|exact Hd| |].
    - assert (Hin : old ∈ List.filter isManaged world) by (rewrite Hm; left).
      apply elem_of_ds_filter in Hin as [Hin _]. exact Hin.
    - destruct (decide (metaName (dsMeta d) = metaName (dsMeta old))) as [Heq|Hne];
        [exact Heq|].
      exfalso. apply Hnot. apply elem_of_ds_filter. split; [exact Hd|].
      rewrite bool_decide_eq_false_2 by exact Hne. reflexivity. }
  inversion Hcase as [Hm Hfree|d0 Hm Hv|d0 Hm Hv|d0 err Hm Hv|err]; subst.
  - split.
    + intros d Hd Hnot. exfalso. apply Hnot. apply elem_of_app. left. exact Hd.
    + intros d [Hd|Hd]%elem_of_app Hnot; [contradiction|].
      apply list_elem_of_singleton in Hd. auto.
  - split; intros d Hd Hnot; contradiction.
  - split.
    + intros d Hd Hnot.
      assert (d = d0).
      { apply (Hgone d0 d Hm Hd). intros Hin. apply Hnot. apply elem_of_app. left. exact Hin. }
      subst d. auto.
    + intros d [Hd|Hd]%elem_of_app Hnot.
      * apply elem_of_ds_filter in Hd as [Hd _]. contradiction.
      * apply list_elem_of_singleton in Hd. auto.
  - split.
    + intros d Hd Hnot. assert (d = d0) by (apply (Hgone d0 d Hm Hd Hnot)). subst d. auto.
    + intros d Hd Hnot. apply elem_of_ds_filter in Hd as [Hd _]. contradiction.
  - split; intros d Hd Hnot; contradiction.
Qed.

(** X14 at work: the old agent is replaced, the daemon set of somebody else
    stays. *)
Lemma runDaemonsetUpdate_touches_witness :
  let old := mkDaemonSet "agent" [("managed-by", "flatcar-linux-update-operator");
                                  ("app", agentDefaultAppName)]
               [(AgentVersion, "0.7.0")] in
  let other := mkDaemonSet "proxy" [("app", "proxy")] [] in
  let world := [old; other] in
  let world' := [other; agentDaemonsetSpec exampleBuild "repo"] in
  (NoDup (dsNames world) ∧ runDaemonsetUpdate exampleBuild "repo" world = (None, world'))
  ∧ (∀ d, d ∈ world → d ∉ world' →
          ds_List managedByOperatorLabels world = [d] ∧ versionOlder exampleBuild d true)
  ∧ (∀ d, d ∈ world' → d ∉ world →
          d = agentDaemonsetSpec exampleBuild "repo" ∧ @None agentError = None).
Proof.
  intros old other world world'.
  assert (Hnd : NoDup (dsNames world)) by (apply (bool_decide_unpack _); vm_compute; exact I).
  assert (Hrun : runDaemonsetUpdate exampleBuild "repo" world = (None, world'))
    by (vm_compute; reflexivity).
  split; [split; assumption|].
  exact (runDaemonsetUpdate_touches exampleBuild "repo" world world' None Hnd Hrun).
Defined.

(** After a run without error one managed daemon set is there. *)
Lemma runDaemonsetUpdate_success_shape b repo world world' :
  runDaemonsetUpdate b repo world = (None, world') →
  ∃ d, List.filter isManaged world' = [d]
    ∧ (d = agentDaemonsetSpec b repo ∨ (world' = world ∧ versionOlder b d false)).
Proof.
  intros Hrun. pose proof (runDaemonsetUpdate_cases b repo world) as Hcase.
  rewrite Hrun in Hcase. cbn [fst snd] in Hcase.
  inversion Hcase as [Hm Hfree|d0 Hm Hv|d0 Hm Hv| |]; subst.
  - exists (agentDaemonsetSpec b repo). rewrite managed_after_create, Hm, isManaged_spec.
    split; [reflexivity|]. left. reflexivity.
  - exists d0. split; [exact Hm|]. right. auto.
  - exists (agentDaemonsetSpec b repo).
    rewrite managed_after_create, (managed_after_delete world d0 Hm), isManaged_spec.
    split; [reflexivity|]. left. reflexivity.
Qed.

(** X15.  When [runDaemonsetUpdate] returns no error, exactly one managed
    daemon set exists afterwards: the operator's own [agentDaemonsetSpec],
    or the one that was there, untouched like the rest of the namespace,
    with a version that is not older than the operator's. *)
Theorem runDaemonsetUpdate_success (b : Build) (repo : string)
    (world world' : list DaemonSet) :
  runDaemonsetUpdate b repo world = (None, world') →
  ∃ d, ds_List managedByOperatorLabels world' = [d] ∧ d ∈ world'
    ∧ (d = agentDaemonsetSpec b repo ∨ (world' = world ∧ versionOlder b d false)).
Proof.
  intros Hrun. rewrite ds_List_managed.
  destruct (runDaemonsetUpdate_success_shape b repo world world' Hrun) as (d & Hm & Hd).
  exists d. split; [exact Hm|]. split; [|exact Hd].
  assert (Hin : d ∈ List.filter isManaged world') by (rewrite Hm; left).
  apply elem_of_ds_filter in Hin as [Hin _]. exact Hin.
Qed.

(** X15 at work: nothing managed in the namespace, the agent is created. *)
Lemma runDaemonsetUpdate_success_witness :
  let other := mkDaemonSet "proxy" [("app", "proxy")] [] in
  let world' := [other; agentDaemonsetSpec exampleBuild "repo"] in
  runDaemonsetUpdate exampleBuild "repo" [other] = (None, world')
  ∧ ∃ d, ds_List managedByOperatorLabels world' = [d] ∧ d ∈ world'
      ∧ (d = agentDaemonsetSpec exampleBuild "repo"
         ∨ (world' = [other] ∧ versionOlder exampleBuild d false)).
Proof.
  intros other world'.
  assert (Hrun : runDaemonsetUpdate exampleBuild "repo" [other] = (None, world'))
    by (vm_compute; reflexivity).
  split; [exact Hrun|].
  exact (runDaemonsetUpdate_success exampleBuild "repo" [other] world' Hrun).
Defined.

(** X16.  Let the operator's version string parse to the operator's
    semantic version, and let that version not be older than itself.  When
    [runDaemonsetUpdate] has returned no error, running it again returns no
    error and changes nothing. *)
Theorem runDaemonsetUpdate_twice (b : Build) (repo : string)
    (world world' : list DaemonSet) :
  semver_Parse b (version_Version b) = Some (version_Semver b) →
  semver_LT b (version_Semver b) (version_Semver b) = false →
  runDaemonsetUpdate b repo world = (None, world') →
  runDaemonsetUpdate b repo world' = (None, world').
Proof.
  intros Hparse Hirrefl Hrun.
  destruct (runDaemonsetUpdate_success_shape b repo world world' Hrun) as (d & Hm & Hd).
  assert (Hv : versionOlder b d false).
  { destruct Hd as [->|[_ Hv]]; [|exact Hv].
    exists (version_Version b), (version_Semver b).
    split; [apply version_spec|]. auto. }
  destruct Hv as (value & dsSemver & Ha & Hp & Hlt).
  unfold runDaemonsetUpdate. rewrite ds_List_managed, Hm, Ha, Hp, Hlt. reflexivity.
Qed.

(** X16 at work: the run that replaced the old agent, run again. *)
Lemma runDaemonsetUpdate_twice_witness :
  let old := mkDaemonSet "agent" [("managed-by", "flatcar-linux-update-operator");
                                  ("app", agentDefaultAppName)]
               [(AgentVersion, "0.7.0")] in
  let world' := [agentDaemonsetSpec exampleBuild "repo"] in
  (semver_Parse exampleBuild (version_Version exampleBuild)
   = Some (version_Semver exampleBuild)
   ∧ semver_LT exampleBuild (version_Semver exampleBuild) (version_Semver exampleBuild)
     = false
   ∧ runDaemonsetUpdate exampleBuild "repo" [old] = (None, world'))
  ∧ runDaemonsetUpdate exampleBuild "repo" world' = (None, world').
Proof.
  intros old world'.
  assert (Hrun : runDaemonsetUpdate exampleBuild "repo" [old] = (None, world'))
    by (vm_compute; reflexivity).
  split; [split; [reflexivity|split; [reflexivity|exact Hrun]]|].
  exact (runDaemonsetUpdate_twice exampleBuild "repo" [old] world' eq_refl eq_refl Hrun).
Defined.

(** ** Setting up the controller *)

(** X17.  [New] gives the controller a reboot window only when both
    [RebootWindowStart] and [RebootWindowLength] are set.  When one of them
    is empty the other is not even parsed: a controller that [New] returns
    has no window then, [insideRebootWindow] is true at all times, and the
    admission phase is never skipped. *)
Theorem New_half_window (env : Environment) (config : Config) (setup : KontrollerSetup) :
  New env config = inr setup →
  RebootWindowStart config = "" ∨ RebootWindowLength config = "" →
  rebootWindow (reconciler setup) = None
  ∧ (∀ now1 now2, insideRebootWindow (reconciler setup) now1 now2 = true)
  ∧ beforeRebootAnnotations (reconciler setup) = BeforeRebootAnnotations config
  ∧ afterRebootAnnotations (reconciler setup) = AfterRebootAnnotations config.
Proof.
  intros Hnew Hempty. unfold New in Hnew.
  destruct (Client config); [|discriminate].
  destruct (rest_InClusterConfig env); [discriminate|].
  destruct (kubernetes_NewForConfig env); [discriminate|].
  case_bool_decide; [discriminate|].
  assert (Hoff : bool_decide (RebootWindowStart config ≠ "")
                 && bool_decide (RebootWindowLength config ≠ "") = false).
  { apply andb_false_iff. destruct Hempty as [He|He]; [left|right];
      apply bool_decide_eq_false_2; rewrite He; auto. }
  rewrite Hoff in Hnew. injection Hnew as <-. cbn [reconciler rebootWindow].
  split; [reflexivity|]. split; [|split; reflexivity].
  intros now1 now2. apply insideRebootWindow_unconfigured. reflexivity.
Qed.

(** X17 at work: a start without a length, and a parser that accepts
    nothing. *)
Lemma New_half_window_witness :
  let env := {| rest_InClusterConfig := None; kubernetes_NewForConfig := None;
                os_Getenv := λ _, "kube-system";
                timeutil_ParsePeriodic := λ _ _, inl (StatusError StatusReasonUnknown "bad") |} in
  let config := {| Client := Some clientset; AutoLabelContainerLinux := false;
                   BeforeRebootAnnotations := ["gate"]; AfterRebootAnnotations := [];
                   RebootWindowStart := "Mon 14:00"; RebootWindowLength := "";
                   ManageAgent := false; AgentImageRepo := "" |} in
  ∃ setup, New env config = inr setup
    ∧ rebootWindow (reconciler setup) = None
    ∧ insideRebootWindow (reconciler setup) 0 0 = true.
Proof.
  intros env config. eexists. split; [reflexivity|].
  destruct (New_half_window env config _ eq_refl (or_intror eq_refl)) as (Hw & Hin & _).
  split; [exact Hw|apply Hin].
Defined.
